(** * Session, result-store, rate-limiter and config-cache core of the
    MDLH dictionary backend

  A shallow embedding of

    - [backend/app/services/session.py]
        ([QueryResult], [QueryResultStore], [SnowflakeSession],
         [SessionManager]),
    - [backend/app/routers/connection.py] ([RateLimiter]),
    - [backend/app/services/system_config.py] ([SYSTEM_CONFIG_CACHE]),
    - [backend/app/routers/system.py] ([SystemConfigCache]),

  followed by the properties of the specification that concern them.

  Conventions of the embedding.

    - [datetime] values are integers counting microseconds (the resolution
      of [datetime] and [timedelta]); [timedelta(minutes=m)] is
      [m * 60_000_000].
    - [time.time()] and the timer of [TTLCache] return floats; they are
      embedded as exact rationals ([Q]), and [int(x)] truncates towards
      zero.
    - Every method that reads the clock receives the reading as its first
      argument [now]; a method runs under the lock of its object, and the
      readings inside one call are taken at one instant.
    - An [OrderedDict] is an association list in iteration order (oldest
      first); a plain [dict] keyed by strings is a [gmap string _].
    - The Snowflake connection is an external object: sessions hold a
      connection identifier, and the outside world records for every
      identifier whether a probe succeeds, together with the log of the
      calls the manager made. *)

From Stdlib Require Import ZArith QArith Qround Ascii String List Sorted Lia Lqa.
From stdpp Require Import base list gmap strings.

Local Open Scope Z_scope.

(* ===================================================================== *)
(** * Python building blocks *)
(* ===================================================================== *)

(** [while cond: body] with a step budget.  [None] means that the budget
  ran out before the condition became false. *)
Fixpoint while {S : Type} (fuel : nat) (cond : S -> bool) (body : S -> S)
  (s : S) : option S :=
match fuel with
| O => None
| Datatypes.S fuel' =>
    if cond s then while fuel' cond body (body s) else Some s
end.

(** [collections.OrderedDict] with [str] keys: the items in iteration
  order.  Keys are pairwise different in every dictionary the program
  builds ([OrderedDict.wf]). *)
Module OrderedDict.
Section Ops.
Context {V : Type}.

(** [d.get(k)] *)
Fixpoint get (k : string) (d : list (string * V)) : option V :=
  match d with
  | [] => None
  | (k', v) :: rest => if String.eqb k k' then Some v else get k rest
  end.

(** The items that remain after [d.pop(k, None)]. *)
Fixpoint remove (k : string) (d : list (string * V)) : list (string * V) :=
  match d with
  | [] => []
  | (k', v) :: rest =>
      if String.eqb k k' then rest else (k', v) :: remove k rest
  end.

(** [d.pop(k, None)]: the value removed (if any) and the remaining items. *)
Definition pop (k : string) (d : list (string * V))
  : option V * list (string * V) :=
  (get k d, remove k d).

(** [d[k] = v]: a present key keeps its position, a new key goes last. *)
Fixpoint setitem (k : string) (v : V) (d : list (string * V))
  : list (string * V) :=
  match d with
  | [] => [(k, v)]
  | (k', v') :: rest =>
      if String.eqb k k' then (k, v) :: rest
      else (k', v') :: setitem k v rest
  end.

(** [d.move_to_end(k)].  Python raises [KeyError] on an absent key; both
    call sites run it on a key that was just looked up or stored, and the
    absent case leaves the dictionary as it is. *)
Definition move_to_end (k : string) (d : list (string * V))
  : list (string * V) :=
  match get k d with
  | Some v => remove k d ++ [(k, v)]
  | None => d
  end.

Definition keys (d : list (string * V)) : list string := map fst d.

(** [next(iter(d))], when [d] is not empty. *)
Definition first_key (d : list (string * V)) : option string :=
  match d with
  | [] => None
  | (k, _) :: _ => Some k
  end.

Definition wf (d : list (string * V)) : Prop := NoDup (keys d).

(** The keys that come after [k] in the order of [d]; in a dictionary kept
    least recently used first these are the keys used after [k] was. *)
Fixpoint keys_after (k : string) (d : list (string * V)) : list string :=
  match d with
  | [] => []
  | (k', _) :: rest => if String.eqb k k' then keys rest else keys_after k rest
  end.
End Ops.
End OrderedDict.

(* ===================================================================== *)
(** * services/session.py: query results *)
(* ===================================================================== *)

Definition MAX_QUERY_RESULTS_PER_SESSION : Z := 50.
Definition QUERY_RESULT_TTL_MINUTES : Z := 5.
Definition MAX_RESULT_SIZE_BYTES : Z := 10 * 1024 * 1024.

(** [timedelta(minutes=m)] in microseconds. *)
Definition timedelta_minutes (m : Z) : Z := m * 60000000.

(** The dictionary handed to [put]: its text [str(data)] and the number of
  bytes [sys.getsizeof] reports for that text (a natural number, as is the
  fallback [1000] of the [except] branch). *)
Record Data := mkData { text : string; getsizeof : N }.

Module QueryResult.
Record t := mk {
  data : Data;
  created_at : Z;
  last_accessed : Z;
  _size_bytes : Z
}.

Definition _estimate_size (d : Data) : Z := Z.of_N (getsizeof d).

(** [QueryResult(data)] built when the clock reads [now]. *)
Definition __init__ (now : Z) (d : Data) : t :=
  {| data := d; created_at := now; last_accessed := now;
     _size_bytes := _estimate_size d |}.

Definition is_expired (now : Z) (ttl_minutes : Z) (r : t) : bool :=
  now - created_at r >? timedelta_minutes ttl_minutes.

Definition touch (now : Z) (r : t) : t :=
  {| data := data r; created_at := created_at r; last_accessed := now;
     _size_bytes := _size_bytes r |}.

Definition size_bytes (r : t) : Z := _size_bytes r.
End QueryResult.

Module QueryResultStore.
Record t := mk {
  _results : list (string * QueryResult.t);
  _max_results : Z;
  _ttl_minutes : Z;
  _max_size_bytes : Z;
  _total_size_bytes : Z
}.

Definition __init__ (max_results ttl_minutes max_size_bytes : Z) : t :=
  {| _results := []; _max_results := max_results;
     _ttl_minutes := ttl_minutes; _max_size_bytes := max_size_bytes;
     _total_size_bytes := 0 |}.

(** The store of a new session: [QueryResultStore()]. *)
Definition default : t :=
  __init__ MAX_QUERY_RESULTS_PER_SESSION QUERY_RESULT_TTL_MINUTES
           MAX_RESULT_SIZE_BYTES.

Definition set_results (rs : list (string * QueryResult.t)) (total : Z)
    (s : t) : t :=
  {| _results := rs; _max_results := _max_results s;
     _ttl_minutes := _ttl_minutes s; _max_size_bytes := _max_size_bytes s;
     _total_size_bytes := total |}.

Definition __len__ (s : t) : Z := Z.of_nat (length (_results s)).

(** [_remove]: pop the entry and give its bytes back.  A [QueryResult]
    object is always truthy, so [if result:] tests presence. *)
Definition _remove (query_id : string) (s : t) : t :=
  match OrderedDict.pop query_id (_results s) with
  | (Some result, rest) =>
      set_results rest (_total_size_bytes s - QueryResult.size_bytes result) s
  | (None, _) => s
  end.

Definition _evict_oldest (s : t) : t :=
  match OrderedDict.first_key (_results s) with
  | Some oldest_id => _remove oldest_id s
  | None => s
  end.

Definition _evict_expired (now : Z) (s : t) : t :=
  let expired :=
    map fst
      (List.filter (fun kr => QueryResult.is_expired now (_ttl_minutes s) (snd kr))
              (_results s)) in
  fold_left (fun acc qid => _remove qid acc) expired s.

Definition at_capacity (s : t) : bool := __len__ s >=? _max_results s.

Definition over_budget (size : Z) (s : t) : bool :=
  (_total_size_bytes s + size >? _max_size_bytes s)
  && negb (Nat.eqb (length (_results s)) 0).

(** [put], with [fuel] iterations at most for each of its two loops. *)
Definition put_fuel (fuel : nat) (now : Z) (query_id : string) (d : Data)
    (s : t) : option t :=
  let result := QueryResult.__init__ now d in
  let s1 := _evict_expired now s in
  match while fuel at_capacity _evict_oldest s1 with
  | None => None
  | Some s2 =>
      match while fuel (over_budget (QueryResult.size_bytes result))
                  _evict_oldest s2 with
      | None => None
      | Some s3 =>
          let rs := OrderedDict.setitem query_id result (_results s3) in
          let total := _total_size_bytes s3 + QueryResult.size_bytes result in
          Some (set_results (OrderedDict.move_to_end query_id rs) total s3)
      end
  end.

(** [put]: one more iteration than there are entries is enough for a loop
    that removes an entry per round ([put_fuel_enough]); with
    [_max_results <= 0] the first loop never ends ([put_diverges]). *)
Definition put (now : Z) (query_id : string) (d : Data) (s : t) : option t :=
  put_fuel (Datatypes.S (length (_results s))) now query_id d s.

(** [get]: the store after the call and the value returned. *)
Definition get (now : Z) (query_id : string) (s : t) : t * option Data :=
  match OrderedDict.get query_id (_results s) with
  | None => (s, None)
  | Some result =>
      if QueryResult.is_expired now (_ttl_minutes s) result then
        (_remove query_id s, None)
      else
        let touched := QueryResult.touch now result in
        let rs := OrderedDict.setitem query_id touched (_results s) in
        (set_results (OrderedDict.move_to_end query_id rs)
                     (_total_size_bytes s) s,
         Some (QueryResult.data result))
  end.

Definition __contains__ (now : Z) (query_id : string) (s : t) : bool :=
  match OrderedDict.get query_id (_results s) with
  | Some r => negb (QueryResult.is_expired now (_ttl_minutes s) r)
  | None => false
  end.

Definition clear (s : t) : t := set_results [] 0 s.

(** The sum of [size_bytes] over the stored entries. *)
Definition stored_bytes (s : t) : Z :=
  fold_right (fun kr acc => QueryResult.size_bytes (snd kr) + acc) 0
             (_results s).

(** The tracked total agrees with what is stored. *)
Definition consistent (s : t) : Prop := _total_size_bytes s = stored_bytes s.

(** One [put] call: the clock reading, the query id and the result. *)
Record call := mkCall { call_now : Z; call_id : string; call_data : Data }.


(** A series of [put] calls, first call first. *)
Fixpoint puts (cs : list call) (s : t) : option t :=
  match cs with
  | [] => Some s
  | c :: cs' =>
      match put (call_now c) (call_id c) (call_data c) s with
      | Some s1 => puts cs' s1
      | None => None
      end
  end.

(** The operations of the public interface, for stating what holds after
    any series of them. *)
Inductive op :=
| Put (now : Z) (query_id : string) (d : Data)
| Get (now : Z) (query_id : string)
| Clear.

Definition step (o : op) (s : t) : option t :=
  match o with
  | Put now query_id d => put now query_id d s
  | Get now query_id => Some (fst (get now query_id s))
  | Clear => Some (clear s)
  end.

Fixpoint run (os : list op) (s : t) : option t :=
  match os with
  | [] => Some s
  | o :: os' =>
      match step o s with
      | Some s1 => run os' s1
      | None => None
      end
  end.

(** The limits of a store never change. *)
Definition same_params (s s' : t) : Prop :=
  _max_results s' = _max_results s /\
  _ttl_minutes s' = _ttl_minutes s /\
  _max_size_bytes s' = _max_size_bytes s.

(** [s'] comes from [s] by removing entries and giving their bytes back. *)
Definition shrinks (s s' : t) : Prop :=
  same_params s s' /\
  sublist (_results s') (_results s) /\
  _total_size_bytes s - stored_bytes s
  = _total_size_bytes s' - stored_bytes s'.

(** No stored entry is older than the TTL when the clock reads [now]. *)
Definition all_live (now : Z) (s : t) : Prop :=
  Forall (fun kr => QueryResult.is_expired now (_ttl_minutes s) (snd kr) = false)
         (_results s).



(** Every stored entry has a size that [sys.getsizeof] can report. *)
Definition sizes_ok (s : t) : Prop :=
  Forall (fun kr => 0 <= QueryResult.size_bytes (snd kr)) (_results s).

(** The byte budget as [put] keeps it: the total is within
    [_max_size_bytes], or the store holds one entry that is larger than the
    budget on its own. *)
Definition within_budget (s : t) : Prop :=
  _total_size_bytes s <= _max_size_bytes s \/
  exists k r, _results s = [(k, r)] /\
              _max_size_bytes s < QueryResult.size_bytes r /\
              _total_size_bytes s = QueryResult.size_bytes r.

(** The invariant of the store under [put], [get] and [clear]: at most
    [_max_results] entries under pairwise different keys, sizes that
    [getsizeof] can report, a tracked total that is not below the bytes
    stored, and bytes stored within the budget unless one entry is alone in
    the store. *)
Definition store_ok (s : t) : Prop :=
  __len__ s <= _max_results s /\
  OrderedDict.wf (_results s) /\
  sizes_ok s /\
  stored_bytes s <= _total_size_bytes s /\
  (stored_bytes s <= _max_size_bytes s \/ exists k r, _results s = [(k, r)]).
End QueryResultStore.

(* ===================================================================== *)
(** * services/session.py: sessions and their manager *)
(* ===================================================================== *)

(** What the manager does to the outside: it takes and releases its
  [RLock], probes a connection ([SELECT 1] on a fresh cursor) and closes a
  connection. *)
Inductive Event :=
| EvAcquire
| EvRelease
| EvProbe (conn : nat)
| EvClose (conn : nat).

(** The outside world: which connections answer a probe, and the calls made
  so far, oldest first. *)
Record World := mkWorld { probe_ok : nat -> bool; log : list Event }.

Definition emit (e : Event) (w : World) : World :=
{| probe_ok := probe_ok w; log := log w ++ [e] |}.

Definition is_close_of (c : nat) (e : Event) : bool :=
match e with
| EvClose c' => Nat.eqb c c'
| _ => false
end.

(** How many times [conn.close()] was called on connection [c]. *)
Definition close_count (c : nat) (w : World) : nat :=
length (List.filter (is_close_of c) (log w)).


Module SnowflakeSession.
Record t := mk {
  conn : nat;
  user : string;
  account : string;
  warehouse : string;
  database : string;
  schema : string;
  role : option string;
  created_at : Z;
  last_used : Z;
  query_count : Z;
  query_results : QueryResultStore.t
}.

Definition __init__ (now : Z) (conn : nat)
  (user account warehouse database schema : string) (role : option string)
  : t :=
{| conn := conn; user := user; account := account; warehouse := warehouse;
   database := database; schema := schema; role := role;
   created_at := now; last_used := now; query_count := 0;
   query_results := QueryResultStore.default |}.

Definition touch (now : Z) (s : t) : t :=
{| conn := conn s; user := user s; account := account s;
   warehouse := warehouse s; database := database s; schema := schema s;
   role := role s; created_at := created_at s;
   last_used := now; query_count := query_count s + 1;
   query_results := query_results s |}.

Definition is_expired (now : Z) (max_idle_minutes : Z) (s : t) : bool :=
now - last_used s >? timedelta_minutes max_idle_minutes.

(** [is_alive]: any exception of the cursor round-trip gives [False]. *)
Definition is_alive (s : t) (w : World) : bool * World :=
(probe_ok w (conn s), emit (EvProbe (conn s)) w).

(** [close]: clear the results, close the connection; an exception of
  [conn.close()] is swallowed. *)
Definition close (s : t) (w : World) : t * World :=
({| conn := conn s; user := user s; account := account s;
    warehouse := warehouse s; database := database s; schema := schema s;
    role := role s; created_at := created_at s;
    last_used := last_used s; query_count := query_count s;
    query_results := QueryResultStore.clear (query_results s) |},
 emit (EvClose (conn s)) w).
End SnowflakeSession.

Module SessionManager.
Record t := mk {
  _sessions : gmap string SnowflakeSession.t;
  _max_idle_minutes : Z;
  _cleanup_interval : Z;
  _running : bool
}.

Definition __init__ (max_idle_minutes cleanup_interval_seconds : Z) : t :=
{| _sessions := ∅; _max_idle_minutes := max_idle_minutes;
   _cleanup_interval := cleanup_interval_seconds; _running := true |}.

Definition set_sessions (m : gmap string SnowflakeSession.t) (mgr : t) : t :=
{| _sessions := m; _max_idle_minutes := _max_idle_minutes mgr;
   _cleanup_interval := _cleanup_interval mgr; _running := _running mgr |}.

(** [create_session]; [session_id] is the text of the fresh [uuid4()]. *)
Definition create_session (now : Z) (session_id : string) (conn : nat)
  (user account warehouse database schema : string) (role : option string)
  (mgr : t) (w : World) : string * t * World :=
let session :=
  SnowflakeSession.__init__ now conn user account warehouse database schema
                            role in
let w1 := emit EvAcquire w in
let mgr1 := set_sessions (<[session_id := session]> (_sessions mgr)) mgr in
(session_id, mgr1, emit EvRelease w1).

(** [_remove_session_unsafe]: the caller holds the lock.  A session object
  is always truthy, so [if session:] tests presence. *)
Definition _remove_session_unsafe (session_id : string) (mgr : t) (w : World)
  : bool * t * World :=
match _sessions mgr !! session_id with
| Some session =>
    let mgr1 := set_sessions (delete session_id (_sessions mgr)) mgr in
    let '(_, w1) := SnowflakeSession.close session w in
    (true, mgr1, w1)
| None => (false, mgr, w)
end.

Definition remove_session (session_id : string) (mgr : t) (w : World)
  : bool * t * World :=
let w1 := emit EvAcquire w in
let '(removed, mgr1, w2) := _remove_session_unsafe session_id mgr w1 in
(removed, mgr1, emit EvRelease w2).

(** [get_session]: the whole body runs inside [with self._lock]. *)
Definition get_session (now : Z) (session_id : string) (mgr : t) (w : World)
  : option SnowflakeSession.t * t * World :=
let w1 := emit EvAcquire w in
match _sessions mgr !! session_id with
| None => (None, mgr, emit EvRelease w1)
| Some session =>
    if SnowflakeSession.is_expired now (_max_idle_minutes mgr) session then
      let '(_, mgr1, w2) := _remove_session_unsafe session_id mgr w1 in
      (None, mgr1, emit EvRelease w2)
    else
      let '(alive, w2) := SnowflakeSession.is_alive session w1 in
      if negb alive then
        let '(_, mgr1, w3) := _remove_session_unsafe session_id mgr w2 in
        (None, mgr1, emit EvRelease w3)
      else
        let session1 := SnowflakeSession.touch now session in
        let mgr1 :=
          set_sessions (<[session_id := session1]> (_sessions mgr)) mgr in
        (Some session1, mgr1, emit EvRelease w2)
end.

(** The module-level instance: [SessionManager(max_idle_minutes=30)]. *)
Definition session_manager : t := __init__ 30 60.

(** The loop [for sid in ids: self._remove_session_unsafe(sid)]. *)
Definition _remove_sessions (ids : list string) (mgr : t) (w : World)
  : t * World :=
  fold_left
    (fun st sid =>
       let '(_, mgr1, w1) := _remove_session_unsafe sid (fst st) (snd st) in
       (mgr1, w1))
    ids (mgr, w).

(** The ids of the sessions that have been idle for too long.  The model
    lists a dictionary in the order of [map_to_list], Python in the order
    of insertion; the order shows only in the order of the close events of
    the log. *)
Definition expired_ids (now : Z) (mgr : t) : list string :=
  map fst
    (List.filter
       (fun p => SnowflakeSession.is_expired now (_max_idle_minutes mgr) (snd p))
       (map_to_list (_sessions mgr))).

(** [_cleanup_expired]: one round of the background thread. *)
Definition _cleanup_expired (now : Z) (mgr : t) (w : World) : t * World :=
  let w1 := emit EvAcquire w in
  let '(mgr1, w2) := _remove_sessions (expired_ids now mgr) mgr w1 in
  (mgr1, emit EvRelease w2).

(** [shutdown]: stop the background loop and close every session. *)
Definition shutdown (mgr : t) (w : World) : t * World :=
  let mgr0 :=
    {| _sessions := _sessions mgr; _max_idle_minutes := _max_idle_minutes mgr;
       _cleanup_interval := _cleanup_interval mgr; _running := false |} in
  let w1 := emit EvAcquire w in
  let '(mgr1, w2) :=
    _remove_sessions (map fst (map_to_list (_sessions mgr0))) mgr0 w1 in
  (mgr1, emit EvRelease w2).

(** [get_session] for one id at each of the times of a list, with the
    answers. *)
Fixpoint gets (times : list Z) (session_id : string) (mgr : t) (w : World)
  : list (option SnowflakeSession.t) * t * World :=
  match times with
  | [] => ([], mgr, w)
  | now :: times' =>
      let '(r, mgr1, w1) := get_session now session_id mgr w in
      let '(rs, mgr2, w2) := gets times' session_id mgr1 w1 in
      (r :: rs, mgr2, w2)
  end.

(** Starting at [t0], no step of the times [ts] is longer than [d]. *)
Fixpoint steps_within (d t0 : Z) (ts : list Z) : Prop :=
  match ts with
  | [] => True
  | t :: ts' => t - t0 <= d /\ steps_within d t ts'
  end.

(** [n] calls of [remove_session] for one id in a row, with their answers. *)
Fixpoint removes (n : nat) (session_id : string) (mgr : t) (w : World)
  : list bool * t * World :=
  match n with
  | O => ([], mgr, w)
  | S n' =>
      let '(r, mgr1, w1) := remove_session session_id mgr w in
      let '(rs, mgr2, w2) := removes n' session_id mgr1 w1 in
      (r :: rs, mgr2, w2)
  end.
End SessionManager.

(* ===================================================================== *)
(** * routers/connection.py: the rate limiter *)
(* ===================================================================== *)

(** [a < b] on rationals, as a boolean. *)
Definition Qltb (a b : Q) : bool := negb (Qle_bool b a).

(** [int(x)] of a float: truncation towards zero. *)
Definition py_int (x : Q) : Z := Z.quot (Qnum x) (Z.pos (Qden x)).

Module RateLimiter.
Record t := mk {
  _attempts : gmap string (list Q);
  _max_attempts : Z;
  _window_seconds : Z
}.

Definition __init__ (max_attempts window_seconds : Z) : t :=
{| _attempts := ∅; _max_attempts := max_attempts;
   _window_seconds := window_seconds |}.

(** [self._attempts[client_ip]] of the [defaultdict(list)]. *)
Definition attempts_of (client_ip : string) (s : t) : list Q :=
match _attempts s !! client_ip with
| Some l => l
| None => []
end.

Definition set_attempts (client_ip : string) (l : list Q) (s : t) : t :=
{| _attempts := <[client_ip := l]> (_attempts s);
   _max_attempts := _max_attempts s;
   _window_seconds := _window_seconds s |}.

(** [now - t < self._window_seconds] *)
Definition in_window (now : Q) (window_seconds : Z) (t : Q) : bool :=
Qltb (now - t) (inject_Z window_seconds).

(** [is_allowed]: the limiter after the call and the pair returned.  The
  result is [None] where [self._attempts[client_ip][0]] raises [IndexError]
  (an empty list with [_max_attempts <= 0]). *)
Definition is_allowed (now : Q) (client_ip : string) (s : t)
  : t * option (bool * Z) :=
let recent :=
  List.filter (in_window now (_window_seconds s)) (attempts_of client_ip s) in
let s1 := set_attempts client_ip recent s in
if Z.of_nat (length recent) >=? _max_attempts s then
  match recent with
  | oldest :: _ =>
      let seconds_until_reset :=
        py_int (inject_Z (_window_seconds s) - (now - oldest)) + 1 in
      (s1, Some (false, seconds_until_reset))
  | [] => (s1, None)
  end
else
  (set_attempts client_ip (recent ++ [now]) s1, Some (true, 0)).

Definition get_remaining (now : Q) (client_ip : string) (s : t) : Z :=
let recent :=
  List.filter (in_window now (_window_seconds s)) (attempts_of client_ip s) in
Z.max 0 (_max_attempts s - Z.of_nat (length recent)).

(** The module-level instance:
  [RateLimiter(max_attempts=5, window_seconds=60)]. *)
Definition connect_rate_limiter : t := __init__ 5 60.

(** The limiter after a series of calls for one client, with the answers. *)
Fixpoint calls (times : list Q) (client_ip : string) (s : t)
  : t * list (option (bool * Z)) :=
match times with
| [] => (s, [])
| now :: times' =>
    let '(s1, r) := is_allowed now client_ip s in
    let '(s2, rs) := calls times' client_ip s1 in
    (s2, r :: rs)
end.

Definition denied (r : option (bool * Z)) : bool :=
match r with
| Some (false, _) => true
| _ => false
end.
End RateLimiter.

(** ** The key of the limiter: [_get_client_ip] *)

(** What [_get_client_ip] reads of a request: the values of the headers
  [X-Forwarded-For] and [X-Real-IP] ([None] when the header is absent) and
  [request.client.host] ([None] when [request.client] is [None]).  Header
  values are text decoded from Latin-1, one character for every byte. *)
Record Request := mkRequest {
  x_forwarded_for : option string;
  x_real_ip : option string;
  client_host : option string
}.

(** [c.isspace()] for a character of Latin-1: tab, line feed, vertical tab,
  form feed, carriage return, the separators 28 .. 31, the space, next line
  (133) and the no-break space (160). *)
Definition py_isspace (c : ascii) : bool :=
let n := nat_of_ascii c in
(Nat.leb 9 n && Nat.leb n 13) || (Nat.leb 28 n && Nat.leb n 32)
|| Nat.eqb n 133 || Nat.eqb n 160.

(** [s.lstrip()] *)
Fixpoint lstrip (s : string) : string :=
match s with
| EmptyString => EmptyString
| String c s' => if py_isspace c then lstrip s' else s
end.

(** [s.rstrip()] *)
Fixpoint rstrip (s : string) : string :=
match s with
| EmptyString => EmptyString
| String c s' =>
    match rstrip s' with
    | EmptyString => if py_isspace c then EmptyString else String c EmptyString
    | t => String c t
    end
end.

(** [s.strip()] *)
Definition strip (s : string) : string := rstrip (lstrip s).

(** [s.split(",")[0]]: the text in front of the first comma. *)
Fixpoint first_field (s : string) : string :=
match s with
| EmptyString => EmptyString
| String c s' =>
    if Ascii.eqb c ","%char then EmptyString else String c (first_field s')
end.

(** [_get_client_ip]; [if forwarded:] and [if real_ip:] hold for a header
  that is present and not empty. *)
Definition _get_client_ip (request : Request) : string :=
match x_forwarded_for request with
| Some (String c rest) => strip (first_field (String c rest))
| _ =>
    match x_real_ip request with
    | Some (String c rest) => String c rest
    | _ =>
        match client_host request with
        | Some host => host
        | None => "unknown"%string
        end
    end
end.

(** A text that [strip] leaves as it is: empty, or with no white space at
  either end. *)
Definition trimmed (s : string) : Prop :=
match list_ascii_of_string s with
| [] => True
| c :: l => py_isspace c = false /\ py_isspace (List.last l c) = false
end.

Definition all_space (s : string) : Prop :=
Forall (fun c => py_isspace c = true) (list_ascii_of_string s).

Definition no_comma (s : string) : Prop :=
Forall (fun c => c <> ","%char) (list_ascii_of_string s).

(** The first step of the endpoint [connect]: the limiter is asked about
  the key of the request,
  [connect_rate_limiter.is_allowed(_get_client_ip(http_request))]. *)
Definition connect_rate_check (now : Q) (http_request : Request)
    (s : RateLimiter.t) : RateLimiter.t * option (bool * Z) :=
RateLimiter.is_allowed now (_get_client_ip http_request) s.

(** That step for a series of requests, each with the time of its arrival. *)
Fixpoint connect_rate_checks (reqs : list (Q * Request)) (s : RateLimiter.t)
  : RateLimiter.t * list (option (bool * Z)) :=
match reqs with
| [] => (s, [])
| (now, http_request) :: reqs' =>
    let '(s1, r) := connect_rate_check now http_request s in
    let '(s2, rs) := connect_rate_checks reqs' s1 in
    (s2, r :: rs)
end.

(* ===================================================================== *)
(** * services/system_config.py and routers/system.py: config caches *)
(* ===================================================================== *)

(** Modelled from the spec: [cachetools.TTLCache] is a third-party class
  whose source is not in the repository.  The model is the expiring store
  of the specification (evict what has expired, evict the least recently
  used entry while the count is at the maximum, insert), in the shape
  [cachetools] gives it: every item counts 1, an item set at [time] expires
  at [time + ttl], an item is live while [time < expires], and the items
  are kept least recently used first. *)
Module TTLCache.
Section Ops.
Context {V : Type}.

Record t := mk {
  maxsize : Z;
  ttl : Z;
  items : list (string * (V * Q))
}.

Definition set_items (l : list (string * (V * Q))) (c : t) : t :=
{| maxsize := maxsize c; ttl := ttl c; items := l |}.

Definition __init__ (maxsize ttl : Z) : t :=
{| maxsize := maxsize; ttl := ttl; items := [] |}.

Definition currsize (c : t) : Z := Z.of_nat (length (items c)).

Definition live (time : Q) (e : string * (V * Q)) : bool :=
Qltb time (snd (snd e)).

Definition expire (time : Q) (c : t) : t :=
set_items (List.filter (live time) (items c)) c.

(** The eviction step of [__setitem__] ([popitem]): drop the first item. *)
Definition popitem (c : t) : t := set_items (tl (items c)) c.

Definition full (c : t) : bool := currsize c + 1 >? maxsize c.

(** [c[key] = value] when the timer reads [time]; [None] stands for the
  [ValueError] of a value larger than the cache, or a loop out of fuel. *)
Definition __setitem__ (time : Q) (key : string) (value : V) (c : t)
  : option t :=
let c1 := expire time c in
if 1 >? maxsize c1 then None
else
  let evicted :=
    match OrderedDict.get key (items c1) with
    | Some _ => Some c1
    | None => while (S (length (items c1))) full popitem c1
    end in
  match evicted with
  | None => None
  | Some c2 =>
      Some (set_items
              (OrderedDict.remove key (items c2)
               ++ [(key, (value, (time + inject_Z (ttl c2))%Q))]) c2)
  end.

(** [c.get(key)] when the timer reads [time]: a live item is returned and
  becomes the most recently used one. *)
Definition get (time : Q) (key : string) (c : t) : t * option V :=
match OrderedDict.get key (items c) with
| Some (v, expires) =>
    if Qltb time expires
    then (set_items (OrderedDict.move_to_end key (items c)) c, Some v)
    else (c, None)
| None => (c, None)
end.

(** [key in c] when the timer reads [time]: present and live. *)
Definition __contains__ (time : Q) (key : string) (c : t) : bool :=
match OrderedDict.get key (items c) with
| Some (_, expires) => Qltb time expires
| None => false
end.

(** [del c[key]] for a key that is in the cache. *)
Definition __delitem__ (key : string) (c : t) : t :=
set_items (OrderedDict.remove key (items c)) c.

(** The cache is within its size, holds [value] under [key] to expire at
  [expires], and the keys used since [key] was are among [others]. *)
Definition holds_for (key : string) (value : V) (expires : Q)
    (others : list string) (c : t) : Prop :=
OrderedDict.wf (items c) /\
currsize c <= maxsize c /\
OrderedDict.get key (items c) = Some (value, expires) /\
forall k, k ∈ OrderedDict.keys_after key (items c) -> k ∈ others.

(** The cache is within its size, and what it holds under [key], if
  anything, expires at [expires] or before. *)
Definition stale_by (key : string) (expires : Q) (c : t) : Prop :=
OrderedDict.wf (items c) /\
currsize c <= maxsize c /\
forall v e, OrderedDict.get key (items c) = Some (v, e) -> (e <= expires)%Q.
End Ops.
Arguments t : clear implicits.
End TTLCache.

(** services/system_config.py:
  [SYSTEM_CONFIG_CACHE: TTLCache = TTLCache(maxsize=100, ttl=300)],
  commented there as "Cache config per session (5 minute TTL)". *)
Definition SYSTEM_CONFIG_CACHE {Config : Type} : TTLCache.t Config :=
TTLCache.__init__ 100 300.

(** The last step of [build_system_config]:
  [SYSTEM_CONFIG_CACHE[session_id] = config]. *)
Definition cache_built_config {Config : Type} (time : Q) (session_id : string)
  (config : Config) (c : TTLCache.t Config) : option (TTLCache.t Config) :=
TTLCache.__setitem__ time session_id config c.

(** routers/system.py *)
Definition CONFIG_CACHE_TTL_SECONDS : Z := 900.

Module SystemConfigCache.
Section Ops.
Context {Config : Type}.

Record CachedConfig := mkCached { config : Config; cached_at : Q }.

Definition entry_is_expired (now : Q) (ttl_seconds : Z) (e : CachedConfig)
  : bool :=
Qltb (inject_Z ttl_seconds) (now - cached_at e).

Record t := mk {
  _cache : gmap string CachedConfig;
  _ttl_seconds : Z
}.

Definition __init__ (ttl_seconds : Z) : t :=
{| _cache := ∅; _ttl_seconds := ttl_seconds |}.

Definition set_cache (m : gmap string CachedConfig) (c : t) : t :=
{| _cache := m; _ttl_seconds := _ttl_seconds c |}.

Definition get (now : Q) (session_id : string) (c : t) : t * option Config :=
match _cache c !! session_id with
| None => (c, None)
| Some entry =>
    if entry_is_expired now (_ttl_seconds c) entry then
      (set_cache (delete session_id (_cache c)) c, None)
    else (c, Some (config entry))
end.

Definition put (now : Q) (session_id : string) (cfg : Config) (c : t) : t :=
set_cache (<[session_id := mkCached cfg now]> (_cache c)) c.

Definition invalidate (session_id : string) (c : t) : t * bool :=
match _cache c !! session_id with
| Some _ => (set_cache (delete session_id (_cache c)) c, true)
| None => (c, false)
end.

(** [clear_expired]: the cache without its expired entries, and how many
  there were. *)
Definition clear_expired (now : Q) (c : t) : t * Z :=
let expired :=
  map fst
    (List.filter (fun p => entry_is_expired now (_ttl_seconds c) (snd p))
                 (map_to_list (_cache c))) in
(set_cache (fold_left (fun m sid => delete sid m) expired (_cache c)) c,
 Z.of_nat (length expired)).
End Ops.
Arguments t : clear implicits.
Arguments CachedConfig : clear implicits.

(** The module-level instance: [SystemConfigCache()]. *)
Definition SYSTEM_CONFIG_CACHE {Config : Type} : t Config :=
__init__ CONFIG_CACHE_TTL_SECONDS.
End SystemConfigCache.

(* ===================================================================== *)
(** * services/system_config.py: discovery *)
(* ===================================================================== *)

(** [s.replace(old, new)] for a text [old] that is not empty: the
  occurrences of [old] found from the left, without overlap, become
  [new].  [skip] counts the characters of an occurrence still to be
  passed over. *)
Fixpoint replace_from (skip : nat) (old new s : string) : string :=
match s with
| EmptyString => EmptyString
| String c s' =>
    match skip with
    | S n => replace_from n old new s'
    | O =>
        if String.prefix old s
        then String.append new (replace_from (String.length old - 1) old new s')
        else String c (replace_from 0 old new s')
    end
end.

Definition str_replace (old new s : string) : string := replace_from 0 old new s.

Module system_config.

Definition KNOWN_ENTITIES : list string :=
["PROCESS_ENTITY"; "TABLE_ENTITY"; "VIEW_ENTITY"; "COLUMN_ENTITY";
 "DATABASE_ENTITY"; "SCHEMA_ENTITY"; "SIGMADATAELEMENT_ENTITY";
 "ATLASGLOSSARY_ENTITY"; "ATLASGLOSSARYTERM_ENTITY"; "DBTMODEL_ENTITY";
 "DBTPROCESS_ENTITY"; "POWERBIDASHBOARD_ENTITY"; "TABLEAUDASHBOARD_ENTITY";
 "LOOKERQUERY_ENTITY"]%string.

(** A row of [information_schema.tables] as the queries select it. *)
Record Row := mkRow {
  table_catalog : string;
  table_schema : string;
  table_name : string
}.

(** The value stored for an entity: ["database"], ["schema"], ["table"]. *)
Record EntityLocation := mkLocation {
  loc_database : string;
  loc_schema : string;
  loc_table : string
}.

(** An item of the catalog: ["db"], ["schema"], ["name"]. *)
Record CatalogTable := mkCatalogTable {
  cat_db : string;
  cat_schema : string;
  cat_name : string
}.

Record Features := mkFeatures {
  lineage : bool;
  glossary : bool;
  queryHistory : bool;
  biUsage : bool;
  dbt : bool;
  governance : bool
}.

Record QueryDefaults := mkQueryDefaults {
  metadataDb : string;
  metadataSchema : string;
  defaultRowLimit : Z;
  defaultTimeoutSec : Z
}.

Record DiscoveryStatus := mkStatus {
  success : bool;
  entitiesFound : Z;
  tablesFound : Z;
  errors : list string
}.

(** The dictionary that [build_system_config] returns. *)
Record SystemConfig := mkConfig {
  entities : gmap string EntityLocation;
  queryDefaults : QueryDefaults;
  features : Features;
  catalog_tables : list CatalogTable;
  discoveryStatus : DiscoveryStatus
}.

(** What the connection does during one discovery: whether [conn.cursor()]
  raises (with the text of the exception), what the two queries return
  ([None] when [execute] or [fetchall] raises), and whether
  [cursor.close()] raises. *)
Record Connection := mkConnection {
  cursor_error : option string;
  entity_rows : option (list Row);
  catalog_rows : option (list Row);
  close_error : option string
}.

(** [key in d] *)
Definition has {V : Type} (key : string) (d : gmap string V) : bool :=
match d !! key with
| Some _ => true
| None => false
end.

(** One call of [build_system_config]: the reading of the timer, the
  connection and the session id. *)
Record build_call := mkBuild {
  build_time : Q;
  build_conn : Connection;
  build_session : string
}.

Section Discovery.
(** [str.upper] *)
Variable upper : string -> string.

(** [table_upper == known or table_upper == known.replace("_ENTITY", "")] *)
Definition matches_known (table_upper known : string) : bool :=
String.eqb table_upper known
|| String.eqb table_upper (str_replace "_ENTITY" "" known).

(** The body of the loop over the rows: the first known entity that the
  table matches is stored unless it is stored already. *)
Definition add_row (found : gmap string EntityLocation) (row : Row)
  : gmap string EntityLocation :=
match List.find (matches_known (upper (table_name row))) KNOWN_ENTITIES with
| Some known =>
    if has known found then found
    else <[known := mkLocation (table_catalog row) (table_schema row)
                               (table_name row)]> found
| None => found
end.

(** [_discover_entities]: an exception of the query is logged and leaves
  the result empty. *)
Definition _discover_entities (rows : option (list Row))
  : gmap string EntityLocation :=
match rows with
| Some rows => fold_left add_row rows ∅
| None => ∅
end.

Definition _determine_features (found : gmap string EntityLocation)
  : Features :=
{| lineage :=
     has "PROCESS_ENTITY" found
     && (has "TABLE_ENTITY" found || has "VIEW_ENTITY" found);
   glossary :=
     has "ATLASGLOSSARY_ENTITY" found || has "ATLASGLOSSARYTERM_ENTITY" found;
   queryHistory := false;
   biUsage :=
     has "POWERBIDASHBOARD_ENTITY" found
     || has "TABLEAUDASHBOARD_ENTITY" found
     || has "LOOKERQUERY_ENTITY" found;
   dbt := has "DBTMODEL_ENTITY" found || has "DBTPROCESS_ENTITY" found;
   governance := has "TABLE_ENTITY" found |}.

(** [_discover_catalog_tables]: an exception of the query is logged and
  leaves the list empty. *)
Definition _discover_catalog_tables (rows : option (list Row))
  : list CatalogTable :=
match rows with
| Some rows =>
    map (fun row => mkCatalogTable (table_catalog row) (table_schema row)
                                   (table_name row)) rows
| None => []
end.

(** The config that [build_system_config] starts from. *)
Definition initial_config : SystemConfig :=
{| entities := ∅;
   queryDefaults := mkQueryDefaults "FIELD_METADATA" "PUBLIC" 10000 60;
   features := mkFeatures false false false false false false;
   catalog_tables := [];
   discoveryStatus := mkStatus false 0 0 [] |}.

(** The part of [build_system_config] between the look-up in the cache and
  the store into it: the [try] block and its handler. *)
Definition discover (conn : Connection) : SystemConfig :=
match cursor_error conn with
| Some e =>
    {| entities := entities initial_config;
       queryDefaults := queryDefaults initial_config;
       features := features initial_config;
       catalog_tables := catalog_tables initial_config;
       discoveryStatus := mkStatus false 0 0 [e] |}
| None =>
    let found := _discover_entities (entity_rows conn) in
    let defaults :=
      match found !! "PROCESS_ENTITY"%string with
      | Some proc =>
          mkQueryDefaults (loc_database proc) (loc_schema proc) 10000 60
      | None => queryDefaults initial_config
      end in
    let tables := _discover_catalog_tables (catalog_rows conn) in
    {| entities := found;
       queryDefaults := defaults;
       features := _determine_features found;
       catalog_tables := tables;
       discoveryStatus :=
         mkStatus true (Z.of_nat (size found)) (Z.of_nat (length tables))
                  match close_error conn with
                  | Some e => [e]
                  | None => []
                  end |}
end.

(** [build_system_config]: the cache after the call and the config
  returned; [None] stands for the [ValueError] of the store into a cache
  without room for one item.  A config is a dictionary that is not empty,
  so [if cached:] holds for every config found in the cache. *)
Definition build_system_config (time : Q) (conn : Connection)
  (session_id : string) (c : TTLCache.t SystemConfig)
  : option (TTLCache.t SystemConfig * SystemConfig) :=
match TTLCache.get time session_id c with
| (c1, Some cached) => Some (c1, cached)
| (c1, None) =>
    let config := discover conn in
    match TTLCache.__setitem__ time session_id config c1 with
    | Some c2 => Some (c2, config)
    | None => None
    end
end.

Definition get_cached_config (time : Q) (session_id : string)
  (c : TTLCache.t SystemConfig)
  : TTLCache.t SystemConfig * option SystemConfig :=
TTLCache.get time session_id c.

Definition invalidate_config (time : Q) (session_id : string)
  (c : TTLCache.t SystemConfig) : TTLCache.t SystemConfig :=
if TTLCache.__contains__ time session_id c
then TTLCache.__delitem__ session_id c
else c.

Definition refresh_config (time : Q) (conn : Connection)
  (session_id : string) (c : TTLCache.t SystemConfig)
  : option (TTLCache.t SystemConfig * SystemConfig) :=
build_system_config time conn session_id (invalidate_config time session_id c).

(** A series of [build_system_config] calls, first call first: the cache
  after the last of them. *)
Fixpoint builds (calls : list build_call) (c : TTLCache.t SystemConfig)
  : option (TTLCache.t SystemConfig) :=
match calls with
| [] => Some c
| b :: calls' =>
    match build_system_config (build_time b) (build_conn b) (build_session b)
                              c with
    | Some (c1, _) => builds calls' c1
    | None => None
    end
end.
End Discovery.
End system_config.

(* ===================================================================== *)
(** * Lemmas on the building blocks *)
(* ===================================================================== *)

(** A loop whose body lowers a measure whenever its condition holds ends
  within [measure + 1] rounds, in a state that fails the condition and
  keeps every invariant of the body. *)
Lemma while_ends {S : Type} (measure : S -> nat) (P : S -> Prop)
  (cond : S -> bool) (body : S -> S) :
  (forall s, P s -> cond s = true ->
             P (body s) /\ (measure (body s) < measure s)%nat) ->
  forall fuel s, P s -> (measure s < fuel)%nat ->
  exists s', while fuel cond body s = Some s' /\ cond s' = false /\ P s'.
Proof.
  intros Hstep fuel. induction fuel as [|fuel IH]; intros s HP Hm.
  - lia.
  - simpl. destruct (cond s) eqn:Hc.
    + destruct (Hstep s HP Hc) as [HP' Hlt]. apply IH; [exact HP'|lia].
    + exists s. auto.
Qed.

(** A loop whose condition does not hold does nothing. *)
Lemma while_skip {S : Type} (cond : S -> bool) (body : S -> S) fuel s :
  cond s = false -> while (Datatypes.S fuel) cond body s = Some s.
Proof. intros H. simpl. now rewrite H. Qed.

(** More fuel does not change the result of a loop that ended. *)
Lemma while_more_fuel {S : Type} (cond : S -> bool) (body : S -> S) :
  forall fuel fuel' s s', (fuel <= fuel')%nat ->
  while fuel cond body s = Some s' -> while fuel' cond body s = Some s'.
Proof.
  induction fuel as [|fuel IH]; intros fuel' s s' Hle H; simpl in H.
  - discriminate.
  - destruct fuel' as [|fuel']; [lia|]. simpl.
    destruct (cond s); auto. apply (IH fuel'); [lia|exact H].
Qed.

Section OrderedDictFacts.
Context {V : Type}.
Implicit Types (d : list (string * V)) (k : string) (v : V).

Lemma od_get_None d k :
  OrderedDict.get k d = None <-> k ∉ OrderedDict.keys d.
Proof.
  induction d as [|[k' v'] d IH]; simpl.
  - split; [intros _; apply not_elem_of_nil|auto].
  - destruct (String.eqb_spec k k') as [->|Hne].
    + split; [discriminate|]. intros H. exfalso. apply H. left.
    + rewrite IH. rewrite not_elem_of_cons. tauto.
Qed.

Lemma od_remove_absent d k :
  OrderedDict.get k d = None -> OrderedDict.remove k d = d.
Proof.
  induction d as [|[k' v'] d IH]; simpl; auto.
  destruct (String.eqb_spec k k'); [discriminate|].
  intros H. now rewrite IH.
Qed.

Lemma od_remove_sublist d k : sublist (OrderedDict.remove k d) d.
Proof.
  induction d as [|[k' v'] d IH]; simpl.
  - constructor.
  - destruct (String.eqb k k').
    + now apply sublist_cons.
    + now apply sublist_skip.
Qed.

Lemma od_keys_sublist d d' :
  sublist d d' -> sublist (OrderedDict.keys d) (OrderedDict.keys d').
Proof. intros H. unfold OrderedDict.keys. now apply (fmap_sublist fst). Qed.

Lemma od_remove_length d k v :
  OrderedDict.get k d = Some v ->
  Datatypes.S (length (OrderedDict.remove k d)) = length d.
Proof.
  revert v. induction d as [|[k' v'] d IH]; simpl; intros v; [discriminate|].
  destruct (String.eqb_spec k k'); auto.
  intros H. simpl. f_equal. eauto.
Qed.

Lemma od_get_remove_same d k :
  OrderedDict.wf d -> OrderedDict.get k (OrderedDict.remove k d) = None.
Proof.
  unfold OrderedDict.wf.
  induction d as [|[k' v'] d IH]; simpl; auto.
  intros Hnd. apply NoDup_cons in Hnd as [Hnotin Hnd].
  destruct (String.eqb_spec k k') as [->|Hne].
  - now apply od_get_None.
  - simpl. destruct (String.eqb_spec k k'); [contradiction|]. auto.
Qed.

Lemma od_get_remove_other d k k' :
  k <> k' -> OrderedDict.get k' (OrderedDict.remove k d) = OrderedDict.get k' d.
Proof.
  intros Hne. induction d as [|[k0 v0] d IH]; simpl; auto.
  destruct (String.eqb_spec k k0) as [->|Hne0].
  - destruct (String.eqb_spec k' k0); [congruence|reflexivity].
  - simpl. destruct (String.eqb_spec k' k0); auto.
Qed.

Lemma od_get_app d d' k :
  OrderedDict.get k (d ++ d') =
  match OrderedDict.get k d with
  | Some v => Some v
  | None => OrderedDict.get k d'
  end.
Proof.
  induction d as [|[k0 v0] d IH]; simpl; auto.
  destruct (String.eqb k k0); auto.
Qed.

Lemma od_get_setitem d k v : OrderedDict.get k (OrderedDict.setitem k v d) = Some v.
Proof.
  induction d as [|[k0 v0] d IH]; simpl.
  - now rewrite String.eqb_refl.
  - destruct (String.eqb_spec k k0) as [->|Hne]; simpl.
    + now rewrite String.eqb_refl.
    + destruct (String.eqb_spec k k0); [contradiction|]. exact IH.
Qed.

Lemma od_remove_setitem d k v :
  OrderedDict.remove k (OrderedDict.setitem k v d) = OrderedDict.remove k d.
Proof.
  induction d as [|[k0 v0] d IH]; simpl.
  - now rewrite String.eqb_refl.
  - destruct (String.eqb_spec k k0) as [->|Hne]; simpl.
    + now rewrite String.eqb_refl.
    + destruct (String.eqb_spec k k0); [contradiction|]. now rewrite IH.
Qed.

(** Storing under a key and moving it to the end: the other items keep
  their order and the key comes last with the new value. *)
Lemma od_store_last d k v :
  OrderedDict.move_to_end k (OrderedDict.setitem k v d)
  = OrderedDict.remove k d ++ [(k, v)].
Proof.
  unfold OrderedDict.move_to_end.
  now rewrite od_get_setitem, od_remove_setitem.
Qed.

Lemma od_keys_app d d' :
  OrderedDict.keys (d ++ d') = OrderedDict.keys d ++ OrderedDict.keys d'.
Proof. unfold OrderedDict.keys. apply map_app. Qed.

Lemma od_wf_remove d k : OrderedDict.wf d -> OrderedDict.wf (OrderedDict.remove k d).
Proof.
  unfold OrderedDict.wf. intros H.
  eapply sublist_NoDup; [exact H|]. apply od_keys_sublist, od_remove_sublist.
Qed.

Lemma od_wf_store_last d k v :
  OrderedDict.wf d -> OrderedDict.wf (OrderedDict.remove k d ++ [(k, v)]).
Proof.
  intros Hwf. unfold OrderedDict.wf. rewrite od_keys_app. simpl.
  apply NoDup_app. split; [now apply od_wf_remove|]. split.
  - intros x Hx Hx'. apply list_elem_of_singleton in Hx'. subst x.
    apply (od_get_None (OrderedDict.remove k d) k); [|exact Hx].
    now apply od_get_remove_same.
  - apply NoDup_singleton.
Qed.
End OrderedDictFacts.

(* ===================================================================== *)
(** * QueryResultStore: evictions only shrink the store *)
(* ===================================================================== *)

Section StoreFacts.
Import QueryResultStore.
Implicit Types (s : QueryResultStore.t) (rs : list (string * QueryResult.t)).

(** The bytes of a list of entries. *)
Lemma stored_bytes_app s rs rs' :
  stored_bytes (set_results (rs ++ rs') 0 s)
  = stored_bytes (set_results rs 0 s) + stored_bytes (set_results rs' 0 s).
Proof.
  unfold stored_bytes. simpl. induction rs as [|kr rs IH]; simpl; lia.
Qed.

Lemma stored_bytes_set rs total s :
  stored_bytes (set_results rs total s) = stored_bytes (set_results rs 0 s).
Proof. reflexivity. Qed.

Lemma stored_bytes_remove rs k r total s :
  OrderedDict.get k rs = Some r ->
  stored_bytes (set_results (OrderedDict.remove k rs) total s)
  = stored_bytes (set_results rs total s) - QueryResult.size_bytes r.
Proof.
  unfold stored_bytes. simpl. revert r.
  induction rs as [|[k' r'] rs IH]; simpl; intros r; [discriminate|].
  destruct (String.eqb_spec k k') as [->|Hne].
  - intros [= ->]. lia.
  - intros H. simpl. rewrite (IH r H). lia.
Qed.

Lemma shrinks_refl s : shrinks s s.
Proof. repeat split; reflexivity. Qed.

Lemma shrinks_trans s1 s2 s3 : shrinks s1 s2 -> shrinks s2 s3 -> shrinks s1 s3.
Proof.
  intros (P1 & S1 & B1) (P2 & S2 & B2). unfold same_params in *.
  repeat split; try (etrans; [apply S2|apply S1]); lia.
Qed.

Lemma remove_shrinks k s : shrinks s (_remove k s).
Proof.
  unfold _remove, OrderedDict.pop.
  destruct (OrderedDict.get k (_results s)) as [r|] eqn:Hg.
  - repeat split; simpl.
    + apply od_remove_sublist.
    + rewrite (stored_bytes_remove _ k r _ s Hg).
      unfold stored_bytes. simpl. lia.
  - apply shrinks_refl.
Qed.

Lemma evict_oldest_shrinks s : shrinks s (_evict_oldest s).
Proof.
  unfold _evict_oldest. destruct (OrderedDict.first_key (_results s)).
  - apply remove_shrinks.
  - apply shrinks_refl.
Qed.

Lemma evict_oldest_cons s k r rest :
  _results s = (k, r) :: rest ->
  _evict_oldest s
  = set_results rest (_total_size_bytes s - QueryResult.size_bytes r) s.
Proof.
  intros H. unfold _evict_oldest, _remove, OrderedDict.pop. rewrite H. simpl.
  now rewrite String.eqb_refl.
Qed.

Lemma evict_oldest_length s :
  _results s <> [] ->
  Datatypes.S (length (_results (_evict_oldest s))) = length (_results s).
Proof.
  destruct (_results s) as [|[k r] rest] eqn:H; [congruence|]. intros _.
  now rewrite (evict_oldest_cons s k r rest H).
Qed.

Lemma fold_remove_shrinks (l : list string) s :
  shrinks s (fold_left (fun acc qid => _remove qid acc) l s).
Proof.
  revert s. induction l as [|k l IH]; intros s; simpl.
  - apply shrinks_refl.
  - eapply shrinks_trans; [apply remove_shrinks|apply IH].
Qed.

Lemma evict_expired_shrinks now s : shrinks s (_evict_expired now s).
Proof. apply fold_remove_shrinks. Qed.

(** With nothing expired, [_evict_expired] leaves the store as it is. *)
Lemma evict_expired_none now s :
  Forall (fun kr => QueryResult.is_expired now (_ttl_minutes s) (snd kr) = false)
         (_results s) ->
  _evict_expired now s = s.
Proof.
  intros H. unfold _evict_expired.
  replace (List.filter _ (_results s)) with (@nil (string * QueryResult.t));
    [reflexivity|].
  induction H as [|kr rs Hkr _ IH]; simpl; auto. now rewrite Hkr.
Qed.

Lemma shrinks_length s s' :
  shrinks s s' -> (length (_results s') <= length (_results s))%nat.
Proof. intros (_ & S & _). now apply sublist_length. Qed.

Lemma shrinks_consistent s s' : shrinks s s' -> consistent s -> consistent s'.
Proof. intros (_ & _ & B). unfold consistent. lia. Qed.

Lemma shrinks_keys s s' k :
  shrinks s s' ->
  k ∈ OrderedDict.keys (_results s') -> k ∈ OrderedDict.keys (_results s).
Proof.
  intros (_ & S & _) Hk. eapply elem_of_sublist; [exact Hk|].
  now apply od_keys_sublist.
Qed.

Lemma shrinks_wf s s' :
  shrinks s s' -> OrderedDict.wf (_results s) -> OrderedDict.wf (_results s').
Proof.
  intros (_ & S & _) H. eapply sublist_NoDup; [exact H|].
  now apply od_keys_sublist.
Qed.

Lemma shrinks_Forall (P : string * QueryResult.t -> Prop) s s' :
  shrinks s s' -> Forall P (_results s) -> Forall P (_results s').
Proof.
  intros (_ & S & _) H. rewrite Forall_forall in *. intros x Hx.
  apply H. eapply elem_of_sublist; eauto.
Qed.

(** The capacity loop of [put] ends when [_max_results] is at least 1. *)
Lemma capacity_loop_ends s fuel :
  1 <= _max_results s -> (length (_results s) < fuel)%nat ->
  exists s', while fuel at_capacity _evict_oldest s = Some s' /\
             at_capacity s' = false /\ shrinks s s'.
Proof.
  intros Hmax Hfuel.
  apply (while_ends (fun x => length (_results x)) (shrinks s));
    [|apply shrinks_refl|exact Hfuel].
  intros x Hx Hc. split.
  - eapply shrinks_trans; [exact Hx|apply evict_oldest_shrinks].
  - destruct Hx as ((Hm & _) & _). unfold at_capacity, __len__ in Hc.
    apply Z.geb_le in Hc.
    assert (_results x <> []) as Hne.
    { intros E. rewrite E in Hc. simpl in Hc. lia. }
    pose proof (evict_oldest_length x Hne). lia.
Qed.

(** The budget loop of [put] always ends. *)
Lemma budget_loop_ends size s fuel :
  (length (_results s) < fuel)%nat ->
  exists s', while fuel (over_budget size) _evict_oldest s = Some s' /\
             over_budget size s' = false /\ shrinks s s'.
Proof.
  intros Hfuel.
  apply (while_ends (fun x => length (_results x)) (shrinks s));
    [|apply shrinks_refl|exact Hfuel].
  intros x Hx Hc. split.
  - eapply shrinks_trans; [exact Hx|apply evict_oldest_shrinks].
  - unfold over_budget in Hc. apply andb_prop in Hc as [_ Hc].
    assert (_results x <> []) as Hne.
    { intros E. rewrite E in Hc. discriminate. }
    pose proof (evict_oldest_length x Hne). lia.
Qed.

(** What [put] does, step by step, when [_max_results] is at least 1. *)
Lemma put_unfold now k d s :
  1 <= _max_results s ->
  exists s3,
    shrinks s s3 /\
    at_capacity s3 = false /\
    over_budget (QueryResult._estimate_size d) s3 = false /\
    put now k d s
    = Some (set_results
              (OrderedDict.remove k (_results s3)
               ++ [(k, QueryResult.__init__ now d)])
              (_total_size_bytes s3 + QueryResult._estimate_size d) s3).
Proof.
  intros Hmax.
  pose proof (evict_expired_shrinks now s) as H1.
  set (s1 := _evict_expired now s) in *.
  assert (length (_results s1) < Datatypes.S (length (_results s)))%nat as Hf1.
  { pose proof (shrinks_length _ _ H1). lia. }
  assert (1 <= _max_results s1) as Hmax1.
  { destruct H1 as ((E & _) & _). lia. }
  destruct (capacity_loop_ends s1 _ Hmax1 Hf1) as (s2 & W2 & C2 & H2).
  assert (length (_results s2) < Datatypes.S (length (_results s)))%nat as Hf2.
  { pose proof (shrinks_length _ _ H2). lia. }
  destruct (budget_loop_ends (QueryResult._estimate_size d) s2 _ Hf2)
    as (s3 & W3 & C3 & H3).
  exists s3. split; [|split; [|split]].
  - eapply shrinks_trans; [exact H1|]. eapply shrinks_trans; eauto.
  - unfold at_capacity, __len__ in *.
    pose proof (shrinks_length _ _ H3). destruct H3 as ((E & _) & _).
    rewrite Z.geb_leb, Z.leb_gt in *. lia.
  - exact C3.
  - unfold put, put_fuel. fold s1. rewrite W2.
    change (QueryResult.size_bytes (QueryResult.__init__ now d))
      with (QueryResult._estimate_size d).
    rewrite W3. now rewrite od_store_last.
Qed.
End StoreFacts.

(* ===================================================================== *)
(** * QueryResultStore: what one [put] and a series of [put]s keep *)
(* ===================================================================== *)

Section PutFacts.
Import QueryResultStore.
Implicit Types (s : QueryResultStore.t) (cs : list QueryResultStore.call).

(** [put] returns, and the store it leaves holds at most [_max_results]
  entries, whatever the store was. *)
Lemma put_count now k d s :
  1 <= _max_results s ->
  exists s', put now k d s = Some s' /\ same_params s s' /\
             __len__ s' <= _max_results s.
Proof.
  intros Hmax. destruct (put_unfold now k d s Hmax) as (s3 & H3 & C3 & _ & E).
  eexists. split; [exact E|]. destruct H3 as ((P1 & P2 & P3) & _ & _).
  split; [repeat split; simpl; assumption|].
  unfold at_capacity, __len__ in *. simpl.
  rewrite Z.geb_leb, Z.leb_gt in C3.
  rewrite length_app. simpl.
  pose proof (sublist_length _ _ (od_remove_sublist (_results s3) k)). lia.
Qed.

(** The entries after a [put]: some of the old ones, in their order, and
  the new one last. *)
Lemma put_entries now k d s :
  1 <= _max_results s ->
  exists s' rs,
    put now k d s = Some s' /\ sublist rs (_results s) /\
    _results s' = rs ++ [(k, QueryResult.__init__ now d)].
Proof.
  intros Hmax. destruct (put_unfold now k d s Hmax) as (s3 & H3 & _ & _ & E).
  eexists. exists (OrderedDict.remove k (_results s3)).
  split; [exact E|]. split; [|reflexivity].
  etrans; [apply od_remove_sublist|]. now destruct H3 as (_ & S & _).
Qed.

(** A [put] under a key that is not stored keeps the tracked total equal
  to the bytes stored, and the byte budget in the sense of
  [within_budget]. *)
Lemma put_fresh now k d s :
  1 <= _max_results s -> consistent s ->
  k ∉ OrderedDict.keys (_results s) ->
  exists s', put now k d s = Some s' /\ same_params s s' /\
             consistent s' /\
             (forall k', k' ∈ OrderedDict.keys (_results s') ->
                         k' = k \/ k' ∈ OrderedDict.keys (_results s)) /\
             within_budget s'.
Proof.
  intros Hmax Hc Hk.
  destruct (put_unfold now k d s Hmax) as (s3 & H3 & C3 & B3 & E).
  assert (OrderedDict.get k (_results s3) = None) as Hk3.
  { apply od_get_None. intros H. apply Hk. eapply shrinks_keys; eauto. }
  rewrite (od_remove_absent _ _ Hk3) in E.
  eexists. split; [exact E|].
  pose proof (shrinks_consistent _ _ H3 Hc) as Hc3.
  assert (stored_bytes
            (set_results (_results s3 ++ [(k, QueryResult.__init__ now d)])
               (_total_size_bytes s3 + QueryResult._estimate_size d) s3)
          = stored_bytes s3 + QueryResult._estimate_size d) as Hsum.
  { rewrite stored_bytes_set, stored_bytes_app.
    unfold stored_bytes. simpl. unfold QueryResult.size_bytes. simpl. lia. }
  pose proof H3 as ((P1 & P2 & P3) & _ & _).
  split; [repeat split; simpl; assumption|].
  split; [unfold consistent in *; rewrite Hsum; simpl; lia|].
  split.
  { simpl. intros k'. rewrite od_keys_app. simpl.
    rewrite elem_of_app, list_elem_of_singleton. intros [H|H]; [right|now left].
    eapply shrinks_keys; [exact H3|exact H]. }
  unfold within_budget. simpl.
  unfold over_budget in B3. apply andb_false_iff in B3 as [B3|B3].
  - left. rewrite Z.gtb_ltb, Z.ltb_ge in B3. exact B3.
  - apply negb_false_iff, Nat.eqb_eq in B3.
    destruct (_results s3) as [|x l] eqn:Hrs; [|discriminate].
    assert (_total_size_bytes s3 = 0) as Ht.
    { unfold consistent, stored_bytes in Hc3. rewrite Hrs in Hc3. exact Hc3. }
    rewrite Ht.
    destruct (Z_le_gt_dec (QueryResult._estimate_size d) (_max_size_bytes s3)).
    + left. lia.
    + right. exists k, (QueryResult.__init__ now d). simpl.
      unfold QueryResult.size_bytes. simpl. repeat split; lia.
Qed.

(** A series of [put]s returns and leaves at most [_max_results] entries. *)
Lemma puts_count cs : forall s,
  1 <= _max_results s -> __len__ s <= _max_results s ->
  exists s', puts cs s = Some s' /\ same_params s s' /\
             __len__ s' <= _max_results s.
Proof.
  induction cs as [|c cs IH]; intros s Hmax Hlen; simpl.
  - exists s. repeat split; auto.
  - destruct (put_count (call_now c) (call_id c) (call_data c) s Hmax)
      as (s1 & E & (P1 & P2 & P3) & L).
    rewrite E. destruct (IH s1) as (s' & E' & (Q1 & Q2 & Q3) & L'); try lia.
    exists s'. split; [exact E'|]. unfold same_params.
    repeat split; congruence || lia.
Qed.

(** A series of [put]s under pairwise different keys, none of them stored
  at the start, keeps consistency and the byte budget. *)
Lemma puts_fresh cs : forall s s',
  1 <= _max_results s -> consistent s -> within_budget s ->
  NoDup (map call_id cs) ->
  (forall c, c ∈ cs -> call_id c ∉ OrderedDict.keys (_results s)) ->
  puts cs s = Some s' ->
  consistent s' /\ within_budget s'.
Proof.
  induction cs as [|c cs IH]; intros s s' Hmax Hc Hb Hnd Hfresh; simpl.
  - intros [= <-]. auto.
  - apply NoDup_cons in Hnd as [Hc_notin Hnd].
    destruct (put_fresh (call_now c) (call_id c) (call_data c) s Hmax Hc)
      as (s1 & E & (P1 & P2 & P3) & Hc1 & Hk1 & Hb1).
    { apply Hfresh. left. }
    rewrite E. apply IH; auto; [lia|].
    intros c' Hc' Hin. destruct (Hk1 _ Hin) as [Heq|Hold].
    + apply Hc_notin. rewrite <- Heq. apply list_elem_of_fmap. now exists c'.
    + apply (Hfresh c'); [now right|exact Hold].
Qed.

(** Every entry stored after a series of [put]s was stored at the start or
  was built by one of the calls. *)
Lemma puts_Forall (P : string * QueryResult.t -> Prop) cs : forall s s',
  1 <= _max_results s -> Forall P (_results s) ->
  (forall c, c ∈ cs ->
     P (call_id c, QueryResult.__init__ (call_now c) (call_data c))) ->
  puts cs s = Some s' -> Forall P (_results s').
Proof.
  induction cs as [|c cs IH]; intros s s' Hmax HP Hcs; simpl.
  - now intros [= <-].
  - destruct (put_entries (call_now c) (call_id c) (call_data c) s Hmax)
      as (s1 & rs & E & Hsub & Hrs).
    destruct (put_count (call_now c) (call_id c) (call_data c) s Hmax)
      as (s1' & E' & (P1 & _) & _).
    rewrite E in E'. injection E' as <-. rewrite E.
    apply IH; [lia| |].
    + rewrite Hrs. apply Forall_app. split.
      * rewrite Forall_forall in *. intros x Hx. apply HP.
        eapply elem_of_sublist; eauto.
      * constructor; [|constructor]. apply Hcs. left.
    + intros c' Hc'. apply Hcs. now right.
Qed.

(** With [_max_results <= 0] the capacity loop of [put] never ends: no
  amount of fuel gives a result. *)
Lemma put_diverges fuel now k d s :
  _max_results s <= 0 -> put_fuel fuel now k d s = None.
Proof.
  intros Hmax. unfold put_fuel.
  set (s1 := _evict_expired now s).
  assert (forall n x, shrinks s x ->
            while n at_capacity _evict_oldest x = None) as Hloop.
  { induction n as [|n IHn]; intros x Hx; simpl; auto.
    assert (at_capacity x = true) as ->.
    { unfold at_capacity, __len__. destruct Hx as ((E & _) & _).
      apply Z.geb_le. lia. }
    apply IHn. eapply shrinks_trans; [exact Hx|apply evict_oldest_shrinks]. }
  now rewrite (Hloop fuel s1 (evict_expired_shrinks now s)).
Qed.

(** With [_max_results >= 1] the fuel [put] takes is enough: more fuel
  gives the same store. *)
Lemma put_fuel_enough fuel now k d s :
  1 <= _max_results s -> (length (_results s) < fuel)%nat ->
  put_fuel fuel now k d s = put now k d s.
Proof.
  intros Hmax Hfuel.
  destruct (put_unfold now k d s Hmax) as (s3 & _ & _ & _ & E).
  assert (Datatypes.S (length (_results s)) <= fuel)%nat as Hle by lia.
  rewrite E. unfold put, put_fuel in *.
  destruct (while (Datatypes.S (length (_results s))) at_capacity
              _evict_oldest (_evict_expired now s)) as [s2|] eqn:W2;
    [|discriminate].
  rewrite (while_more_fuel _ _ _ _ _ _ Hle W2).
  destruct (while (Datatypes.S (length (_results s))) _ _ s2) as [s3'|] eqn:W3;
    [|discriminate].
  rewrite (while_more_fuel _ _ _ _ _ _ Hle W3). exact E.
Qed.
End PutFacts.

(* ===================================================================== *)
(** * QueryResultStore: the claims on capacity, expiry and accounting *)
(* ===================================================================== *)

Section StoreClaims.
Import QueryResultStore.

Lemma stored_bytes_nonneg s : sizes_ok s -> 0 <= stored_bytes s.
Proof.
  unfold sizes_ok, stored_bytes. generalize (_results s). intros rs H.
  induction H as [|kr rs' Hkr _ IH]; simpl; lia.
Qed.

(** X5: An oversize [put] on a consistent store with sizes that [getsizeof]
  can report evicts every other entry: the new result is the only entry and
  the total is its size. *)
Lemma put_oversize_sole_occupant now k d s :
  1 <= _max_results s -> consistent s -> sizes_ok s ->
  _max_size_bytes s < QueryResult._estimate_size d ->
  put now k d s
  = Some (set_results [(k, QueryResult.__init__ now d)]
                      (QueryResult._estimate_size d) s).
Proof.
  intros Hmax Hc Hs Hbig.
  destruct (put_unfold now k d s Hmax) as (s3 & H3 & _ & B3 & E).
  rewrite E. pose proof (shrinks_consistent _ _ H3 Hc) as Hc3.
  pose proof (shrinks_Forall _ _ _ H3 Hs) as Hs3.
  destruct H3 as ((P1 & P2 & P3) & _ & _).
  assert (0 <= stored_bytes s3) as Hnn.
  { now apply stored_bytes_nonneg. }
  unfold over_budget in B3. apply andb_false_iff in B3 as [B3|B3].
  - rewrite Z.gtb_ltb, Z.ltb_ge in B3. unfold consistent in Hc3. lia.
  - apply negb_false_iff, Nat.eqb_eq in B3.
    destruct (_results s3) as [|x l] eqn:Hrs; [|discriminate].
    assert (_total_size_bytes s3 = 0) as Ht.
    { unfold consistent, stored_bytes in Hc3. rewrite Hrs in Hc3. exact Hc3. }
    unfold set_results. simpl. rewrite Ht, P1, P2, P3. reflexivity.
Qed.

(** C1, as the code has it: from an empty store with [max_results >= 1] and
  a byte budget [max_size_bytes >= 0], every series of [put]s returns and
  leaves at most [max_results] entries.  When the calls use pairwise
  different query ids, the tracked total equals the bytes stored and is at
  most [max_size_bytes], unless the store holds a single entry that is
  larger than the budget on its own (then the total is the size of that
  entry); in particular the total is within the budget when no result of
  the series is larger than the budget. *)
Theorem put_capacity_invariant
  (max_results ttl_minutes max_size_bytes : Z) (cs : list call) :
  1 <= max_results -> 0 <= max_size_bytes ->
  exists s',
    puts cs (__init__ max_results ttl_minutes max_size_bytes) = Some s' /\
    __len__ s' <= max_results /\
    (NoDup (map call_id cs) ->
       consistent s' /\ within_budget s' /\
       (Forall (fun c => QueryResult._estimate_size (call_data c)
                         <= max_size_bytes) cs ->
        _total_size_bytes s' <= max_size_bytes)).
Proof.
  intros Hmax Hb.
  set (s0 := __init__ max_results ttl_minutes max_size_bytes).
  destruct (puts_count cs s0) as (s' & E & (P1 & P2 & P3) & L);
    [exact Hmax|unfold __len__; simpl; lia|].
  exists s'. split; [exact E|]. split; [exact L|]. intros Hnd.
  destruct (puts_fresh cs s0 s') as (Hc & Hw); auto.
  { reflexivity. }
  { left. simpl. exact Hb. }
  { intros c _. simpl. apply not_elem_of_nil. }
  split; [exact Hc|]. split; [exact Hw|]. intros Hsz.
  destruct Hw as [Hw|(k & r & Hrs & Hbig & _)]; [simpl in P3; lia|].
  exfalso.
  assert (Forall (fun kr => QueryResult.size_bytes (snd kr) <= max_size_bytes)
                 (_results s')) as HF.
  { apply (puts_Forall _ cs s0 s'); [exact Hmax|constructor| |exact E].
    intros c Hin. rewrite Forall_forall in Hsz. apply (Hsz c Hin). }
  rewrite Hrs in HF. inversion HF as [|? ? Hr _]; subst. simpl in *. lia.
Qed.

(** A witness of C1: three results of 40 bytes under different ids in a
  store for two results and 100 bytes. *)
Lemma put_capacity_invariant_witness :
  1 <= 2 /\ 0 <= 100 /\
  exists s',
    puts [mkCall 0 "q1" (mkData "a" 40); mkCall 1 "q2" (mkData "b" 40);
          mkCall 2 "q3" (mkData "c" 40)] (__init__ 2 5 100) = Some s' /\
    __len__ s' <= 2 /\ consistent s' /\ _total_size_bytes s' <= 100.
Proof.
  split; [lia|]. split; [lia|].
  destruct (put_capacity_invariant 2 5 100
              [mkCall 0 "q1" (mkData "a" 40); mkCall 1 "q2" (mkData "b" 40);
               mkCall 2 "q3" (mkData "c" 40)])
    as (s' & E & L & H); [lia|lia|].
  exists s'. split; [exact E|]. split; [exact L|].
  destruct H as (Hc & _ & Hb).
  - apply (bool_decide_unpack _). vm_compute. exact I.
  - split; [exact Hc|]. apply Hb.
    repeat constructor; vm_compute; discriminate.
Defined.

(** C1 as stated fails: a single result of 200 bytes put into a store with
  a budget of 100 bytes is stored, and the tracked total is 200. *)
Lemma put_oversize_exceeds_budget :
  exists s',
    puts [mkCall 0 "q1" (mkData "rows" 200)] (__init__ 50 5 100) = Some s' /\
    _results s' = [("q1"%string, QueryResult.__init__ 0 (mkData "rows" 200))] /\
    ~ (__len__ s' <= _max_results s' /\
       _total_size_bytes s' <= _max_size_bytes s').
Proof.
  eexists. split; [vm_compute; reflexivity|]. split; [reflexivity|].
  vm_compute. intros [_ H]. apply H. reflexivity.
Qed.

(** [get] keeps the tracked total equal to the bytes stored, and the keys
  pairwise different. *)
Lemma get_consistent now k s :
  consistent s -> consistent (fst (get now k s)).
Proof.
  intros Hc. unfold get.
  destruct (OrderedDict.get k (_results s)) as [r|] eqn:Hg; [|exact Hc].
  destruct (QueryResult.is_expired now (_ttl_minutes s) r).
  - simpl. eapply shrinks_consistent; [apply remove_shrinks|exact Hc].
  - simpl. rewrite od_store_last. unfold consistent in *.
    rewrite stored_bytes_set, stored_bytes_app.
    rewrite (stored_bytes_remove _ k r 0 s Hg). simpl.
    unfold stored_bytes at 2. simpl.
    change (stored_bytes (set_results (_results s) 0 s)) with (stored_bytes s).
    unfold QueryResult.size_bytes, QueryResult.touch. simpl.
    unfold QueryResult.size_bytes. lia.
Qed.

Lemma get_wf now k s :
  OrderedDict.wf (_results s) -> OrderedDict.wf (_results (fst (get now k s))).
Proof.
  intros Hwf. unfold get.
  destruct (OrderedDict.get k (_results s)) as [r|] eqn:Hg; [|exact Hwf].
  destruct (QueryResult.is_expired now (_ttl_minutes s) r).
  - simpl. eapply shrinks_wf; [apply remove_shrinks|exact Hwf].
  - simpl. rewrite od_store_last. now apply od_wf_store_last.
Qed.

Lemma put_wf now k d s s' :
  1 <= _max_results s -> OrderedDict.wf (_results s) ->
  put now k d s = Some s' -> OrderedDict.wf (_results s').
Proof.
  intros Hmax Hwf E.
  destruct (put_unfold now k d s Hmax) as (s3 & H3 & _ & _ & E').
  rewrite E in E'. injection E' as ->. simpl.
  apply od_wf_store_last. eapply shrinks_wf; eauto.
Qed.

(** The accounting is right on every path but one: [get], [clear] and a
  [put] under a key that is not stored keep the tracked total equal to the
  bytes stored. *)
Lemma step_consistent o s s' :
  1 <= _max_results s -> consistent s ->
  match o with
  | Put _ query_id _ => query_id ∉ OrderedDict.keys (_results s)
  | _ => True
  end ->
  step o s = Some s' -> consistent s'.
Proof.
  intros Hmax Hc Hfresh. destruct o as [now k d|now k|]; simpl.
  - intros E. destruct (put_fresh now k d s Hmax Hc Hfresh)
      as (s1 & E1 & _ & Hc1 & _).
    congruence.
  - intros [= <-]. now apply get_consistent.
  - intros [= <-]. reflexivity.
Qed.

(** Every operation keeps the limits of the store and the keys pairwise
  different: the stores that the program builds from an empty one are
  well formed. *)
Lemma run_wf os : forall s s',
  1 <= _max_results s -> OrderedDict.wf (_results s) ->
  run os s = Some s' ->
  same_params s s' /\ OrderedDict.wf (_results s').
Proof.
  induction os as [|o os IH]; intros s s' Hmax Hwf; simpl.
  - intros [= <-]. repeat split; auto.
  - destruct (step o s) as [s1|] eqn:E; [|discriminate].
    assert (same_params s s1 /\ OrderedDict.wf (_results s1)) as [(P1 & P2 & P3) Hwf1].
    { destruct o as [now k d|now k|]; simpl in E.
      - split; [|eapply put_wf; eauto].
        destruct (put_count now k d s Hmax) as (s1' & E' & Hp & _).
        congruence.
      - injection E as <-. split; [|now apply get_wf].
        unfold get. destruct (OrderedDict.get k (_results s)) as [r|];
          [|repeat split].
        destruct (QueryResult.is_expired now (_ttl_minutes s) r);
          [|repeat split].
        simpl. apply remove_shrinks.
      - injection E as <-. split; [repeat split|constructor]. }
    intros H. destruct (IH s1 s' ltac:(lia) Hwf1 H) as ((Q1 & Q2 & Q3) & Hwf').
    split; [|exact Hwf']. unfold same_params. repeat split; congruence.
Qed.

(** C2: [get] returns a value only for an entry whose age at the time of
  the call is at most the TTL of the store; an entry that is present and
  older is removed by the call, which returns [None]; a present entry
  within the TTL is returned; an absent key gives [None] and leaves the
  store as it is.  This holds for every store, whether or not any other
  expiry pass has run on it. *)
Theorem get_respects_ttl now query_id s :
  OrderedDict.wf (_results s) ->
  (forall s' d, get now query_id s = (s', Some d) ->
     exists r, OrderedDict.get query_id (_results s) = Some r /\
               QueryResult.data r = d /\
               now - QueryResult.created_at r
               <= timedelta_minutes (_ttl_minutes s)) /\
  (forall r, OrderedDict.get query_id (_results s) = Some r ->
     now - QueryResult.created_at r > timedelta_minutes (_ttl_minutes s) ->
     get now query_id s = (_remove query_id s, None) /\
     OrderedDict.get query_id (_results (_remove query_id s)) = None) /\
  (forall r, OrderedDict.get query_id (_results s) = Some r ->
     now - QueryResult.created_at r <= timedelta_minutes (_ttl_minutes s) ->
     snd (get now query_id s) = Some (QueryResult.data r)) /\
  (OrderedDict.get query_id (_results s) = None ->
     get now query_id s = (s, None)).
Proof.
  intros Hwf. unfold get.
  destruct (OrderedDict.get query_id (_results s)) as [r|] eqn:Hg.
  - unfold QueryResult.is_expired.
    destruct (Z.gtb_spec (now - QueryResult.created_at r)
                (timedelta_minutes (_ttl_minutes s))) as [Hold|Hfresh].
    + split; [intros s' d [=]|]. split; [|split; [|discriminate]].
      * intros r' [= <-] _. split; [reflexivity|].
        unfold _remove, OrderedDict.pop. rewrite Hg. simpl.
        now apply od_get_remove_same.
      * intros r' [= <-] H. lia.
    + split.
      { intros s' d [= _ <-]. exists r. repeat split; auto. }
      split; [|split; [|discriminate]].
      * intros r' [= <-] H. lia.
      * intros r' [= <-] _. reflexivity.
  - split; [intros s' d [=]|]. split; [discriminate|].
    split; [discriminate|reflexivity].
Qed.

(** A witness of C2: at 400 s a store with a TTL of 5 minutes holds one
  entry made at 0 s and one made at 200 s. *)
Lemma get_respects_ttl_witness :
  OrderedDict.wf
    [("old"%string, QueryResult.__init__ 0 (mkData "a" 50));
     ("new"%string, QueryResult.__init__ 200000000 (mkData "b" 60))] /\
  get 400000000 "old"
      (set_results
         [("old"%string, QueryResult.__init__ 0 (mkData "a" 50));
          ("new"%string, QueryResult.__init__ 200000000 (mkData "b" 60))]
         110 default)
  = (set_results
       [("new"%string, QueryResult.__init__ 200000000 (mkData "b" 60))]
       60 default, None) /\
  snd (get 400000000 "new"
         (set_results
            [("old"%string, QueryResult.__init__ 0 (mkData "a" 50));
             ("new"%string, QueryResult.__init__ 200000000 (mkData "b" 60))]
            110 default))
  = Some (mkData "b" 60).
Proof.
  assert (OrderedDict.wf
            [("old"%string, QueryResult.__init__ 0 (mkData "a" 50));
             ("new"%string, QueryResult.__init__ 200000000 (mkData "b" 60))])
    as Hwf.
  { apply (bool_decide_unpack _). vm_compute. exact I. }
  split; [exact Hwf|].
  split.
  - destruct (get_respects_ttl 400000000 "old"
                (set_results
                   [("old"%string, QueryResult.__init__ 0 (mkData "a" 50));
                    ("new"%string,
                     QueryResult.__init__ 200000000 (mkData "b" 60))]
                   110 default) Hwf) as (_ & Hexp & _).
    destruct (Hexp (QueryResult.__init__ 0 (mkData "a" 50))) as [E _];
      [reflexivity|vm_compute; reflexivity|].
    rewrite E. reflexivity.
  - destruct (get_respects_ttl 400000000 "new"
                (set_results
                   [("old"%string, QueryResult.__init__ 0 (mkData "a" 50));
                    ("new"%string,
                     QueryResult.__init__ 200000000 (mkData "b" 60))]
                   110 default) Hwf) as (_ & _ & Hlive & _).
    apply (Hlive (QueryResult.__init__ 200000000 (mkData "b" 60)));
      [reflexivity|vm_compute; discriminate].
Defined.

(** C9 fails on the code: a second [put] under a query id that is still
  stored replaces the entry and adds the new size on top of the old one.
  After results of 50 and of 60 bytes under "q1" the store holds the
  60-byte entry alone, and the tracked total is 110. *)
Theorem put_existing_id_double_counts :
  exists s,
    run [Put 0 "q1" (mkData "running" 50); Put 1 "q1" (mkData "cancelled" 60)]
        default = Some s /\
    _results s = [("q1"%string, QueryResult.__init__ 1 (mkData "cancelled" 60))] /\
    _total_size_bytes s = 110 /\
    stored_bytes s = 60.
Proof.
  eexists. split; [vm_compute; reflexivity|]. repeat split.
Qed.
End StoreClaims.

(* ===================================================================== *)
(** * QueryResultStore: recency order *)
(* ===================================================================== *)

Section LruFacts.
Import QueryResultStore.
Implicit Types (s : QueryResultStore.t) (cs : list QueryResultStore.call).

Lemma while_once {S : Type} (cond : S -> bool) (body : S -> S) fuel x :
  cond x = true -> cond (body x) = false ->
  while (Datatypes.S (Datatypes.S fuel)) cond body x = Some (body x).
Proof. intros H1 H2. simpl. now rewrite H1, H2. Qed.

(** A [get] that finds a live entry puts it last, touched. *)
Lemma get_moves_to_end now k s r :
  OrderedDict.get k (_results s) = Some r ->
  QueryResult.is_expired now (_ttl_minutes s) r = false ->
  get now k s
  = (set_results (OrderedDict.remove k (_results s)
                  ++ [(k, QueryResult.touch now r)])
                 (_total_size_bytes s) s,
     Some (QueryResult.data r)).
Proof.
  intros Hg Hlive. unfold get. rewrite Hg, Hlive. now rewrite od_store_last.
Qed.

Lemma bytes_sublist (l1 l2 : list (string * QueryResult.t)) s :
  sublist l1 l2 ->
  Forall (fun kr => 0 <= QueryResult.size_bytes (snd kr)) l2 ->
  stored_bytes (set_results l1 0 s) <= stored_bytes (set_results l2 0 s).
Proof.
  unfold stored_bytes. simpl.
  induction 1 as [|x l1 l2 _ IH|x l1 l2 _ IH]; intros HF; simpl.
  - lia.
  - inversion HF; subst. specialize (IH ltac:(assumption)). lia.
  - inversion HF; subst. specialize (IH ltac:(assumption)). lia.
Qed.

(** A [put] under a new key into a store that holds at most [N] live
  entries and has room in its byte budget: the store then holds the newest
  [N] of the old entries followed by the new one. *)
Lemma put_window (N : nat) now k d s :
  _max_results s = Z.of_nat N -> (1 <= N)%nat ->
  (length (_results s) <= N)%nat ->
  all_live now s -> consistent s -> sizes_ok s ->
  stored_bytes s + QueryResult._estimate_size d <= _max_size_bytes s ->
  k ∉ OrderedDict.keys (_results s) ->
  exists s',
    put now k d s = Some s' /\ same_params s s' /\ consistent s' /\
    _results s'
    = drop (length (_results s) + 1 - N)
           (_results s ++ [(k, QueryResult.__init__ now d)]).
Proof.
  intros Hmax HN Hlen Hlive Hc Hs Hb Hk.
  destruct (put_fresh now k d s ltac:(lia) Hc Hk)
    as (s' & E & Hp & Hc' & _ & _).
  exists s'. split; [exact E|]. split; [exact Hp|]. split; [exact Hc'|].
  revert E. unfold put, put_fuel.
  rewrite (evict_expired_none now s Hlive).
  change (QueryResult.size_bytes (QueryResult.__init__ now d))
    with (QueryResult._estimate_size d).
  assert (OrderedDict.get k (_results s) = None) as Hk' by now apply od_get_None.
  destruct (Nat.eq_dec (length (_results s)) N) as [Hfull|Hroom].
  - destruct (_results s) as [|[k0 r0] rest] eqn:Hrs; [simpl in Hfull; lia|].
    assert (at_capacity s = true) as C1.
    { unfold at_capacity, __len__. rewrite Hrs. apply Z.geb_le. lia. }
    assert (_evict_oldest s
            = set_results rest
                (_total_size_bytes s - QueryResult.size_bytes r0) s) as Ev
      by exact (evict_oldest_cons s k0 r0 rest Hrs).
    assert (at_capacity (_evict_oldest s) = false) as C2.
    { rewrite Ev. unfold at_capacity, __len__. simpl.
      rewrite Z.geb_leb, Z.leb_gt. simpl in Hfull. lia. }
    simpl length. rewrite (while_once _ _ _ s C1 C2). rewrite Ev.
    assert (0 <= QueryResult.size_bytes r0) as Hr0.
    { unfold sizes_ok in Hs. rewrite Hrs in Hs. now inversion Hs. }
    assert (over_budget (QueryResult._estimate_size d)
              (set_results rest
                 (_total_size_bytes s - QueryResult.size_bytes r0) s) = false)
      as B2.
    { unfold over_budget. simpl. apply andb_false_iff. left.
      rewrite Z.gtb_ltb, Z.ltb_ge. unfold consistent in Hc. lia. }
    rewrite (while_skip _ _ _ _ B2). simpl _results.
    rewrite od_store_last. intros [= <-]. simpl.
    simpl in Hk'. destruct (String.eqb k k0); [discriminate|].
    rewrite (od_remove_absent _ _ Hk').
    replace (Datatypes.S (length rest + 1) - N)%nat with 1%nat
      by (simpl in Hfull; lia).
    reflexivity.
  - assert (at_capacity s = false) as C1.
    { unfold at_capacity, __len__. rewrite Z.geb_leb, Z.leb_gt. lia. }
    rewrite (while_skip _ _ _ _ C1).
    assert (over_budget (QueryResult._estimate_size d) s = false) as B1.
    { unfold over_budget. apply andb_false_iff. left.
      rewrite Z.gtb_ltb, Z.ltb_ge. unfold consistent in Hc. lia. }
    rewrite (while_skip _ _ _ _ B1).
    rewrite od_store_last, (od_remove_absent _ _ Hk').
    intros [= <-]. simpl.
    replace (length (_results s) + 1 - N)%nat with 0%nat by lia.
    reflexivity.
Qed.



(** X6: The reading of the scenario in which the looked-up entry is still
  stored: a full store whose two oldest entries are [k1] and [k2], nothing
  expired, room in the byte budget.  [get k1] returns the entry and moves
  it to the newest end; the next [put] under a new key then evicts [k2],
  and [k1] stays. *)
Lemma get_protects_from_eviction (N : nat) tg tp k1 r1 k2 r2 rest k d s :
  _results s = (k1, r1) :: (k2, r2) :: rest ->
  _max_results s = Z.of_nat N -> length (_results s) = N ->
  OrderedDict.wf (_results s) ->
  all_live tg s -> all_live tp s -> consistent s -> sizes_ok s ->
  stored_bytes s + QueryResult._estimate_size d <= _max_size_bytes s ->
  k ∉ OrderedDict.keys (_results s) ->
  exists sg s',
    get tg k1 s = (sg, Some (QueryResult.data r1)) /\
    put tp k d sg = Some s' /\
    _results s'
    = rest ++ [(k1, QueryResult.touch tg r1); (k, QueryResult.__init__ tp d)].
Proof.
  intros Hrs Hmax Hlen Hwf Hlg Hlp Hc Hs Hb Hk.
  assert (OrderedDict.get k1 (_results s) = Some r1) as Hg.
  { rewrite Hrs. simpl. now rewrite String.eqb_refl. }
  assert (QueryResult.is_expired tg (_ttl_minutes s) r1 = false) as Hl1.
  { unfold all_live in Hlg. rewrite Hrs in Hlg. now inversion Hlg. }
  pose proof (get_moves_to_end tg k1 s r1 Hg Hl1) as Eg.
  assert (OrderedDict.remove k1 (_results s) = (k2, r2) :: rest) as Hrem.
  { rewrite Hrs. simpl. now rewrite String.eqb_refl. }
  rewrite Hrem in Eg.
  set (sg := set_results (((k2, r2) :: rest) ++ [(k1, QueryResult.touch tg r1)])
                         (_total_size_bytes s) s) in *.
  assert (stored_bytes sg = stored_bytes s) as Hsame.
  { unfold sg. rewrite stored_bytes_set, stored_bytes_app.
    unfold stored_bytes. rewrite Hrs. simpl.
    unfold QueryResult.size_bytes. simpl. lia. }
  destruct (put_window N tp k d sg) as (s' & E & _ & _ & Hrs'); auto.
  - rewrite Hrs in Hlen. simpl in Hlen. lia.
  - unfold sg. simpl. rewrite length_app. rewrite Hrs in Hlen. simpl in *. lia.
  - unfold all_live in *. unfold sg. simpl. rewrite Hrs in Hlp.
    inversion Hlp as [|? ? H1 Hrest]; subst.
    apply (Forall_app _ ((k2, r2) :: rest) [(k1, QueryResult.touch tg r1)]).
    split; [exact Hrest|]. constructor; [|constructor]. exact H1.
  - unfold consistent in *. rewrite Hsame. exact Hc.
  - unfold sizes_ok in *. unfold sg. simpl. rewrite Hrs in Hs.
    inversion Hs as [|? ? H1 Hrest]; subst.
    apply (Forall_app _ ((k2, r2) :: rest) [(k1, QueryResult.touch tg r1)]).
    split; [exact Hrest|]. constructor; [|constructor]. exact H1.
  - rewrite Hsame. exact Hb.
  - unfold sg. simpl. rewrite Hrs in Hk. simpl in Hk.
    change (k2 :: OrderedDict.keys (rest ++ [(k1, QueryResult.touch tg r1)]))
      with (OrderedDict.keys
              (((k2, r2) :: rest) ++ [(k1, QueryResult.touch tg r1)])).
    rewrite od_keys_app. simpl.
    rewrite !not_elem_of_cons in Hk. destruct Hk as (Hk1 & Hk2 & Hk3).
    rewrite not_elem_of_cons, not_elem_of_app, not_elem_of_cons.
    repeat split; auto using not_elem_of_nil.
  - exists sg, s'. split; [exact Eg|]. split; [exact E|].
    rewrite Hrs'. unfold sg. simpl. rewrite length_app. simpl.
    rewrite Hrs in Hlen. simpl in Hlen.
    replace (Datatypes.S (length rest + 1 + 1) - N)%nat with 1%nat by lia.
    simpl. now rewrite <- app_assoc.
Qed.
End LruFacts.

Section LruClaim.
Import QueryResultStore.







End LruClaim.

(* ===================================================================== *)
(** * SessionManager: removal, probing and the lock *)
(* ===================================================================== *)

Section ManagerFacts.
Import SessionManager.

Lemma close_count_emit c e w :
  close_count c (emit e w)
  = (close_count c w + (if is_close_of c e then 1 else 0))%nat.
Proof.
  unfold close_count, emit. simpl. rewrite List.filter_app, length_app. simpl.
  destruct (is_close_of c e); reflexivity.
Qed.

(** Removing an absent session changes neither the manager nor the count
  of closes of any connection. *)
Lemma remove_absent session_id mgr w :
  _sessions mgr !! session_id = None ->
  remove_session session_id mgr w
  = (false, mgr, emit EvRelease (emit EvAcquire w)).
Proof.
  intros H. unfold remove_session, _remove_session_unsafe. simpl.
  now rewrite H.
Qed.

Lemma removes_absent n : forall session_id mgr w,
  _sessions mgr !! session_id = None ->
  exists w',
    removes n session_id mgr w = (replicate n false, mgr, w') /\
    (forall c, close_count c w' = close_count c w) /\
    probe_ok w' = probe_ok w.
Proof.
  induction n as [|n IH]; intros sid mgr w H; simpl.
  - exists w. auto.
  - rewrite (remove_absent sid mgr w H).
    destruct (IH sid mgr (emit EvRelease (emit EvAcquire w)) H)
      as (w' & E & Hc & Hp).
    exists w'. rewrite E. split; [reflexivity|]. split; [|exact Hp].
    intros c. rewrite Hc, !close_count_emit. simpl. lia.
Qed.

(** Removing a present session closes its connection once and takes the
  session out of the map. *)
Lemma remove_present session_id mgr w session :
  _sessions mgr !! session_id = Some session ->
  remove_session session_id mgr w
  = (true, set_sessions (delete session_id (_sessions mgr)) mgr,
     emit EvRelease
       (emit (EvClose (SnowflakeSession.conn session)) (emit EvAcquire w))).
Proof.
  intros H. unfold remove_session, _remove_session_unsafe. simpl.
  now rewrite H.
Qed.

(** C3: [remove_session] is idempotent.  On an absent id every one of any
  number of calls returns [False] and closes nothing.  On a present id the
  first call returns [True], takes the session out of the map and calls
  [close] on its connection once; every later call returns [False], and
  after any number of them the connection has still been closed exactly
  once more than before the first call. *)
Theorem remove_session_idempotent session_id mgr w :
  (_sessions mgr !! session_id = None ->
   forall n, exists w',
     removes n session_id mgr w = (replicate n false, mgr, w') /\
     forall c, close_count c w' = close_count c w) /\
  (forall session, _sessions mgr !! session_id = Some session ->
   exists mgr1 w1,
     remove_session session_id mgr w = (true, mgr1, w1) /\
     _sessions mgr1 !! session_id = None /\
     close_count (SnowflakeSession.conn session) w1
     = Datatypes.S (close_count (SnowflakeSession.conn session) w) /\
     forall n, exists w2,
       removes n session_id mgr1 w1 = (replicate n false, mgr1, w2) /\
       close_count (SnowflakeSession.conn session) w2
       = Datatypes.S (close_count (SnowflakeSession.conn session) w)).
Proof.
  split.
  - intros H n. destruct (removes_absent n session_id mgr w H) as (w' & E & Hc & _).
    exists w'. auto.
  - intros session H. rewrite (remove_present session_id mgr w session H).
    eexists. eexists. split; [reflexivity|].
    assert (_sessions (set_sessions (delete session_id (_sessions mgr)) mgr)
              !! session_id = None) as Hgone.
    { simpl. apply lookup_delete_eq. }
    split; [exact Hgone|].
    assert (close_count (SnowflakeSession.conn session)
              (emit EvRelease
                 (emit (EvClose (SnowflakeSession.conn session))
                       (emit EvAcquire w)))
            = Datatypes.S (close_count (SnowflakeSession.conn session) w))
      as Hcount.
    { rewrite !close_count_emit. simpl. rewrite Nat.eqb_refl. lia. }
    split; [exact Hcount|].
    intros n.
    destruct (removes_absent n session_id _
                (emit EvRelease
                   (emit (EvClose (SnowflakeSession.conn session))
                         (emit EvAcquire w))) Hgone) as (w2 & E & Hc & _).
    exists w2. split; [exact E|]. now rewrite Hc.
Qed.

(** A witness of C3: a manager with the one session "s1" on connection 7,
  in a world where nothing has been closed. *)
Lemma remove_session_idempotent_witness :
  _sessions
    (set_sessions
       {[ "s1"%string :=
            SnowflakeSession.__init__ 0 7 "u" "acct" "wh" "db" "public" None ]}
       session_manager) !! "s1"%string
  = Some (SnowflakeSession.__init__ 0 7 "u" "acct" "wh" "db" "public" None) /\
  exists mgr1 w1 w2,
    remove_session "s1"
      (set_sessions
         {[ "s1"%string :=
              SnowflakeSession.__init__ 0 7 "u" "acct" "wh" "db" "public" None ]}
         session_manager)
      (mkWorld (fun _ => true) []) = (true, mgr1, w1) /\
    close_count 7 w1 = 1%nat /\
    removes 3 "s1" mgr1 w1 = ([false; false; false], mgr1, w2) /\
    close_count 7 w2 = 1%nat.
Proof.
  assert (_sessions
            (set_sessions
               {[ "s1"%string :=
                    SnowflakeSession.__init__ 0 7 "u" "acct" "wh" "db" "public"
                      None ]}
               session_manager) !! "s1"%string
          = Some (SnowflakeSession.__init__ 0 7 "u" "acct" "wh" "db" "public"
                    None)) as Hin.
  { simpl. apply lookup_singleton_eq. }
  split; [exact Hin|].
  destruct (remove_session_idempotent "s1"
              (set_sessions
                 {[ "s1"%string :=
                      SnowflakeSession.__init__ 0 7 "u" "acct" "wh" "db"
                        "public" None ]}
                 session_manager)
              (mkWorld (fun _ => true) [])) as [_ H].
  destruct (H _ Hin) as (mgr1 & w1 & E & _ & Hc & Hn).
  destruct (Hn 3%nat) as (w2 & E2 & Hc2).
  exists mgr1, w1, w2. split; [exact E|]. split; [exact Hc|].
  split; [exact E2|exact Hc2].
Defined.

(** C4: a registered session whose probe fails is removed by the next
  [get_session], which closes its connection and returns [None]; so does
  every later [get_session] for that id, whatever the world is by then.  A
  session whose probe succeeds and which has not been idle for too long is
  returned with [last_used] set to [now] and [query_count] one higher, stays
  registered in that state, and is not closed. *)
Theorem get_session_dead_or_alive now session_id mgr w session :
  _sessions mgr !! session_id = Some session ->
  (probe_ok w (SnowflakeSession.conn session) = false ->
   exists mgr1 w1,
     get_session now session_id mgr w = (None, mgr1, w1) /\
     _sessions mgr1 = delete session_id (_sessions mgr) /\
     close_count (SnowflakeSession.conn session) w1
     = Datatypes.S (close_count (SnowflakeSession.conn session) w) /\
     forall now' w', exists w'',
       get_session now' session_id mgr1 w' = (None, mgr1, w'') /\
       forall c, close_count c w'' = close_count c w') /\
  (probe_ok w (SnowflakeSession.conn session) = true ->
   SnowflakeSession.is_expired now (_max_idle_minutes mgr) session = false ->
   exists session1 mgr1 w1,
     get_session now session_id mgr w = (Some session1, mgr1, w1) /\
     session1 = SnowflakeSession.touch now session /\
     SnowflakeSession.last_used session1 = now /\
     SnowflakeSession.query_count session1
     = SnowflakeSession.query_count session + 1 /\
     _sessions mgr1 !! session_id = Some session1 /\
     forall c, close_count c w1 = close_count c w).
Proof.
  intros Hin. split.
  - intros Hdead.
    assert (forall mgr1, _sessions mgr1 !! session_id = None ->
            forall now' w', exists w'',
              get_session now' session_id mgr1 w' = (None, mgr1, w'') /\
              forall c, close_count c w'' = close_count c w') as Hlater.
    { intros mgr1 Hgone now' w'. unfold get_session. rewrite Hgone.
      eexists. split; [reflexivity|]. intros c.
      rewrite !close_count_emit. simpl. lia. }
    unfold get_session, _remove_session_unsafe. rewrite Hin.
    destruct (SnowflakeSession.is_expired now (_max_idle_minutes mgr) session).
    + simpl. eexists. eexists. split; [reflexivity|]. split; [reflexivity|].
      split.
      * rewrite !close_count_emit. simpl. rewrite Nat.eqb_refl. lia.
      * apply Hlater. simpl. apply lookup_delete_eq.
    + simpl. rewrite Hdead. simpl.
      eexists. eexists. split; [reflexivity|]. split; [reflexivity|].
      split.
      * rewrite !close_count_emit. simpl. rewrite Nat.eqb_refl. lia.
      * apply Hlater. simpl. apply lookup_delete_eq.
  - intros Halive Hfresh. unfold get_session. rewrite Hin, Hfresh. simpl.
    rewrite Halive. simpl.
    eexists. eexists. eexists. split; [reflexivity|].
    split; [reflexivity|]. split; [reflexivity|]. split; [reflexivity|].
    split; [simpl; apply lookup_insert_eq|].
    intros c. rewrite !close_count_emit. simpl. lia.
Qed.

(** A witness of C4: the session "s1" on connection 7, last used at 0, is
  looked up one minute later, first in a world where connection 7 does not
  answer, then in one where it does. *)
Lemma get_session_dead_or_alive_witness :
  _sessions
    (set_sessions
       {[ "s1"%string :=
            SnowflakeSession.__init__ 0 7 "u" "acct" "wh" "db" "public" None ]}
       session_manager) !! "s1"%string
  = Some (SnowflakeSession.__init__ 0 7 "u" "acct" "wh" "db" "public" None) /\
  (exists mgr1 w1,
     get_session 60000000 "s1"
       (set_sessions
          {[ "s1"%string :=
               SnowflakeSession.__init__ 0 7 "u" "acct" "wh" "db" "public"
                 None ]}
          session_manager)
       (mkWorld (fun _ => false) []) = (None, mgr1, w1) /\
     close_count 7 w1 = 1%nat) /\
  (exists session1 mgr1 w1,
     get_session 60000000 "s1"
       (set_sessions
          {[ "s1"%string :=
               SnowflakeSession.__init__ 0 7 "u" "acct" "wh" "db" "public"
                 None ]}
          session_manager)
       (mkWorld (fun _ => true) []) = (Some session1, mgr1, w1) /\
     SnowflakeSession.last_used session1 = 60000000 /\
     SnowflakeSession.query_count session1 = 1).
Proof.
  assert (_sessions
            (set_sessions
               {[ "s1"%string :=
                    SnowflakeSession.__init__ 0 7 "u" "acct" "wh" "db" "public"
                      None ]}
               session_manager) !! "s1"%string
          = Some (SnowflakeSession.__init__ 0 7 "u" "acct" "wh" "db" "public"
                    None)) as Hin.
  { simpl. apply lookup_singleton_eq. }
  split; [exact Hin|]. split.
  - destruct (get_session_dead_or_alive 60000000 "s1" _ (mkWorld (fun _ => false) [])
                _ Hin) as [H _].
    destruct (H eq_refl) as (mgr1 & w1 & E & _ & Hc & _).
    exists mgr1, w1. split; [exact E|exact Hc].
  - destruct (get_session_dead_or_alive 60000000 "s1" _ (mkWorld (fun _ => true) [])
                _ Hin) as [_ H].
    destruct (H eq_refl eq_refl) as (s1 & mgr1 & w1 & E & _ & Hl & Hq & _).
    exists s1, mgr1, w1. split; [exact E|]. split; [exact Hl|exact Hq].
Defined.


End ManagerFacts.

(* ===================================================================== *)
(** * RateLimiter: the sliding window *)
(* ===================================================================== *)

Section LimiterFacts.
Import RateLimiter.

Lemma Qltb_lt a b : Qltb a b = true <-> (a < b)%Q.
Proof.
  unfold Qltb. rewrite negb_true_iff. split.
  - intros H. apply Qnot_le_lt. intros Hle. apply Qle_bool_iff in Hle.
    congruence.
  - intros H. destruct (Qle_bool b a) eqn:E; auto.
    apply Qle_bool_iff in E. lra.
Qed.

Lemma Qltb_ge a b : Qltb a b = false <-> (b <= a)%Q.
Proof.
  unfold Qltb. rewrite negb_false_iff. apply Qle_bool_iff.
Qed.

(** On a value that is not negative [int] rounds down. *)
Lemma py_int_floor x : (0 <= x)%Q -> py_int x = Qfloor x.
Proof.
  destruct x as [n d]. unfold Qle, py_int, Qfloor. simpl. intros H.
  apply Z.quot_div_nonneg; lia.
Qed.

Lemma filter_all {A : Type} (f : A -> bool) (l : list A) :
  Forall (fun x => f x = true) l -> List.filter f l = l.
Proof.
  induction 1 as [|x l Hx _ IH]; simpl; [reflexivity|]. now rewrite Hx, IH.
Qed.

Lemma filter_sublist {A : Type} (f : A -> bool) (l : list A) :
  sublist (List.filter f l) l.
Proof.
  induction l as [|x l IH]; simpl; [constructor|].
  destruct (f x); [now apply sublist_skip|now apply sublist_cons].
Qed.

Lemma filter_mono_sublist {A : Type} (f : A -> bool) (l1 l2 : list A) :
  sublist l1 l2 -> sublist (List.filter f l1) (List.filter f l2).
Proof.
  induction 1 as [|x l1 l2 _ IH|x l1 l2 _ IH]; simpl.
  - constructor.
  - destruct (f x); [now apply sublist_skip|exact IH].
  - destruct (f x); [now apply sublist_cons|exact IH].
Qed.

(** Pruning at [now] and then at a later time is pruning at the later
  time. *)
Lemma filter_window_later now later w (l : list Q) :
  (now <= later)%Q ->
  List.filter (in_window later w) (List.filter (in_window now w) l)
  = List.filter (in_window later w) l.
Proof.
  intros Hle. induction l as [|t l IH]; simpl; [reflexivity|].
  destruct (in_window now w t) eqn:E1; simpl.
  - now rewrite IH.
  - destruct (in_window later w t) eqn:E2; [|exact IH].
    exfalso. unfold in_window in *.
    apply Qltb_lt in E2. apply Qltb_ge in E1. lra.
Qed.

Lemma attempts_of_set k l s : attempts_of k (set_attempts k l s) = l.
Proof. unfold attempts_of, set_attempts. simpl. now rewrite lookup_insert_eq. Qed.

Lemma attempts_of_set_other k k' l s :
  k' <> k -> attempts_of k' (set_attempts k l s) = attempts_of k' s.
Proof.
  intros H. unfold attempts_of, set_attempts. simpl.
  now rewrite lookup_insert_ne.
Qed.

(** One call, by cases on the number of attempts left in the window. *)
Lemma is_allowed_spec now k s :
  exists s',
    fst (is_allowed now k s) = s' /\
    _max_attempts s' = _max_attempts s /\
    _window_seconds s' = _window_seconds s /\
    (forall k', k' <> k -> attempts_of k' s' = attempts_of k' s) /\
    ((Z.of_nat
        (length (List.filter (in_window now (_window_seconds s))
                             (attempts_of k s))) < _max_attempts s /\
      snd (is_allowed now k s) = Some (true, 0) /\
      attempts_of k s'
      = List.filter (in_window now (_window_seconds s)) (attempts_of k s)
        ++ [now])
     \/
     (_max_attempts s
      <= Z.of_nat
           (length (List.filter (in_window now (_window_seconds s))
                                (attempts_of k s))) /\
      snd (is_allowed now k s)
      = match List.filter (in_window now (_window_seconds s))
                          (attempts_of k s) with
        | oldest :: _ =>
            Some (false,
                  py_int (inject_Z (_window_seconds s) - (now - oldest)) + 1)
        | [] => None
        end /\
      attempts_of k s'
      = List.filter (in_window now (_window_seconds s)) (attempts_of k s))).
Proof.
  unfold is_allowed.
  set (recent := List.filter (in_window now (_window_seconds s))
                             (attempts_of k s)).
  destruct (Z.geb_spec (Z.of_nat (length recent)) (_max_attempts s))
    as [Hfull|Hroom].
  - destruct recent as [|oldest rest] eqn:Hr.
    + eexists. split; [reflexivity|]. repeat split.
      * intros k' Hk'. now apply attempts_of_set_other.
      * right. split; [exact Hfull|]. split; [reflexivity|].
        apply attempts_of_set.
    + eexists. split; [reflexivity|]. repeat split.
      * intros k' Hk'. now apply attempts_of_set_other.
      * right. split; [exact Hfull|]. split; [reflexivity|].
        apply attempts_of_set.
  - eexists. split; [reflexivity|]. repeat split.
    + intros k' Hk'. simpl. now rewrite !attempts_of_set_other.
    + left. split; [exact Hroom|]. split; [reflexivity|].
      simpl. apply attempts_of_set.
Qed.

(** A call with all recorded attempts in the window and fewer of them than
  [_max_attempts] is allowed and recorded. *)
Lemma is_allowed_grant now k s (l : list Q) :
  attempts_of k s = l ->
  Forall (fun t => in_window now (_window_seconds s) t = true) l ->
  Z.of_nat (length l) < _max_attempts s ->
  exists s',
    is_allowed now k s = (s', Some (true, 0)) /\
    _max_attempts s' = _max_attempts s /\
    _window_seconds s' = _window_seconds s /\
    attempts_of k s' = l ++ [now].
Proof.
  intros Hl Hall Hlen.
  destruct (is_allowed_spec now k s) as (s' & E & P1 & P2 & _ & H).
  rewrite Hl, (filter_all _ _ Hall) in H.
  destruct H as [(_ & R & A)|(Hfull & _)]; [|lia].
  exists s'. split; [|auto].
  destruct (is_allowed now k s) as [s'' r]. simpl in *. congruence.
Qed.
End LimiterFacts.

Section LimiterClaims.
Import RateLimiter.

Lemma in_window_60 now t w :
  w = 60 -> (now - t < inject_Z 60)%Q -> in_window now w t = true.
Proof. intros -> H. unfold in_window. now apply Qltb_lt. Qed.

(** C6: a limiter for 5 attempts in 60 seconds and a client with no
  recorded attempt.  Five calls within one second of the first are all
  allowed.  A sixth call less than 60 seconds after the first is denied,
  with [int(60 - (t6 - t1)) + 1] seconds to wait: the whole number of
  seconds just above the time left, between 1 and 61, and 60 or 61 when the
  sixth call comes within the first second.  A call 60 seconds or more
  after the first is allowed again. *)
Theorem rate_limiter_window k s0 (t1 t2 t3 t4 t5 t6 t7 : Q) :
  _max_attempts s0 = 5 -> _window_seconds s0 = 60 ->
  attempts_of k s0 = [] ->
  (t1 <= t2 <= t1 + 1)%Q -> (t1 <= t3 <= t1 + 1)%Q ->
  (t1 <= t4 <= t1 + 1)%Q -> (t1 <= t5 <= t1 + 1)%Q ->
  (t1 <= t6)%Q -> (t6 - t1 < inject_Z 60)%Q ->
  (inject_Z 60 <= t7 - t1)%Q ->
  exists s6 retry,
    calls [t1; t2; t3; t4; t5; t6] k s0
    = (s6, [Some (true, 0); Some (true, 0); Some (true, 0); Some (true, 0);
            Some (true, 0); Some (false, retry)]) /\
    retry = py_int (inject_Z 60 - (t6 - t1)) + 1 /\
    (inject_Z 60 - (t6 - t1) < inject_Z retry)%Q /\
    (inject_Z retry <= inject_Z 60 - (t6 - t1) + 1)%Q /\
    1 <= retry <= 61 /\
    ((t6 <= t1 + 1)%Q -> 60 <= retry) /\
    snd (is_allowed t7 k s6) = Some (true, 0).
Proof.
  intros Hmax Hwin Hnone H2 H3 H4 H5 H6 H6w H7.
  unfold inject_Z in H6w, H7.
  destruct (is_allowed_grant t1 k s0 [] Hnone) as (s1 & E1 & M1 & W1 & A1);
    [constructor|simpl; lia|].
  destruct (is_allowed_grant t2 k s1 _ A1) as (s2 & E2 & M2 & W2 & A2).
  { repeat constructor; apply in_window_60; try congruence;
      unfold inject_Z; lra. }
  { simpl. lia. }
  destruct (is_allowed_grant t3 k s2 _ A2) as (s3 & E3 & M3 & W3 & A3).
  { repeat constructor; apply in_window_60; try congruence;
      unfold inject_Z; lra. }
  { simpl. lia. }
  destruct (is_allowed_grant t4 k s3 _ A3) as (s4 & E4 & M4 & W4 & A4).
  { repeat constructor; apply in_window_60; try congruence;
      unfold inject_Z; lra. }
  { simpl. lia. }
  destruct (is_allowed_grant t5 k s4 _ A4) as (s5 & E5 & M5 & W5 & A5).
  { repeat constructor; apply in_window_60; try congruence;
      unfold inject_Z; lra. }
  { simpl. lia. }
  simpl in A5.
  assert (Forall (fun t => in_window t6 (_window_seconds s5) t = true)
                 [t1; t2; t3; t4; t5]) as Hall6.
  { repeat constructor; apply in_window_60; try congruence;
      unfold inject_Z; lra. }
  destruct (is_allowed_spec t6 k s5) as (s6 & E6 & M6 & W6 & _ & H).
  rewrite A5, (filter_all _ _ Hall6) in H.
  destruct H as [(Hlen & _)|(_ & R6 & A6)]; [simpl in Hlen; lia|].
  assert (_window_seconds s5 = 60) as W5' by congruence.
  rewrite W5' in R6.
  set (left := (inject_Z 60 - (t6 - t1))%Q) in *.
  assert (0 < left)%Q as Hpos by (unfold left, inject_Z; lra).
  assert (left <= inject_Z 60)%Q as Hle60 by (unfold left, inject_Z; lra).
  assert (py_int left = Qfloor left) as Hfloor
    by (apply py_int_floor; lra).
  pose proof (Qfloor_le left) as Hfl.
  pose proof (Qlt_floor left) as Hfu.
  assert (0 <= Qfloor left) as Hf0.
  { rewrite <- (Qfloor_Z 0). apply Qfloor_resp_le. unfold inject_Z. lra. }
  assert (Qfloor left <= 60) as Hf60.
  { rewrite <- (Qfloor_Z 60). now apply Qfloor_resp_le. }
  exists s6, (py_int left + 1).
  split.
  { simpl. rewrite E1, E2, E3, E4, E5.
    destruct (is_allowed t6 k s5) as [s6' r6]. simpl in E6, R6. subst.
    reflexivity. }
  split; [reflexivity|].
  rewrite Hfloor.
  split; [exact Hfu|].
  split.
  { rewrite inject_Z_plus. unfold inject_Z at 2. lra. }
  split; [lia|].
  split.
  { intros Hsoon.
    assert (inject_Z 59 <= left)%Q as H59 by (unfold left, inject_Z; lra).
    apply Qfloor_resp_le in H59. rewrite Qfloor_Z in H59. lia. }
  destruct (is_allowed_spec t7 k s6) as (s7 & _ & _ & _ & _ & H).
  rewrite A6 in H. simpl in H.
  assert (in_window t7 (_window_seconds s6) t1 = false) as Hout.
  { unfold in_window. apply Qltb_ge.
    replace (_window_seconds s6) with 60 by congruence.
    unfold inject_Z. lra. }
  rewrite Hout in H.
  destruct H as [(_ & R7 & _)|(Hfull & _)]; [exact R7|].
  exfalso.
  pose proof (sublist_length _ _
                (filter_sublist (in_window t7 (_window_seconds s6))
                                [t2; t3; t4; t5])) as Hlen.
  simpl in Hlen. simpl in Hfull.
  assert (_max_attempts s6 = 5) by congruence. lia.
Qed.

(** A witness of C6: calls at 0, 0.2, 0.4, 0.6 and 0.8 seconds, a sixth at
  0.9 seconds, a seventh at 60.5 seconds. *)
Lemma rate_limiter_window_witness :
  exists s6,
    calls [0; 2 # 10; 4 # 10; 6 # 10; 8 # 10; 9 # 10]%Q "10.0.0.1"
          connect_rate_limiter
    = (s6, [Some (true, 0); Some (true, 0); Some (true, 0); Some (true, 0);
            Some (true, 0); Some (false, 60)]) /\
    snd (is_allowed (605 # 10)%Q "10.0.0.1" s6) = Some (true, 0).
Proof.
  destruct (rate_limiter_window "10.0.0.1" connect_rate_limiter
              0 (2 # 10) (4 # 10) (6 # 10) (8 # 10) (9 # 10) (605 # 10))%Q
    as (s6 & retry & E & R & _ & _ & _ & _ & A);
    try reflexivity; try (unfold inject_Z; lra).
  exists s6. split; [|exact A]. rewrite E, R. reflexivity.
Defined.

(** X18: No client ever has more than [_max_attempts] attempts on record. *)
Lemma attempts_bounded now k s :
  0 <= _max_attempts s ->
  (forall k', Z.of_nat (length (attempts_of k' s)) <= _max_attempts s) ->
  forall k',
    Z.of_nat (length (attempts_of k' (fst (is_allowed now k s))))
    <= _max_attempts (fst (is_allowed now k s)).
Proof.
  intros Hmax Hall k'.
  destruct (is_allowed_spec now k s) as (s' & -> & M & _ & O & H).
  rewrite M. destruct (decide (k' = k)) as [->|Hne].
  - pose proof (sublist_length _ _
                  (filter_sublist (in_window now (_window_seconds s))
                                  (attempts_of k s))) as Hsub.
    specialize (Hall k).
    destruct H as [(Hlen & _ & ->)|(_ & _ & ->)].
    + rewrite length_app. simpl. lia.
    + lia.
  - rewrite (O k' Hne). apply Hall.
Qed.

(** The answer of a call depends on the limits and on the attempts of the
  client that are still in the window. *)
Lemma is_allowed_snd now k s :
  snd (is_allowed now k s)
  = if Z.of_nat
         (length (List.filter (in_window now (_window_seconds s))
                              (attempts_of k s))) >=? _max_attempts s
    then match List.filter (in_window now (_window_seconds s))
                           (attempts_of k s) with
         | oldest :: _ =>
             Some (false,
                   py_int (inject_Z (_window_seconds s) - (now - oldest)) + 1)
         | [] => None
         end
    else Some (true, 0).
Proof.
  unfold is_allowed.
  destruct (Z.of_nat _ >=? _max_attempts s); [|reflexivity].
  destruct (List.filter _ _); reflexivity.
Qed.

(** A denied call leaves the limits and, of the attempts of the client,
  those still in the window. *)
Lemma is_allowed_denied now k s s' r :
  is_allowed now k s = (s', r) -> denied r = true ->
  _max_attempts s' = _max_attempts s /\
  _window_seconds s' = _window_seconds s /\
  attempts_of k s'
  = List.filter (in_window now (_window_seconds s)) (attempts_of k s).
Proof.
  intros E Hd.
  destruct (is_allowed_spec now k s) as (s1 & E1 & M & W & _ & H).
  rewrite E in E1, H. simpl in E1, H. subst s1.
  destruct H as [(_ & R & _)|(_ & _ & A)].
  - subst r. discriminate.
  - auto.
Qed.

(** A series of denied calls only prunes. *)
Lemma calls_denied k ts : forall s s' rs,
  calls ts k s = (s', rs) -> Forall (fun r => denied r = true) rs ->
  _max_attempts s' = _max_attempts s /\
  _window_seconds s' = _window_seconds s /\
  sublist (attempts_of k s') (attempts_of k s).
Proof.
  induction ts as [|t ts IH]; intros s s' rs; simpl.
  - intros [= <- <-] _. auto.
  - destruct (is_allowed t k s) as [s1 r] eqn:E1.
    destruct (calls ts k s1) as [s2 rs'] eqn:E2.
    intros [= <- <-] Hall. apply Forall_cons in Hall as [Hr Hrs].
    destruct (is_allowed_denied t k s s1 r E1 Hr) as (M1 & W1 & A1).
    destruct (IH s1 s2 rs' E2 Hrs) as (M2 & W2 & S2).
    repeat split; try congruence.
    etrans; [exact S2|]. rewrite A1. apply filter_sublist.
Qed.

(** C10: a denied call records nothing.  (1) After a call that returns
  [allowed = False] the attempts of the client are the old ones that are
  still in the window, and the attempts of other clients and the limits are
  as before.  (2) The denied call changes no later answer: a call at any
  later time gets the answer it would have got without it.  (3) A client
  whose recorded attempts do not exceed [_max_attempts] is allowed again as
  soon as the oldest of them is [_window_seconds] old, whatever number of
  denied calls was made in between. *)
Theorem denied_attempt_not_recorded k s :
  (forall now s' retry,
     is_allowed now k s = (s', Some (false, retry)) ->
     attempts_of k s'
     = List.filter (in_window now (_window_seconds s)) (attempts_of k s) /\
     (forall k', k' <> k -> attempts_of k' s' = attempts_of k' s) /\
     _max_attempts s' = _max_attempts s /\
     _window_seconds s' = _window_seconds s) /\
  (forall now later s' retry,
     is_allowed now k s = (s', Some (false, retry)) ->
     (now <= later)%Q ->
     snd (is_allowed later k s') = snd (is_allowed later k s)) /\
  (forall oldest rest ts s' rs later,
     attempts_of k s = oldest :: rest ->
     Z.of_nat (length (oldest :: rest)) <= _max_attempts s ->
     calls ts k s = (s', rs) ->
     Forall (fun r => denied r = true) rs ->
     (inject_Z (_window_seconds s) <= later - oldest)%Q ->
     snd (is_allowed later k s') = Some (true, 0)).
Proof.
  split; [|split].
  - intros now s' retry E.
    destruct (is_allowed_denied now k s s' _ E eq_refl) as (M & W & A).
    destruct (is_allowed_spec now k s) as (s1 & E1 & _ & _ & O & _).
    rewrite E in E1. simpl in E1. subst s1. auto.
  - intros now later s' retry E Hle.
    destruct (is_allowed_denied now k s s' _ E eq_refl) as (M & W & A).
    rewrite !is_allowed_snd, A, M, W.
    now rewrite (filter_window_later now later _ _ Hle).
  - intros oldest rest ts s' rs later Hatt Hlen Hcalls Hden Hold.
    destruct (calls_denied k ts s s' rs Hcalls Hden) as (M & W & S).
    rewrite is_allowed_snd, M, W.
    assert (in_window later (_window_seconds s) oldest = false) as Hout.
    { unfold in_window. now apply Qltb_ge. }
    pose proof (filter_mono_sublist (in_window later (_window_seconds s))
                  _ _ S) as S'.
    rewrite Hatt in S'. simpl in S'. rewrite Hout in S'.
    apply sublist_length in S'.
    pose proof (sublist_length _ _
                  (filter_sublist (in_window later (_window_seconds s)) rest))
      as S''.
    simpl in Hlen.
    destruct (Z.geb_spec
                (Z.of_nat
                   (length
                      (List.filter (in_window later (_window_seconds s))
                                   (attempts_of k s'))))
                (_max_attempts s)); [lia|reflexivity].
Qed.

(** A witness of C10: five attempts at 0 .. 4 seconds are on record; calls
  at 10, 20 and 30 seconds are denied; the call at 60 seconds is allowed. *)
Lemma denied_attempt_not_recorded_witness :
  attempts_of "10.0.0.1"
    (set_attempts "10.0.0.1" [0; 1; 2; 3; 4]%Q connect_rate_limiter)
  = [0; 1; 2; 3; 4]%Q /\
  exists s',
    fst (calls [10; 20; 30]%Q "10.0.0.1"
           (set_attempts "10.0.0.1" [0; 1; 2; 3; 4]%Q connect_rate_limiter))
    = s' /\
    attempts_of "10.0.0.1" s' = [0; 1; 2; 3; 4]%Q /\
    snd (is_allowed 60%Q "10.0.0.1" s') = Some (true, 0).
Proof.
  split; [apply attempts_of_set|].
  destruct (calls [10; 20; 30]%Q "10.0.0.1"
              (set_attempts "10.0.0.1" [0; 1; 2; 3; 4]%Q connect_rate_limiter))
    as [s' rs] eqn:E.
  exists s'. split; [reflexivity|].
  assert (rs = [Some (false, 51); Some (false, 41); Some (false, 31)]
          /\ attempts_of "10.0.0.1" s' = [0; 1; 2; 3; 4]%Q) as [Hrs Hatt].
  { revert E. unfold calls, is_allowed.
    rewrite !attempts_of_set. simpl. rewrite !attempts_of_set. simpl.
    rewrite !attempts_of_set. simpl. intros [= <- <-].
    split; [reflexivity|apply attempts_of_set]. }
  split; [exact Hatt|].
  destruct (denied_attempt_not_recorded "10.0.0.1"
              (set_attempts "10.0.0.1" [0; 1; 2; 3; 4]%Q connect_rate_limiter))
    as (_ & _ & H).
  apply (H 0%Q [1; 2; 3; 4]%Q [10; 20; 30]%Q s' rs 60%Q).
  - apply attempts_of_set.
  - simpl. lia.
  - exact E.
  - rewrite Hrs. repeat constructor.
  - simpl. unfold inject_Z. lra.
Defined.
End LimiterClaims.

(* ===================================================================== *)
(** * The config caches *)
(* ===================================================================== *)

Section ConfigCacheFacts.
Context {Config : Type}.
Implicit Types (c : TTLCache.t Config).

Lemma ttl_popitem_loop c :
  1 <= TTLCache.maxsize c ->
  exists c2,
    while (Datatypes.S (length (TTLCache.items c))) TTLCache.full
          TTLCache.popitem c = Some c2 /\
    TTLCache.full c2 = false /\
    TTLCache.maxsize c2 = TTLCache.maxsize c /\
    TTLCache.ttl c2 = TTLCache.ttl c /\
    sublist (TTLCache.items c2) (TTLCache.items c).
Proof.
  intros Hmax.
  destruct (while_ends (fun x => length (TTLCache.items x))
              (fun x => TTLCache.maxsize x = TTLCache.maxsize c /\
                        TTLCache.ttl x = TTLCache.ttl c /\
                        sublist (TTLCache.items x) (TTLCache.items c))
              TTLCache.full TTLCache.popitem) with
      (fuel := Datatypes.S (length (TTLCache.items c))) (s := c)
    as (c2 & W & F & M & T & S); auto.
  - intros x (M & T & S) Hfull. unfold TTLCache.full, TTLCache.currsize in Hfull.
    rewrite Z.gtb_ltb in Hfull. apply Z.ltb_lt in Hfull.
    destruct (TTLCache.items x) as [|e l] eqn:Hx; [simpl in Hfull; lia|].
    simpl. rewrite Hx. simpl. repeat split; auto.
    etrans; [|exact S]. now apply sublist_cons.
  - exists c2. auto.
Qed.

(** Storing a config in a cache of at most [maxsize >= 1] configs with
  pairwise different keys: the call returns; the cache keeps its limits,
  holds at most [maxsize] configs under pairwise different keys, and holds
  the new config under the key, to expire [ttl] after [time]. *)
Lemma ttl_setitem time key (value : Config) c :
  1 <= TTLCache.maxsize c ->
  OrderedDict.wf (TTLCache.items c) ->
  TTLCache.currsize c <= TTLCache.maxsize c ->
  exists c',
    TTLCache.__setitem__ time key value c = Some c' /\
    TTLCache.maxsize c' = TTLCache.maxsize c /\
    TTLCache.ttl c' = TTLCache.ttl c /\
    OrderedDict.wf (TTLCache.items c') /\
    TTLCache.currsize c' <= TTLCache.maxsize c /\
    OrderedDict.get key (TTLCache.items c')
    = Some (value, (time + inject_Z (TTLCache.ttl c))%Q).
Proof.
  intros Hmax Hwf Hsize. unfold TTLCache.__setitem__.
  set (c1 := TTLCache.expire time c).
  assert (sublist (TTLCache.items c1) (TTLCache.items c)) as S1
    by apply filter_sublist.
  assert (OrderedDict.wf (TTLCache.items c1)) as Hwf1.
  { eapply sublist_NoDup; [exact Hwf|]. now apply od_keys_sublist. }
  assert ((1 >? TTLCache.maxsize c1) = false) as ->.
  { simpl. rewrite Z.gtb_ltb. apply Z.ltb_ge. exact Hmax. }
  assert (exists c2,
            match OrderedDict.get key (TTLCache.items c1) with
            | Some _ => Some c1
            | None =>
                while (Datatypes.S (length (TTLCache.items c1))) TTLCache.full
                      TTLCache.popitem c1
            end = Some c2 /\
            TTLCache.maxsize c2 = TTLCache.maxsize c /\
            TTLCache.ttl c2 = TTLCache.ttl c /\
            sublist (TTLCache.items c2) (TTLCache.items c1) /\
            (length (OrderedDict.remove key (TTLCache.items c2)) + 1
             <= Z.to_nat (TTLCache.maxsize c))%nat)
    as (c2 & -> & M2 & T2 & S2 & L2).
  { destruct (OrderedDict.get key (TTLCache.items c1)) as [v|] eqn:Hg.
    - exists c1. repeat split; auto.
      pose proof (od_remove_length _ _ _ Hg) as Hl.
      pose proof (sublist_length _ _ S1). unfold TTLCache.currsize in Hsize.
      lia.
    - destruct (ttl_popitem_loop c1 Hmax) as (c2 & W & F & M & T & S).
      exists c2. repeat split; auto.
      unfold TTLCache.full, TTLCache.currsize in F.
      rewrite Z.gtb_ltb in F. apply Z.ltb_ge in F. simpl in M.
      pose proof (sublist_length _ _
                    (od_remove_sublist (TTLCache.items c2) key)).
      lia. }
  assert (OrderedDict.wf (TTLCache.items c2)) as Hwf2.
  { eapply sublist_NoDup; [exact Hwf1|]. now apply od_keys_sublist. }
  eexists. split; [reflexivity|]. simpl.
  split; [exact M2|]. split; [exact T2|].
  split; [now apply od_wf_store_last|].
  split.
  { unfold TTLCache.currsize. simpl. rewrite length_app. simpl. lia. }
  rewrite od_get_app, (od_get_remove_same _ _ Hwf2). simpl.
  now rewrite String.eqb_refl, T2.
Qed.

(** C7, as the code has it: [SYSTEM_CONFIG_CACHE] of
  services/system_config.py is an empty [TTLCache] for at most 100 configs
  that live 300 seconds (5 minutes).  Storing the config of a session in a
  cache with these limits always succeeds, keeps the cache at 100 configs
  at most, and overwrites: whatever was stored for the session before, a
  lookup finds the new config from then on until 300 seconds later, and
  nothing after that. *)
Theorem system_config_cache_policy :
  TTLCache.maxsize (@SYSTEM_CONFIG_CACHE Config) = 100 /\
  TTLCache.ttl (@SYSTEM_CONFIG_CACHE Config) = 300 /\
  TTLCache.ttl (@SYSTEM_CONFIG_CACHE Config) = 5 * 60 /\
  TTLCache.items (@SYSTEM_CONFIG_CACHE Config) = [] /\
  forall time session_id (config : Config) c,
    TTLCache.maxsize c = 100 -> TTLCache.ttl c = 300 ->
    OrderedDict.wf (TTLCache.items c) -> TTLCache.currsize c <= 100 ->
    exists c',
      cache_built_config time session_id config c = Some c' /\
      TTLCache.maxsize c' = 100 /\ TTLCache.ttl c' = 300 /\
      OrderedDict.wf (TTLCache.items c') /\ TTLCache.currsize c' <= 100 /\
      (forall time', (time' < time + inject_Z 300)%Q ->
         snd (TTLCache.get time' session_id c') = Some config) /\
      (forall time', (time + inject_Z 300 <= time')%Q ->
         snd (TTLCache.get time' session_id c') = None).
Proof.
  repeat (split; [reflexivity|]).
  intros time sid config c M T Hwf Hsize.
  destruct (ttl_setitem time sid config c) as (c' & E & M' & T' & W' & S' & G);
    try lia; auto.
  exists c'. split; [exact E|].
  split; [congruence|]. split; [congruence|]. split; [exact W'|].
  split; [lia|]. rewrite T in G. split.
  - intros time' Hlive. unfold TTLCache.get. rewrite G.
    assert (Qltb time' (time + inject_Z 300) = true) as ->
      by now apply Qltb_lt.
    reflexivity.
  - intros time' Hdead. unfold TTLCache.get. rewrite G.
    assert (Qltb time' (time + inject_Z 300) = false) as ->
      by now apply Qltb_ge.
    reflexivity.
Qed.
End ConfigCacheFacts.

(** A witness of C7: the config of "s1" is stored at 0 s and again at 10 s;
  at 200 s a lookup finds the second config. *)
Lemma system_config_cache_policy_witness :
  exists c1 c2,
    cache_built_config 0 "s1" "first"%string SYSTEM_CONFIG_CACHE = Some c1 /\
    cache_built_config 10 "s1" "second"%string c1 = Some c2 /\
    TTLCache.currsize c2 <= 100 /\
    snd (TTLCache.get 200 "s1" c2) = Some "second"%string.
Proof.
  destruct (@system_config_cache_policy string) as (_ & _ & _ & _ & H).
  destruct (H 0%Q "s1"%string "first"%string SYSTEM_CONFIG_CACHE)
    as (c1 & E1 & M1 & T1 & W1 & S1 & _);
    [reflexivity|reflexivity|constructor|vm_compute; discriminate|].
  destruct (H 10%Q "s1"%string "second"%string c1 M1 T1 W1 S1)
    as (c2 & E2 & _ & _ & _ & S2 & L2 & _).
  exists c1, c2. split; [exact E1|]. split; [exact E2|]. split; [exact S2|].
  apply L2. unfold inject_Z. lra.
Defined.

(** C7 as stated fails on [SYSTEM_CONFIG_CACHE] of
  services/system_config.py: its time-to-live is not 15 minutes and its
  capacity is not 10000, and a config stored at 0 s is gone 10 minutes
  later. *)
Lemma system_config_cache_not_15min_10000 :
  ~ (TTLCache.ttl (@SYSTEM_CONFIG_CACHE string) = 15 * 60 /\
     TTLCache.maxsize (@SYSTEM_CONFIG_CACHE string) = 10000) /\
  exists c1,
    cache_built_config 0 "s1" "config"%string SYSTEM_CONFIG_CACHE = Some c1 /\
    snd (TTLCache.get 600 "s1" c1) = None.
Proof.
  split.
  - intros [H _]. vm_compute in H. discriminate.
  - eexists. split; [vm_compute; reflexivity|]. vm_compute. reflexivity.
Qed.

(** The cache of routers/system.py keeps a config for 900 seconds, [put]
  overwrites the config of the session, and no [put] removes the config of
  another session: the cache has no capacity limit. *)
Lemma router_config_cache_policy {Config : Type} now session_id
  (cfg : Config) (c : SystemConfigCache.t Config) :
  SystemConfigCache._ttl_seconds (@SystemConfigCache.SYSTEM_CONFIG_CACHE Config)
  = 15 * 60 /\
  SystemConfigCache._cache (SystemConfigCache.put now session_id cfg c)
    !! session_id = Some (SystemConfigCache.mkCached cfg now) /\
  (forall other, other <> session_id ->
     SystemConfigCache._cache (SystemConfigCache.put now session_id cfg c)
       !! other = SystemConfigCache._cache c !! other) /\
  (SystemConfigCache._cache c !! session_id = None ->
   size (SystemConfigCache._cache (SystemConfigCache.put now session_id cfg c))
   = Datatypes.S (size (SystemConfigCache._cache c))).
Proof.
  split; [reflexivity|]. simpl. split; [apply lookup_insert_eq|].
  split.
  - intros other Hne. now apply lookup_insert_ne.
  - intros Hnone. now apply map_size_insert_None.
Qed.

(* ===================================================================== *)
(** * Further properties of QueryResultStore *)
(* ===================================================================== *)

Section StoreFurther.
Import QueryResultStore.
Implicit Types (s : QueryResultStore.t) (rs : list (string * QueryResult.t)).

Lemma results_fold_remove (ks : list string) : forall s,
  _results (fold_left (fun acc qid => _remove qid acc) ks s)
  = fold_left (fun acc qid => OrderedDict.remove qid acc) ks (_results s).
Proof.
  induction ks as [|k ks IH]; intros s; simpl; [reflexivity|].
  rewrite IH. f_equal. unfold _remove, OrderedDict.pop.
  destruct (OrderedDict.get k (_results s)) eqn:Hg; [reflexivity|].
  now rewrite od_remove_absent.
Qed.

Lemma fold_remove_cons_other (ks : list string) k r : forall rs,
  k ∉ ks ->
  fold_left (fun acc qid => OrderedDict.remove qid acc) ks ((k, r) :: rs)
  = (k, r) :: fold_left (fun acc qid => OrderedDict.remove qid acc) ks rs.
Proof.
  induction ks as [|k' ks IH]; intros rs Hk; simpl; [reflexivity|].
  apply not_elem_of_cons in Hk as [Hne Hk].
  destruct (String.eqb_spec k' k); [congruence|]. now apply IH.
Qed.

Lemma fold_remove_filter (f : string * QueryResult.t -> bool) rs :
  OrderedDict.wf rs ->
  fold_left (fun acc qid => OrderedDict.remove qid acc)
            (map fst (List.filter f rs)) rs
  = List.filter (fun kr => negb (f kr)) rs.
Proof.
  unfold OrderedDict.wf.
  induction rs as [|[k r] rs IH]; intros Hwf; simpl; [reflexivity|].
  simpl in Hwf. apply NoDup_cons in Hwf as [Hk Hwf].
  destruct (f (k, r)) eqn:Hf; simpl.
  - rewrite String.eqb_refl. now apply IH.
  - rewrite fold_remove_cons_other; [now rewrite IH|].
    intros Hin. apply Hk. apply list_elem_of_fmap in Hin as (x & -> & Hx).
    apply list_elem_of_fmap. exists x. split; [reflexivity|].
    apply list_elem_of_In, List.filter_In in Hx as [Hx _].
    now apply list_elem_of_In.
Qed.

Lemma evict_expired_results now s :
  OrderedDict.wf (_results s) ->
  _results (_evict_expired now s)
  = List.filter
      (fun kr => negb (QueryResult.is_expired now (_ttl_minutes s) (snd kr)))
      (_results s).
Proof.
  intros Hwf. unfold _evict_expired. rewrite results_fold_remove.
  now apply fold_remove_filter.
Qed.

Lemma evict_expired_all_live now s :
  OrderedDict.wf (_results s) -> all_live now (_evict_expired now s).
Proof.
  intros Hwf.
  destruct (evict_expired_shrinks now s) as ((_ & P2 & _) & _ & _).
  unfold all_live. rewrite (evict_expired_results now s Hwf), P2.
  rewrite Forall_forall. intros x Hx.
  apply list_elem_of_In, List.filter_In in Hx as [_ Hx].
  now apply negb_true_iff in Hx.
Qed.

(** X1: [_evict_expired] removes the entries that are older than the TTL and
  no other: the entries that are left are the live ones, in their old order,
  and the tracked total goes down by the bytes of the removed entries. *)
Theorem evict_expired_exact now s :
  OrderedDict.wf (_results s) ->
  _results (_evict_expired now s)
  = List.filter
      (fun kr => negb (QueryResult.is_expired now (_ttl_minutes s) (snd kr)))
      (_results s) /\
  _total_size_bytes s - _total_size_bytes (_evict_expired now s)
  = stored_bytes s - stored_bytes (_evict_expired now s) /\
  same_params s (_evict_expired now s) /\
  all_live now (_evict_expired now s).
Proof.
  intros Hwf.
  destruct (evict_expired_shrinks now s) as ((P1 & P2 & P3) & _ & Hb).
  split; [now apply evict_expired_results|]. split; [lia|].
  split; [repeat split; assumption|]. now apply evict_expired_all_live.
Qed.

(** A witness of X1: at 400 s, with a TTL of 5 minutes, the entry made at 0 s
  goes and the entry made at 200 s stays. *)
Lemma evict_expired_exact_witness :
  OrderedDict.wf
    [("old"%string, QueryResult.__init__ 0 (mkData "a" 50));
     ("new"%string, QueryResult.__init__ 200000000 (mkData "b" 60))] /\
  _results
    (_evict_expired 400000000
       (set_results
          [("old"%string, QueryResult.__init__ 0 (mkData "a" 50));
           ("new"%string, QueryResult.__init__ 200000000 (mkData "b" 60))]
          110 default))
  = [("new"%string, QueryResult.__init__ 200000000 (mkData "b" 60))] /\
  all_live 400000000
    (_evict_expired 400000000
       (set_results
          [("old"%string, QueryResult.__init__ 0 (mkData "a" 50));
           ("new"%string, QueryResult.__init__ 200000000 (mkData "b" 60))]
          110 default)).
Proof.
  assert (OrderedDict.wf
            [("old"%string, QueryResult.__init__ 0 (mkData "a" 50));
             ("new"%string, QueryResult.__init__ 200000000 (mkData "b" 60))])
    as Hwf.
  { apply (bool_decide_unpack _). vm_compute. exact I. }
  split; [exact Hwf|].
  destruct (evict_expired_exact 400000000
              (set_results
                 [("old"%string, QueryResult.__init__ 0 (mkData "a" 50));
                  ("new"%string,
                   QueryResult.__init__ 200000000 (mkData "b" 60))]
                 110 default) Hwf) as (Hrs & _ & _ & Hlive).
  split; [rewrite Hrs; reflexivity|exact Hlive].
Defined.

(** The steps of [put] after its expiry pass. *)
Lemma put_unfold_live now k d s :
  1 <= _max_results s ->
  exists s3,
    shrinks (_evict_expired now s) s3 /\
    put now k d s
    = Some (set_results
              (OrderedDict.remove k (_results s3)
               ++ [(k, QueryResult.__init__ now d)])
              (_total_size_bytes s3 + QueryResult._estimate_size d) s3).
Proof.
  intros Hmax.
  pose proof (evict_expired_shrinks now s) as H1.
  set (s1 := _evict_expired now s) in *.
  assert (length (_results s1) < Datatypes.S (length (_results s)))%nat as Hf1.
  { pose proof (shrinks_length _ _ H1). lia. }
  assert (1 <= _max_results s1) as Hmax1.
  { destruct H1 as ((E & _) & _). lia. }
  destruct (capacity_loop_ends s1 _ Hmax1 Hf1) as (s2 & W2 & C2 & H2).
  assert (length (_results s2) < Datatypes.S (length (_results s)))%nat as Hf2.
  { pose proof (shrinks_length _ _ H2). lia. }
  destruct (budget_loop_ends (QueryResult._estimate_size d) s2 _ Hf2)
    as (s3 & W3 & C3 & H3).
  exists s3. split; [eapply shrinks_trans; eauto|].
  unfold put, put_fuel. fold s1. rewrite W2.
  change (QueryResult.size_bytes (QueryResult.__init__ now d))
    with (QueryResult._estimate_size d).
  rewrite W3. now rewrite od_store_last.
Qed.

(** X2: After a [put] no stored entry is older than the TTL, and the entry just
  stored sits at the newest end: a [get] for its id returns the data that
  were put for as long as the TTL has not passed, and [None] afterwards. *)
Theorem put_then_get now k d s s' :
  1 <= _max_results s -> 0 <= _ttl_minutes s ->
  OrderedDict.wf (_results s) ->
  put now k d s = Some s' ->
  all_live now s' /\
  (forall now', now' - now <= timedelta_minutes (_ttl_minutes s) ->
     snd (get now' k s') = Some d) /\
  (forall now', now' - now > timedelta_minutes (_ttl_minutes s) ->
     snd (get now' k s') = None).
Proof.
  intros Hmax Httl Hwf E.
  destruct (put_unfold_live now k d s Hmax) as (s3 & H3 & E').
  rewrite E in E'. injection E' as ->.
  pose proof (evict_expired_all_live now s Hwf) as Hlive.
  destruct (evict_expired_shrinks now s) as ((P1 & P2 & P3) & _ & _).
  pose proof (shrinks_Forall _ _ _ H3 Hlive) as Hlive3.
  pose proof (shrinks_wf _ _ H3 (shrinks_wf _ _ (evict_expired_shrinks now s) Hwf))
    as Hwf3.
  destruct H3 as ((Q1 & Q2 & Q3) & _ & _).
  assert (OrderedDict.get k
            (OrderedDict.remove k (_results s3)
             ++ [(k, QueryResult.__init__ now d)])
          = Some (QueryResult.__init__ now d)) as Hg.
  { rewrite od_get_app, (od_get_remove_same _ _ Hwf3). simpl.
    now rewrite String.eqb_refl. }
  split; [|split].
  - unfold all_live. simpl. apply Forall_app. split.
    + rewrite Forall_forall in *. intros x Hx. rewrite Q2. apply Hlive3.
      eapply elem_of_sublist; [exact Hx|apply od_remove_sublist].
    + constructor; [|constructor]. simpl.
      unfold QueryResult.is_expired, timedelta_minutes. simpl.
      rewrite Z.gtb_ltb. apply Z.ltb_ge. lia.
  - intros now' Hnow. unfold get. simpl. rewrite Hg.
    unfold QueryResult.is_expired. simpl. rewrite Q2, P2.
    assert ((now' - now >? timedelta_minutes (_ttl_minutes s)) = false) as ->
      by (rewrite Z.gtb_ltb; apply Z.ltb_ge; lia).
    reflexivity.
  - intros now' Hnow. unfold get. simpl. rewrite Hg.
    unfold QueryResult.is_expired. simpl. rewrite Q2, P2.
    assert ((now' - now >? timedelta_minutes (_ttl_minutes s)) = true) as ->
      by (rewrite Z.gtb_ltb; apply Z.ltb_lt; lia).
    reflexivity.
Qed.

(** A witness of X2: a result put at 10 s into the default store is read at
  40 s. *)
Lemma put_then_get_witness :
  exists s',
    put 10000000 "q1" (mkData "rows" 50) default = Some s' /\
    snd (get 40000000 "q1" s') = Some (mkData "rows" 50).
Proof.
  destruct (put_count 10000000 "q1" (mkData "rows" 50) default)
    as (s' & E & _); [vm_compute; discriminate|].
  exists s'. split; [exact E|].
  destruct (put_then_get 10000000 "q1" (mkData "rows" 50) default s')
    as (_ & H & _).
  - vm_compute. discriminate.
  - vm_compute. discriminate.
  - constructor.
  - exact E.
  - apply H. vm_compute. discriminate.
Defined.

(** X3: Reading does not renew.  A [get] that returns an entry moves it to
  the newest end of the store and sets its [last_accessed] to the time of
  the call; the creation time, the data and the size of the entry, every
  other entry with its place in the order, the number of entries, the
  tracked total and the limits stay as they were.  So a later [get] at a
  time when the TTL, counted from the creation, has passed returns [None]
  however often the entry was read before. *)
Theorem get_does_not_renew now k s r :
  OrderedDict.wf (_results s) ->
  OrderedDict.get k (_results s) = Some r ->
  QueryResult.is_expired now (_ttl_minutes s) r = false ->
  exists r',
    QueryResult.data r' = QueryResult.data r /\
    QueryResult.created_at r' = QueryResult.created_at r /\
    QueryResult.size_bytes r' = QueryResult.size_bytes r /\
    QueryResult.last_accessed r' = now /\
    snd (get now k s) = Some (QueryResult.data r) /\
    _results (fst (get now k s))
    = OrderedDict.remove k (_results s) ++ [(k, r')] /\
    OrderedDict.get k (_results (fst (get now k s))) = Some r' /\
    (forall k', k' <> k ->
       OrderedDict.get k' (_results (fst (get now k s)))
       = OrderedDict.get k' (_results s)) /\
    length (_results (fst (get now k s))) = length (_results s) /\
    _total_size_bytes (fst (get now k s)) = _total_size_bytes s /\
    same_params s (fst (get now k s)) /\
    (forall later,
       later - QueryResult.created_at r > timedelta_minutes (_ttl_minutes s) ->
       snd (get later k (fst (get now k s))) = None).
Proof.
  intros Hwf Hg Hlive. exists (QueryResult.touch now r).
  rewrite (get_moves_to_end now k s r Hg Hlive). simpl.
  assert (OrderedDict.get k
            (OrderedDict.remove k (_results s) ++ [(k, QueryResult.touch now r)])
          = Some (QueryResult.touch now r)) as Hg'.
  { rewrite od_get_app, (od_get_remove_same _ _ Hwf). simpl.
    now rewrite String.eqb_refl. }
  do 6 (split; [reflexivity|]). split; [exact Hg'|].
  split; [|split; [|split; [|split]]].
  - intros k' Hne. rewrite od_get_app.
    rewrite (od_get_remove_other _ k k') by congruence.
    destruct (OrderedDict.get k' (_results s)); [reflexivity|]. simpl.
    destruct (String.eqb_spec k' k); [contradiction|reflexivity].
  - rewrite length_app. simpl. pose proof (od_remove_length _ _ _ Hg). lia.
  - reflexivity.
  - repeat split.
  - intros later Hlater. unfold get. simpl. rewrite Hg'.
    unfold QueryResult.is_expired. simpl.
    assert ((later - QueryResult.created_at r
             >? timedelta_minutes (_ttl_minutes s)) = true) as ->
      by (rewrite Z.gtb_ltb; apply Z.ltb_lt; lia).
    reflexivity.
Qed.

(** A witness of X3: the entry made at 0 s is read at 200 s; at 301 s it is gone
  all the same. *)
Lemma get_does_not_renew_witness :
  snd (get 200000000 "q1"
         (set_results [("q1"%string, QueryResult.__init__ 0 (mkData "a" 50))]
                      50 default))
  = Some (mkData "a" 50) /\
  snd (get 301000000 "q1"
         (fst (get 200000000 "q1"
                 (set_results
                    [("q1"%string, QueryResult.__init__ 0 (mkData "a" 50))]
                    50 default))))
  = None.
Proof.
  split; [reflexivity|].
  destruct (get_does_not_renew 200000000 "q1"
              (set_results
                 [("q1"%string, QueryResult.__init__ 0 (mkData "a" 50))]
                 50 default)
              (QueryResult.__init__ 0 (mkData "a" 50)))
    as (r' & _ & _ & _ & _ & _ & _ & _ & _ & _ & _ & _ & H).
  - apply (bool_decide_unpack _). vm_compute. exact I.
  - reflexivity.
  - reflexivity.
  - apply H. vm_compute. reflexivity.
Defined.

(** X4: [put] returns exactly when the store is built for at least one result:
  with [_max_results >= 1] it returns a store with the same limits, with
  [_max_results <= 0] its capacity loop runs for ever, whatever the store
  holds. *)
Theorem put_returns_iff_capacity now k d s :
  (1 <= _max_results s ->
   exists s', put now k d s = Some s' /\ same_params s s' /\
              forall fuel, (length (_results s) < fuel)%nat ->
                           put_fuel fuel now k d s = Some s') /\
  (_max_results s <= 0 -> forall fuel, put_fuel fuel now k d s = None).
Proof.
  split.
  - intros Hmax. destruct (put_count now k d s Hmax) as (s' & E & Hp & _).
    exists s'. split; [exact E|]. split; [exact Hp|].
    intros fuel Hfuel. now rewrite put_fuel_enough.
  - intros Hmax fuel. now apply put_diverges.
Qed.

(** A witness of X4: the default store, and a store built with
  [max_results = 0]. *)
Lemma put_returns_iff_capacity_witness :
  (exists s', put 0 "q1" (mkData "a" 50) default = Some s') /\
  put_fuel 1000 0 "q1" (mkData "a" 50) (__init__ 0 5 100) = None.
Proof.
  destruct (put_returns_iff_capacity 0 "q1" (mkData "a" 50) default)
    as [H _].
  destruct (put_returns_iff_capacity 0 "q1" (mkData "a" 50) (__init__ 0 5 100))
    as [_ H'].
  split.
  - destruct H as (s' & E & _); [vm_compute; discriminate|]. now exists s'.
  - apply H'. simpl. lia.
Defined.

(** A witness of X5: a result of 200 bytes put
  into a store of two results of 40 bytes with a budget of 100 bytes. *)
Lemma put_oversize_sole_occupant_witness :
  put 5 "big" (mkData "rows" 200)
    (set_results
       [("q1"%string, QueryResult.__init__ 0 (mkData "a" 40));
        ("q2"%string, QueryResult.__init__ 1 (mkData "b" 40))]
       80 (__init__ 50 5 100))
  = Some (set_results [("big"%string, QueryResult.__init__ 5 (mkData "rows" 200))]
                      200 (__init__ 50 5 100)).
Proof.
  rewrite (put_oversize_sole_occupant 5 "big" (mkData "rows" 200)).
  - reflexivity.
  - simpl. lia.
  - reflexivity.
  - repeat constructor; vm_compute; discriminate.
  - vm_compute. reflexivity.
Defined.

(** A witness of X6: a full store of "k1", "k2",
  "k3"; "k1" is read, "k4" is put, and "k2" is the entry that goes. *)
Lemma get_protects_from_eviction_witness :
  exists sg s',
    get 3 "k1"
      (set_results
         [("k1"%string, QueryResult.__init__ 0 (mkData "a" 10));
          ("k2"%string, QueryResult.__init__ 1 (mkData "b" 10));
          ("k3"%string, QueryResult.__init__ 2 (mkData "c" 10))]
         30 (__init__ 3 5 1000))
    = (sg, Some (mkData "a" 10)) /\
    put 4 "k4" (mkData "d" 10) sg = Some s' /\
    OrderedDict.keys (_results s') = ["k3"; "k1"; "k4"]%string.
Proof.
  destruct (get_protects_from_eviction 3 3 4
              "k1" (QueryResult.__init__ 0 (mkData "a" 10))
              "k2" (QueryResult.__init__ 1 (mkData "b" 10))
              [("k3"%string, QueryResult.__init__ 2 (mkData "c" 10))]
              "k4" (mkData "d" 10)
              (set_results
                 [("k1"%string, QueryResult.__init__ 0 (mkData "a" 10));
                  ("k2"%string, QueryResult.__init__ 1 (mkData "b" 10));
                  ("k3"%string, QueryResult.__init__ 2 (mkData "c" 10))]
                 30 (__init__ 3 5 1000)))
    as (sg & s' & Eg & Ep & Hrs).
  - reflexivity.
  - reflexivity.
  - reflexivity.
  - apply (bool_decide_unpack _). vm_compute. exact I.
  - repeat constructor.
  - repeat constructor.
  - reflexivity.
  - repeat constructor; vm_compute; discriminate.
  - vm_compute. discriminate.
  - apply (bool_decide_unpack _). vm_compute. exact I.
  - exists sg, s'. split; [exact Eg|]. split; [exact Ep|]. now rewrite Hrs.
Defined.

(** X8: The membership test and [get] agree: [query_id in store] holds
  exactly when a [get] at the same time returns data; and as time passes
  the test on an unchanged store can only turn from true to false. *)
Theorem contains_agrees_with_get now k s :
  (__contains__ now k s = true <-> exists d, snd (get now k s) = Some d) /\
  (forall earlier,
     earlier <= now -> __contains__ now k s = true ->
     __contains__ earlier k s = true).
Proof.
  unfold __contains__, get. split.
  - destruct (OrderedDict.get k (_results s)) as [r|].
    + destruct (QueryResult.is_expired now (_ttl_minutes s) r); simpl.
      * split; [discriminate|]. intros [d Hd]. discriminate.
      * split; [eauto|reflexivity].
    + simpl. split; [discriminate|]. intros [d Hd]. discriminate.
  - intros earlier Hle. destruct (OrderedDict.get k (_results s)) as [r|];
      [|discriminate].
    unfold QueryResult.is_expired. rewrite !negb_true_iff, !Z.gtb_ltb, !Z.ltb_ge.
    lia.
Qed.
End StoreFurther.

(* ===================================================================== *)
(** * Further properties of SessionManager *)
(* ===================================================================== *)

Section ManagerFurther.
Import SessionManager.

(** Removing registered sessions with pairwise different ids: each of them
  leaves the map, each of their connections is closed once, in the order of
  the list, and nothing else changes. *)
Lemma remove_sessions_spec (ps : list (string * SnowflakeSession.t)) :
  forall mgr w,
    NoDup (map fst ps) ->
    (forall p, p ∈ ps -> _sessions mgr !! fst p = Some (snd p)) ->
    exists mgr',
      _remove_sessions (map fst ps) mgr w
      = (mgr',
         {| probe_ok := probe_ok w;
            log := log w
                   ++ map (fun p => EvClose (SnowflakeSession.conn (snd p))) ps |})
      /\ _max_idle_minutes mgr' = _max_idle_minutes mgr
      /\ _cleanup_interval mgr' = _cleanup_interval mgr
      /\ _running mgr' = _running mgr
      /\ forall sid,
           _sessions mgr' !! sid
           = if decide (sid ∈ map fst ps) then None else _sessions mgr !! sid.
Proof.
  induction ps as [|[k x] ps IH]; intros mgr w Hnd Hin.
  - exists mgr. unfold _remove_sessions. simpl. rewrite app_nil_r.
    destruct w. do 4 (split; [reflexivity|]). intros sid. simpl.
    destruct (decide (sid ∈ [])) as [H|_]; [|reflexivity].
    now apply not_elem_of_nil in H.
  - simpl in Hnd. apply NoDup_cons in Hnd as [Hk Hnd].
    assert (_sessions mgr !! k = Some x) as Hkx by (apply (Hin (k, x)); left).
    unfold _remove_sessions. simpl.
    unfold _remove_session_unsafe at 2. simpl. rewrite Hkx. simpl.
    fold (_remove_sessions (map fst ps)
            (set_sessions (delete k (_sessions mgr)) mgr)
            (emit (EvClose (SnowflakeSession.conn x)) w)).
    destruct (IH (set_sessions (delete k (_sessions mgr)) mgr)
                 (emit (EvClose (SnowflakeSession.conn x)) w) Hnd)
      as (mgr' & E & M & C & R & L).
    { intros p Hp. simpl. rewrite lookup_delete_ne.
      - apply Hin. now right.
      - intros ->. apply Hk. apply list_elem_of_fmap. now exists p. }
    exists mgr'. rewrite E. simpl. rewrite <- app_assoc. simpl.
    split; [reflexivity|]. repeat split; try assumption.
    intros sid. rewrite L. simpl.
    destruct (decide (sid ∈ map fst ps)) as [H1|H1];
      destruct (decide (sid ∈ k :: map fst ps)) as [H2|H2]; auto.
    + exfalso. apply H2. now right.
    + apply elem_of_cons in H2 as [->|H2]; [|contradiction].
      apply lookup_delete_eq.
    + rewrite lookup_delete_ne; [reflexivity|].
      intros ->. apply H2. left.
Qed.

(** X9: One round of the cleanup thread removes the sessions that have been
  idle for more than [_max_idle_minutes] and no other, closes the
  connection of each removed session once, probes no connection, and holds
  the lock from the first to the last step. *)
Theorem cleanup_expired_exact now mgr w :
  exists visited,
    NoDup (map fst visited) /\
    (forall sid x,
       (sid, x) ∈ visited <->
       _sessions mgr !! sid = Some x /\
       SnowflakeSession.is_expired now (_max_idle_minutes mgr) x = true) /\
    (forall sid,
       _sessions (fst (_cleanup_expired now mgr w)) !! sid
       = match _sessions mgr !! sid with
         | Some x =>
             if SnowflakeSession.is_expired now (_max_idle_minutes mgr) x
             then None else Some x
         | None => None
         end) /\
    _max_idle_minutes (fst (_cleanup_expired now mgr w))
    = _max_idle_minutes mgr /\
    _running (fst (_cleanup_expired now mgr w)) = _running mgr /\
    log (snd (_cleanup_expired now mgr w))
    = log w ++ EvAcquire
        :: map (fun p => EvClose (SnowflakeSession.conn (snd p))) visited
        ++ [EvRelease].
Proof.
  set (f := fun p : string * SnowflakeSession.t =>
              SnowflakeSession.is_expired now (_max_idle_minutes mgr) (snd p)).
  exists (List.filter f (map_to_list (_sessions mgr))).
  assert (forall sid x,
            (sid, x) ∈ List.filter f (map_to_list (_sessions mgr)) <->
            _sessions mgr !! sid = Some x /\
            SnowflakeSession.is_expired now (_max_idle_minutes mgr) x = true)
    as Hvis.
  { intros sid x. rewrite list_elem_of_In, List.filter_In, <- list_elem_of_In.
    rewrite elem_of_map_to_list. reflexivity. }
  assert (NoDup (map fst (List.filter f (map_to_list (_sessions mgr)))))
    as Hnd.
  { eapply sublist_NoDup; [apply (NoDup_fst_map_to_list (_sessions mgr))|].
    apply (fmap_sublist fst), filter_sublist. }
  split; [exact Hnd|]. split; [exact Hvis|].
  unfold _cleanup_expired, expired_ids. fold f.
  destruct (remove_sessions_spec (List.filter f (map_to_list (_sessions mgr)))
              mgr (emit EvAcquire w) Hnd)
    as (mgr' & E & M & _ & R & L).
  { intros [sid x] Hp. now apply Hvis in Hp as [Hp _]. }
  rewrite E. simpl. split; [|split; [exact M|split; [exact R|]]].
  - intros sid. rewrite L.
    destruct (decide (sid ∈ map fst (List.filter f (map_to_list (_sessions mgr)))))
      as [Hin|Hout].
    + apply list_elem_of_fmap in Hin as ([sid' x] & -> & Hp).
      apply Hvis in Hp as [Hx Hexp]. simpl. now rewrite Hx, Hexp.
    + destruct (_sessions mgr !! sid) as [x|] eqn:Hx; [|reflexivity].
      destruct (SnowflakeSession.is_expired now (_max_idle_minutes mgr) x)
        eqn:Hexp; [|reflexivity].
      exfalso. apply Hout. apply list_elem_of_fmap. exists (sid, x).
      split; [reflexivity|]. now apply Hvis.
  - now rewrite <- !app_assoc.
Qed.

(** X10: [shutdown] stops the cleanup loop, removes every session and closes
  the connection of each of them once, without probing any. *)
Theorem shutdown_closes_all mgr w :
  exists visited,
    NoDup (map fst visited) /\
    (forall sid x, (sid, x) ∈ visited <-> _sessions mgr !! sid = Some x) /\
    _sessions (fst (shutdown mgr w)) = ∅ /\
    _running (fst (shutdown mgr w)) = false /\
    log (snd (shutdown mgr w))
    = log w ++ EvAcquire
        :: map (fun p => EvClose (SnowflakeSession.conn (snd p))) visited
        ++ [EvRelease].
Proof.
  exists (map_to_list (_sessions mgr)).
  split; [apply NoDup_fst_map_to_list|].
  split; [intros sid x; apply elem_of_map_to_list|].
  unfold shutdown. simpl.
  destruct (remove_sessions_spec (map_to_list (_sessions mgr))
              {| _sessions := _sessions mgr;
                 _max_idle_minutes := _max_idle_minutes mgr;
                 _cleanup_interval := _cleanup_interval mgr;
                 _running := false |}
              (emit EvAcquire w) (NoDup_fst_map_to_list (_sessions mgr)))
    as (mgr' & E & _ & _ & R & L).
  { intros [sid x] Hp. simpl. now apply elem_of_map_to_list. }
  rewrite E. simpl. split; [|split; [exact R|now rewrite <- !app_assoc]].
  apply map_eq. intros sid. rewrite L, lookup_empty. simpl.
  destruct (decide (sid ∈ map fst (map_to_list (_sessions mgr)))) as [_|Hout];
    [reflexivity|].
  destruct (_sessions mgr !! sid) as [x|] eqn:Hx; [|reflexivity].
  exfalso. apply Hout. apply list_elem_of_fmap. exists (sid, x).
  split; [reflexivity|]. now apply elem_of_map_to_list.
Qed.

(** X11: A session that was just created is found by [get_session] as long as
  its connection answers and no more than [_max_idle_minutes] have passed:
  the session comes back as it was created, used once.  After a longer
  pause the same call removes the session and closes its connection without
  probing it.  Creating a session changes no other session and closes
  nothing. *)
Theorem create_then_get now now' session_id conn user account warehouse
    database schema role mgr w :
  exists mgr1 w1,
    create_session now session_id conn user account warehouse database schema
                   role mgr w = (session_id, mgr1, w1) /\
    (forall other, other <> session_id ->
       _sessions mgr1 !! other = _sessions mgr !! other) /\
    (forall c, close_count c w1 = close_count c w) /\
    (probe_ok w conn = true ->
     now' - now <= timedelta_minutes (_max_idle_minutes mgr) ->
     exists x mgr2 w2,
       get_session now' session_id mgr1 w1 = (Some x, mgr2, w2) /\
       x = SnowflakeSession.touch now'
             (SnowflakeSession.__init__ now conn user account warehouse
                                        database schema role) /\
       SnowflakeSession.query_count x = 1 /\
       SnowflakeSession.created_at x = now /\
       SnowflakeSession.last_used x = now' /\
       _sessions mgr2 !! session_id = Some x) /\
    (now' - now > timedelta_minutes (_max_idle_minutes mgr) ->
     exists mgr2 w2,
       get_session now' session_id mgr1 w1 = (None, mgr2, w2) /\
       _sessions mgr2 !! session_id = None /\
       log w2 = log w1 ++ [EvAcquire; EvClose conn; EvRelease]).
Proof.
  unfold create_session. eexists. eexists. split; [reflexivity|].
  split; [|split; [|split]].
  - intros other Hne. simpl. now rewrite lookup_insert_ne.
  - intros c. rewrite !close_count_emit. simpl. lia.
  - intros Hok Hidle. unfold get_session. simpl. rewrite lookup_insert_eq.
    unfold SnowflakeSession.is_expired. simpl.
    assert ((now' - now >? timedelta_minutes (_max_idle_minutes mgr)) = false)
      as -> by (rewrite Z.gtb_ltb; apply Z.ltb_ge; lia).
    rewrite Hok. simpl. eexists. eexists. eexists.
    split; [reflexivity|]. do 4 (split; [reflexivity|]).
    apply lookup_insert_eq.
  - intros Hidle. unfold get_session, _remove_session_unsafe. simpl.
    rewrite lookup_insert_eq.
    unfold SnowflakeSession.is_expired. simpl.
    assert ((now' - now >? timedelta_minutes (_max_idle_minutes mgr)) = true)
      as -> by (rewrite Z.gtb_ltb; apply Z.ltb_lt; lia).
    simpl. eexists. eexists. split; [reflexivity|].
    split; [simpl; apply lookup_delete_eq|].
    simpl. now rewrite <- !app_assoc.
Qed.

(** A witness of X11: a session created at 0 s is looked up after 30 minutes
  exactly (found) and after 30 minutes and one microsecond (removed). *)
Lemma create_then_get_witness :
  exists mgr1 w1,
    create_session 0 "s1" 7 "u" "acct" "wh" "db" "public" None
      session_manager (mkWorld (fun _ => true) []) = ("s1"%string, mgr1, w1) /\
    (exists x mgr2 w2,
       get_session 1800000000 "s1" mgr1 w1 = (Some x, mgr2, w2) /\
       SnowflakeSession.query_count x = 1) /\
    (exists mgr2 w2, get_session 1800000001 "s1" mgr1 w1 = (None, mgr2, w2)).
Proof.
  destruct (create_then_get 0 1800000000 "s1" 7 "u" "acct" "wh" "db" "public"
              None session_manager (mkWorld (fun _ => true) []))
    as (mgr1 & w1 & E & _ & _ & Hfound & _).
  destruct (create_then_get 0 1800000001 "s1" 7 "u" "acct" "wh" "db" "public"
              None session_manager (mkWorld (fun _ => true) []))
    as (mgr1' & w1' & E' & _ & _ & _ & Hgone).
  rewrite E in E'. injection E' as <- <-.
  exists mgr1, w1. split; [exact E|]. split.
  - destruct Hfound as (x & mgr2 & w2 & G & _ & Q & _);
      [reflexivity|vm_compute; discriminate|].
    exists x, mgr2, w2. split; [exact G|exact Q].
  - destruct Hgone as (mgr2 & w2 & G & _); [vm_compute; reflexivity|].
    exists mgr2, w2. exact G.
Defined.

(** A lookup that finds the session: the call, the manager and the world
  after it. *)
Lemma get_session_finds now session_id mgr w x :
  _sessions mgr !! session_id = Some x ->
  probe_ok w (SnowflakeSession.conn x) = true ->
  SnowflakeSession.is_expired now (_max_idle_minutes mgr) x = false ->
  exists mgr1 w1,
    get_session now session_id mgr w
    = (Some (SnowflakeSession.touch now x), mgr1, w1) /\
    _sessions mgr1 !! session_id = Some (SnowflakeSession.touch now x) /\
    probe_ok w1 = probe_ok w /\
    (forall c, close_count c w1 = close_count c w) /\
    _max_idle_minutes mgr1 = _max_idle_minutes mgr.
Proof.
  intros Hin Hok Hfresh. unfold get_session. rewrite Hin, Hfresh. simpl.
  rewrite Hok. simpl. eexists. eexists. split; [reflexivity|].
  split; [simpl; apply lookup_insert_eq|]. split; [reflexivity|].
  split; [|reflexivity].
  intros c. rewrite !close_count_emit. simpl. lia.
Qed.

(** X12: A session in regular use does not expire: when its connection answers
  and no pause between two lookups (or between the last use and the first
  lookup) is longer than [_max_idle_minutes], every one of the lookups
  finds the session; afterwards it is still registered, its
  [query_count] has gone up by the number of lookups, and nothing was
  closed. *)
Theorem session_in_use_stays times : forall session_id mgr w x,
  _sessions mgr !! session_id = Some x ->
  probe_ok w (SnowflakeSession.conn x) = true ->
  steps_within (timedelta_minutes (_max_idle_minutes mgr))
               (SnowflakeSession.last_used x) times ->
  exists rs mgr' w' x',
    gets times session_id mgr w = (rs, mgr', w') /\
    length rs = length times /\
    Forall (fun r => r <> None) rs /\
    _sessions mgr' !! session_id = Some x' /\
    SnowflakeSession.query_count x'
    = SnowflakeSession.query_count x + Z.of_nat (length times) /\
    SnowflakeSession.created_at x' = SnowflakeSession.created_at x /\
    forall c, close_count c w' = close_count c w.
Proof.
  induction times as [|now times IH]; intros sid mgr w x Hin Hok Hsteps.
  - exists [], mgr, w, x. simpl. repeat split; auto. lia.
  - destruct Hsteps as [Hstep Hsteps]. simpl.
    destruct (get_session_finds now sid mgr w x Hin Hok)
      as (mgr1 & w1 & E & Hin1 & Hp1 & Hc1 & Hm1).
    { unfold SnowflakeSession.is_expired. rewrite Z.gtb_ltb.
      apply Z.ltb_ge. lia. }
    rewrite E.
    destruct (IH sid mgr1 w1 (SnowflakeSession.touch now x) Hin1)
      as (rs & mgr' & w' & x' & E' & Hl & Hall & Hin' & Hq & Hcr & Hc').
    { rewrite Hp1. exact Hok. }
    { rewrite Hm1. exact Hsteps. }
    rewrite E'. exists (Some (SnowflakeSession.touch now x) :: rs), mgr', w', x'.
    split; [reflexivity|]. split; [simpl; lia|].
    split; [constructor; [discriminate|exact Hall]|].
    split; [exact Hin'|]. split; [rewrite Hq; simpl; lia|].
    split; [exact Hcr|]. intros c. now rewrite Hc', Hc1.
Qed.

(** A witness of X12: the session "s1", last used at 0 s, is looked up every 20
  minutes for an hour. *)
Lemma session_in_use_stays_witness :
  exists rs mgr' w' x',
    gets [1200000000; 2400000000; 3600000000] "s1"
      (set_sessions
         {[ "s1"%string :=
              SnowflakeSession.__init__ 0 7 "u" "acct" "wh" "db" "public" None ]}
         session_manager)
      (mkWorld (fun _ => true) []) = (rs, mgr', w') /\
    Forall (fun r => r <> None) rs /\
    _sessions mgr' !! "s1"%string = Some x' /\
    SnowflakeSession.query_count x' = 3.
Proof.
  destruct (session_in_use_stays [1200000000; 2400000000; 3600000000] "s1"
              (set_sessions
                 {[ "s1"%string :=
                      SnowflakeSession.__init__ 0 7 "u" "acct" "wh" "db"
                        "public" None ]}
                 session_manager)
              (mkWorld (fun _ => true) [])
              (SnowflakeSession.__init__ 0 7 "u" "acct" "wh" "db" "public" None))
    as (rs & mgr' & w' & x' & E & _ & Hall & Hin & Hq & _).
  - simpl. apply lookup_singleton_eq.
  - reflexivity.
  - simpl. unfold timedelta_minutes. simpl. lia.
  - exists rs, mgr', w', x'. split; [exact E|]. split; [exact Hall|].
    split; [exact Hin|]. rewrite Hq. reflexivity.
Defined.
End ManagerFurther.

(* ===================================================================== *)
(** * Further properties of RateLimiter *)
(* ===================================================================== *)

Section LimiterFurther.
Import RateLimiter.

Lemma filter_filter_same {A : Type} (f : A -> bool) (l : list A) :
  List.filter f (List.filter f l) = List.filter f l.
Proof.
  induction l as [|x l IH]; simpl; [reflexivity|].
  destruct (f x) eqn:E; simpl; [now rewrite E, IH|exact IH].
Qed.

Lemma in_window_self now w : 0 < w -> in_window now w now = true.
Proof.
  intros Hw. unfold in_window. apply Qltb_lt.
  assert (inject_Z 0 < inject_Z w)%Q as H by now rewrite <- Zlt_Qlt.
  unfold inject_Z at 1 in H. lra.
Qed.

(** X13: [get_remaining] and [is_allowed] agree: a call is allowed exactly when
  [get_remaining] at the same time is positive; [get_remaining] is never
  negative and, for [_max_attempts >= 0], never above [_max_attempts]; and
  with a window that is not empty an allowed call lowers it by one. *)
Theorem get_remaining_agrees now k s :
  0 <= get_remaining now k s /\
  (0 <= _max_attempts s -> get_remaining now k s <= _max_attempts s) /\
  (0 < get_remaining now k s <-> snd (is_allowed now k s) = Some (true, 0)) /\
  (0 < _window_seconds s ->
   snd (is_allowed now k s) = Some (true, 0) ->
   get_remaining now k (fst (is_allowed now k s))
   = get_remaining now k s - 1).
Proof.
  unfold get_remaining. split; [lia|]. split; [lia|]. split.
  - rewrite is_allowed_snd.
    destruct (Z.geb_spec
                (Z.of_nat
                   (length (List.filter (in_window now (_window_seconds s))
                                        (attempts_of k s))))
                (_max_attempts s)) as [Hfull|Hroom].
    + split; [lia|]. destruct (List.filter _ _); discriminate.
    + split; [reflexivity|lia].
  - intros Hw Hok.
    destruct (is_allowed_spec now k s) as (s' & -> & M & W & _ & H).
    destruct H as [(Hlen & _ & A)|(_ & R & _)].
    + rewrite M, W, A, List.filter_app, filter_filter_same. simpl.
      rewrite (in_window_self now _ Hw), length_app. simpl. lia.
    + rewrite Hok in R. destruct (List.filter _ _); discriminate.
Qed.

(** A witness of X13: the fresh limiter has 5 attempts left, and 4 after the
  first call. *)
Lemma get_remaining_agrees_witness :
  get_remaining 0 "10.0.0.1" connect_rate_limiter = 5 /\
  snd (is_allowed 0 "10.0.0.1" connect_rate_limiter) = Some (true, 0) /\
  get_remaining 0 "10.0.0.1" (fst (is_allowed 0 "10.0.0.1" connect_rate_limiter))
  = 4.
Proof.
  destruct (get_remaining_agrees 0 "10.0.0.1" connect_rate_limiter)
    as (_ & _ & Hiff & Hstep).
  assert (get_remaining 0 "10.0.0.1" connect_rate_limiter = 5) as H5
    by reflexivity.
  assert (snd (is_allowed 0 "10.0.0.1" connect_rate_limiter) = Some (true, 0))
    as Hok by (apply Hiff; rewrite H5; lia).
  split; [exact H5|]. split; [exact Hok|].
  rewrite Hstep; [rewrite H5; reflexivity|simpl; lia|exact Hok].
Defined.

(** X14: The limit is per client: a call for one client changes neither the
  answer nor the attempts left of any other client, at any time. *)
Theorem other_clients_unaffected now k s k' t :
  k' <> k ->
  attempts_of k' (fst (is_allowed now k s)) = attempts_of k' s /\
  snd (is_allowed t k' (fst (is_allowed now k s))) = snd (is_allowed t k' s) /\
  get_remaining t k' (fst (is_allowed now k s)) = get_remaining t k' s.
Proof.
  intros Hne.
  destruct (is_allowed_spec now k s) as (s' & -> & M & W & O & _).
  split; [now apply O|].
  rewrite !is_allowed_snd. unfold get_remaining.
  now rewrite M, W, (O k' Hne).
Qed.

(** A witness of X14: a call from 10.0.0.1 and the attempts left of 10.0.0.2. *)
Lemma other_clients_unaffected_witness :
  get_remaining 1 "10.0.0.2"
    (fst (is_allowed 0 "10.0.0.1" connect_rate_limiter)) = 5.
Proof.
  destruct (other_clients_unaffected 0 "10.0.0.1" connect_rate_limiter
              "10.0.0.2" 1) as (_ & _ & H).
  - discriminate.
  - rewrite H. reflexivity.
Defined.

Lemma filter_StronglySorted (f : Q -> bool) (l : list Q) :
  StronglySorted Qle l -> StronglySorted Qle (List.filter f l).
Proof.
  induction 1 as [|x l Hs IH Hx]; simpl; [constructor|].
  destruct (f x); [|exact IH]. constructor; [exact IH|].
  rewrite List.Forall_forall in *. intros y Hy.
  apply Hx. now apply List.filter_In in Hy as [Hy _].
Qed.

Lemma StronglySorted_snoc (l : list Q) (x : Q) :
  StronglySorted Qle l -> Forall (fun t => (t <= x)%Q) l ->
  StronglySorted Qle (l ++ [x]).
Proof.
  induction 1 as [|y l Hs IH Hy]; intros Hle; simpl.
  - repeat constructor.
  - apply Forall_cons in Hle as [Hyx Hle]. constructor; [now apply IH|].
    rewrite List.Forall_forall in *. intros z Hz.
    apply in_app_or in Hz as [Hz|[<-|[]]]; [now apply Hy|exact Hyx].
Qed.

(** X15: The attempts of a client stay a sliding window.  With a window that is
  not empty and a clock that does not run backwards, after every call all
  recorded attempts of the client are less than [_window_seconds] old, none
  lies in the future, and they are in the order of the calls: the first of
  them is the oldest. *)
Theorem attempts_stay_window now k s :
  0 < _window_seconds s ->
  StronglySorted Qle (attempts_of k s) ->
  Forall (fun t => (t <= now)%Q) (attempts_of k s) ->
  Forall (fun t => in_window now (_window_seconds s) t = true)
         (attempts_of k (fst (is_allowed now k s))) /\
  StronglySorted Qle (attempts_of k (fst (is_allowed now k s))) /\
  Forall (fun t => (t <= now)%Q) (attempts_of k (fst (is_allowed now k s))).
Proof.
  intros Hw Hsorted Hpast.
  assert (Forall (fun t => in_window now (_window_seconds s) t = true)
                 (List.filter (in_window now (_window_seconds s))
                              (attempts_of k s))) as Hin.
  { rewrite Forall_forall. intros t Ht.
    now apply list_elem_of_In, List.filter_In in Ht as [_ Ht]. }
  assert (Forall (fun t => (t <= now)%Q)
                 (List.filter (in_window now (_window_seconds s))
                              (attempts_of k s))) as Hpast'.
  { rewrite Forall_forall in *. intros t Ht. apply Hpast.
    now apply list_elem_of_In, List.filter_In in Ht as [Ht%list_elem_of_In _]. }
  pose proof (filter_StronglySorted (in_window now (_window_seconds s)) _
                Hsorted) as Hsorted'.
  destruct (is_allowed_spec now k s) as (s' & -> & _ & _ & _ & H).
  destruct H as [(_ & _ & ->)|(_ & _ & ->)].
  - split; [|split].
    + apply Forall_app. split; [exact Hin|].
      constructor; [now apply in_window_self|constructor].
    + now apply StronglySorted_snoc.
    + apply Forall_app. split; [exact Hpast'|].
      constructor; [apply Qle_refl|constructor].
  - auto.
Qed.

(** A witness of X15: attempts at 0, 30 and 50 seconds on record, a call at 70
  seconds. *)
Lemma attempts_stay_window_witness :
  attempts_of "10.0.0.1"
    (fst (is_allowed 70 "10.0.0.1"
            (set_attempts "10.0.0.1" [0; 30; 50]%Q connect_rate_limiter)))
  = [30; 50; 70]%Q /\
  Forall (fun t => in_window 70 60 t = true) [30; 50; 70]%Q.
Proof.
  assert (attempts_of "10.0.0.1"
            (fst (is_allowed 70 "10.0.0.1"
                    (set_attempts "10.0.0.1" [0; 30; 50]%Q
                                  connect_rate_limiter)))
          = [30; 50; 70]%Q) as E.
  { unfold is_allowed. rewrite !attempts_of_set. simpl.
    apply attempts_of_set. }
  split; [exact E|]. rewrite <- E.
  apply (attempts_stay_window 70 "10.0.0.1"
           (set_attempts "10.0.0.1" [0; 30; 50]%Q connect_rate_limiter)).
  - simpl. lia.
  - rewrite attempts_of_set. repeat constructor; unfold Qle; simpl; lia.
  - rewrite attempts_of_set. repeat constructor; unfold Qle; simpl; lia.
Defined.

(** X16: The seconds to wait that a denied call reports are at least 1 and at
  most [_window_seconds + 1], when no recorded attempt lies in the future
  of the call. *)
Theorem retry_after_bounds now k s retry :
  Forall (fun t => (t <= now)%Q) (attempts_of k s) ->
  snd (is_allowed now k s) = Some (false, retry) ->
  1 <= retry <= _window_seconds s + 1.
Proof.
  intros Hpast. rewrite is_allowed_snd.
  destruct (Z.of_nat _ >=? _max_attempts s); [|discriminate].
  destruct (List.filter (in_window now (_window_seconds s)) (attempts_of k s))
    as [|oldest rest] eqn:Hf; [discriminate|].
  intros [= <-].
  assert (List.In oldest
            (List.filter (in_window now (_window_seconds s)) (attempts_of k s)))
    as Hin by (rewrite Hf; now left).
  apply List.filter_In in Hin as [Hin Hwin].
  rewrite Forall_forall in Hpast.
  pose proof (Hpast oldest (proj2 (list_elem_of_In _ _) Hin)) as Hle.
  unfold in_window in Hwin. apply Qltb_lt in Hwin.
  set (x := (inject_Z (_window_seconds s) - (now - oldest))%Q) in *.
  assert (0 < x)%Q as Hpos by (unfold x; lra).
  assert (x <= inject_Z (_window_seconds s))%Q as Hup by (unfold x; lra).
  rewrite py_int_floor by lra.
  assert (0 <= Qfloor x).
  { rewrite <- (Qfloor_Z 0). apply Qfloor_resp_le. unfold inject_Z. lra. }
  assert (Qfloor x <= _window_seconds s).
  { rewrite <- (Qfloor_Z (_window_seconds s)). now apply Qfloor_resp_le. }
  lia.
Qed.

(** A witness of X16: five attempts at 0 .. 4 seconds, a call at 59.5 seconds. *)
Lemma retry_after_bounds_witness :
  snd (is_allowed (595 # 10) "10.0.0.1"
         (set_attempts "10.0.0.1" [0; 1; 2; 3; 4]%Q connect_rate_limiter))
  = Some (false, 1) /\
  1 <= 1 <= 60 + 1.
Proof.
  assert (snd (is_allowed (595 # 10) "10.0.0.1"
                 (set_attempts "10.0.0.1" [0; 1; 2; 3; 4]%Q
                               connect_rate_limiter))
          = Some (false, 1)) as E.
  { unfold is_allowed. rewrite !attempts_of_set. reflexivity. }
  split; [exact E|].
  apply (retry_after_bounds (595 # 10) "10.0.0.1"
           (set_attempts "10.0.0.1" [0; 1; 2; 3; 4]%Q connect_rate_limiter) 1).
  - rewrite attempts_of_set. repeat constructor; unfold Qle; simpl; lia.
  - exact E.
Defined.

(** X17: [is_allowed] raises (the [IndexError] of [self._attempts[client_ip][0]])
  exactly when the limiter was built with [max_attempts <= 0] and the
  client has no attempt in the window; a limiter with [max_attempts >= 1]
  always answers. *)
Theorem is_allowed_raises_iff now k s :
  snd (is_allowed now k s) = None <->
  _max_attempts s <= 0 /\
  List.filter (in_window now (_window_seconds s)) (attempts_of k s) = [].
Proof.
  rewrite is_allowed_snd.
  destruct (Z.geb_spec
              (Z.of_nat
                 (length (List.filter (in_window now (_window_seconds s))
                                      (attempts_of k s))))
              (_max_attempts s)) as [Hfull|Hroom].
  - destruct (List.filter _ _) as [|t l] eqn:Hf.
    + simpl in Hfull. split; [intros _; split; [lia|reflexivity]|auto].
    + split; [discriminate|]. intros [_ H]. discriminate.
  - split; [discriminate|]. intros [Hmax H]. rewrite H in Hroom.
    simpl in Hroom. lia.
Qed.

(** A witness of X18: the fresh limiter after one call. *)
Lemma attempts_bounded_witness :
  Z.of_nat
    (length (attempts_of "10.0.0.1"
               (fst (is_allowed 0 "10.0.0.1" connect_rate_limiter))))
  <= 5.
Proof.
  apply (attempts_bounded 0 "10.0.0.1" connect_rate_limiter).
  - simpl. lia.
  - intros k'. unfold attempts_of. simpl. rewrite lookup_empty. simpl. lia.
Defined.
End LimiterFurther.

(* ===================================================================== *)
(** * The key of the limiter *)
(* ===================================================================== *)

Section ClientIpFacts.

Lemma chars_append (a b : string) :
  list_ascii_of_string (String.append a b)
  = list_ascii_of_string a ++ list_ascii_of_string b.
Proof. induction a as [|c a IH]; simpl; [reflexivity|]. now rewrite IH. Qed.

Lemma string_append_assoc (a b c : string) :
  String.append (String.append a b) c = String.append a (String.append b c).
Proof.
  induction a as [|x a IH]; [reflexivity|].
  change (String x (String.append (String.append a b) c)
          = String x (String.append a (String.append b c))).
  now rewrite IH.
Qed.

Lemma lstrip_space_prefix (pre x : string) :
  all_space pre -> lstrip (String.append pre x) = lstrip x.
Proof.
  unfold all_space. induction pre as [|c pre IH]; simpl; [reflexivity|].
  intros H. apply Forall_cons in H as [Hc H]. rewrite Hc. now apply IH.
Qed.

Lemma rstrip_space (post : string) : all_space post -> rstrip post = EmptyString.
Proof.
  unfold all_space. induction post as [|c post IH]; simpl; [reflexivity|].
  intros H. apply Forall_cons in H as [Hc H]. now rewrite (IH H), Hc.
Qed.

Lemma rstrip_space_suffix (x post : string) :
  all_space post -> rstrip (String.append x post) = rstrip x.
Proof.
  intros H. induction x as [|c x IH]; simpl; [now apply rstrip_space|].
  now rewrite IH.
Qed.

Lemma last_cons_default {A : Type} (l : list A) : forall a c d,
  List.last (a :: l) c = List.last (a :: l) d.
Proof.
  induction l as [|b l IH]; intros a c d; [reflexivity|].
  change (List.last (b :: l) c = List.last (b :: l) d). apply IH.
Qed.

Lemma rstrip_keeps (s : string) : forall c,
  py_isspace (List.last (list_ascii_of_string s) c) = false ->
  rstrip (String c s) = String c s.
Proof.
  induction s as [|d s IH]; intros c H.
  - simpl in *. now rewrite H.
  - assert (rstrip (String d s) = String d s) as E.
    { apply IH. simpl in H. destruct (list_ascii_of_string s) as [|a l];
        [exact H|]. now rewrite (last_cons_default l a d c). }
    change (rstrip (String c (String d s)))
      with (match rstrip (String d s) with
            | EmptyString =>
                if py_isspace c then EmptyString else String c EmptyString
            | t => String c t
            end).
    now rewrite E.
Qed.

Lemma strip_trimmed_id (s : string) : trimmed s -> strip s = s.
Proof.
  unfold trimmed, strip. destruct s as [|c s]; simpl; [reflexivity|].
  intros [Hc Hl]. rewrite Hc. now apply rstrip_keeps.
Qed.

Lemma rstrip_last (s : string) :
  match list_ascii_of_string (rstrip s) with
  | [] => True
  | c :: l => py_isspace (List.last l c) = false
  end.
Proof.
  induction s as [|c s IH]; simpl; [exact I|].
  destruct (rstrip s) as [|d t] eqn:E.
  - destruct (py_isspace c) eqn:Hc; simpl; [exact I|exact Hc].
  - simpl in *. destruct (list_ascii_of_string t) as [|a l]; [exact IH|].
    now rewrite (last_cons_default l a c d).
Qed.

Lemma rstrip_head (c : ascii) (s : string) :
  py_isspace c = false -> exists t, rstrip (String c s) = String c t.
Proof.
  intros Hc. simpl. destruct (rstrip s) as [|d t].
  - rewrite Hc. now exists EmptyString.
  - now exists (String d t).
Qed.

Lemma lstrip_head (s : string) :
  match lstrip s with
  | EmptyString => True
  | String c _ => py_isspace c = false
  end.
Proof.
  induction s as [|c s IH]; simpl; [exact I|].
  destruct (py_isspace c) eqn:Hc; [exact IH|exact Hc].
Qed.

Lemma strip_is_trimmed (s : string) : trimmed (strip s).
Proof.
  unfold trimmed, strip. pose proof (lstrip_head s) as Hh.
  destruct (lstrip s) as [|c t]; [exact I|].
  destruct (rstrip_head c t Hh) as (t' & E).
  pose proof (rstrip_last (String c t)) as Hl. rewrite E in *. simpl in *.
  split; [exact Hh|exact Hl].
Qed.

Lemma lstrip_Forall (P : ascii -> Prop) (s : string) :
  Forall P (list_ascii_of_string s) ->
  Forall P (list_ascii_of_string (lstrip s)).
Proof.
  induction s as [|c s IH]; simpl; [auto|]. intros H.
  destruct (py_isspace c); [|exact H].
  apply Forall_cons in H as [_ H]. now apply IH.
Qed.

Lemma rstrip_Forall (P : ascii -> Prop) (s : string) :
  Forall P (list_ascii_of_string s) ->
  Forall P (list_ascii_of_string (rstrip s)).
Proof.
  induction s as [|c s IH]; simpl; [auto|]. intros H.
  apply Forall_cons in H as [Hc H]. specialize (IH H).
  destruct (rstrip s) as [|d t].
  - destruct (py_isspace c); simpl; [constructor|]. now constructor.
  - simpl in *. now constructor.
Qed.

Lemma first_field_no_comma (s : string) : no_comma (first_field s).
Proof.
  unfold no_comma. induction s as [|c s IH]; simpl; [constructor|].
  destruct (Ascii.eqb_spec c ","%char); simpl; [constructor|].
  now constructor.
Qed.

Lemma first_field_stops (a rest : string) :
  no_comma a -> first_field (String.append a (String ","%char rest)) = a.
Proof.
  unfold no_comma. induction a as [|c a IH]; simpl; [reflexivity|].
  intros H. apply Forall_cons in H as [Hc H].
  destruct (Ascii.eqb_spec c ","%char); [contradiction|]. now rewrite IH.
Qed.

Lemma first_field_whole (a : string) : no_comma a -> first_field a = a.
Proof.
  unfold no_comma. induction a as [|c a IH]; simpl; [reflexivity|].
  intros H. apply Forall_cons in H as [Hc H].
  destruct (Ascii.eqb_spec c ","%char); [contradiction|]. now rewrite IH.
Qed.

Lemma client_ip_forwarded_eq request f :
  x_forwarded_for request = Some f -> f <> EmptyString ->
  _get_client_ip request = strip (first_field f).
Proof.
  intros Hf Hne. unfold _get_client_ip. rewrite Hf.
  destruct f as [|c rest]; [contradiction|reflexivity].
Qed.

(** X19: With an [X-Forwarded-For] header that is not empty the key of the
  limiter is made from that header alone, whatever [X-Real-IP] and the
  address of the peer are: the text in front of the first comma, without
  the white space around it.  The key contains no comma and no white space
  at either end. *)
Theorem client_ip_from_forwarded request f :
  x_forwarded_for request = Some f -> f <> EmptyString ->
  _get_client_ip request = strip (first_field f) /\
  no_comma (_get_client_ip request) /\
  trimmed (_get_client_ip request).
Proof.
  intros Hf Hne. rewrite (client_ip_forwarded_eq request f Hf Hne).
  split; [reflexivity|]. split; [|apply strip_is_trimmed].
  unfold no_comma, strip. apply rstrip_Forall, lstrip_Forall.
  apply first_field_no_comma.
Qed.

(** A witness of X19: a proxy chain, with the peer and [X-Real-IP] set too. *)
Lemma client_ip_from_forwarded_witness :
  _get_client_ip
    (mkRequest (Some " 203.0.113.7 , 10.0.0.2, 10.0.0.3"%string)
               (Some "198.51.100.1"%string) (Some "10.0.0.3"%string))
  = "203.0.113.7"%string.
Proof.
  destruct (client_ip_from_forwarded
              (mkRequest (Some " 203.0.113.7 , 10.0.0.2, 10.0.0.3"%string)
                         (Some "198.51.100.1"%string) (Some "10.0.0.3"%string))
              " 203.0.113.7 , 10.0.0.2, 10.0.0.3"%string)
    as (E & _).
  - reflexivity.
  - discriminate.
  - rewrite E. reflexivity.
Defined.

(** X20: The key is the first address of the header: for a text [ip] without a
  comma and without white space at its ends, white space [pre] and [post]
  around it, and anything after a comma, the header
  [pre ip post , rest] gives the key [ip].  The text [ip] may be empty: a
  header that starts with a comma gives the empty key. *)
Theorem client_ip_first_address request pre ip post rest :
  all_space pre -> all_space post -> trimmed ip -> no_comma ip ->
  x_forwarded_for request
  = Some (String.append pre
            (String.append ip (String.append post (String ","%char rest)))) ->
  _get_client_ip request = ip.
Proof.
  intros Hpre Hpost Htrim Hcomma Hf.
  rewrite (client_ip_forwarded_eq request _ Hf)
    by (destruct pre; [destruct ip; [destruct post|]|]; discriminate).
  assert (no_comma (String.append pre (String.append ip post))) as Hnc.
  { unfold no_comma, all_space in *. rewrite !chars_append.
    assert (forall l, Forall (fun c => py_isspace c = true) l ->
                      Forall (fun c => c <> ","%char) l) as Hsp.
    { intros l H. eapply Forall_impl; [exact H|]. intros c Hc ->.
      vm_compute in Hc. discriminate. }
    rewrite !Forall_app. auto. }
  assert (String.append pre
            (String.append ip (String.append post (String ","%char rest)))
          = String.append (String.append pre (String.append ip post))
                          (String ","%char rest)) as ->.
  { now rewrite !string_append_assoc. }
  rewrite (first_field_stops _ _ Hnc). unfold strip.
  rewrite (lstrip_space_prefix _ _ Hpre).
  destruct ip as [|c ip].
  - change (String.append EmptyString post) with post.
    assert (lstrip post = EmptyString) as ->; [|reflexivity].
    clear -Hpost. unfold all_space in Hpost.
    induction post as [|c post IH]; simpl; [reflexivity|].
    apply Forall_cons in Hpost as [Hc H]. rewrite Hc. now apply IH.
  - unfold trimmed in Htrim. simpl in Htrim. destruct Htrim as [Hc Hl].
    change (String.append (String c ip) post)
      with (String c (String.append ip post)).
    simpl lstrip. rewrite Hc.
    change (String c (String.append ip post))
      with (String.append (String c ip) post).
    rewrite (rstrip_space_suffix _ _ Hpost). now apply rstrip_keeps.
Qed.

(** A witness of X20: one address with blanks around it, and a header that starts
  with a comma. *)
Lemma client_ip_first_address_witness :
  _get_client_ip
    (mkRequest (Some "  203.0.113.7 ,10.0.0.2"%string) None None)
  = "203.0.113.7"%string /\
  _get_client_ip
    (mkRequest (Some ",10.0.0.2"%string) (Some "198.51.100.1"%string) None)
  = EmptyString.
Proof.
  split.
  - apply (client_ip_first_address
             (mkRequest (Some "  203.0.113.7 ,10.0.0.2"%string) None None)
             "  " "203.0.113.7" " " "10.0.0.2").
    + repeat constructor.
    + repeat constructor.
    + split; reflexivity.
    + repeat constructor; discriminate.
    + reflexivity.
  - apply (client_ip_first_address
             (mkRequest (Some ",10.0.0.2"%string) (Some "198.51.100.1"%string)
                        None)
             "" "" "" "10.0.0.2").
    + constructor.
    + constructor.
    + exact I.
    + constructor.
    + reflexivity.
Defined.
End ClientIpFacts.

(* ===================================================================== *)
(** * The limiter as [connect] asks it *)
(* ===================================================================== *)

Section ConnectLimit.
Import RateLimiter.

(** X21: The limit binds a key, and the key is text of the request.  Requests
  whose keys are pairwise different and have no attempt on record are all
  allowed by a limiter with [_max_attempts >= 1], however many they are and
  whenever they arrive. *)
Theorem fresh_keys_never_limited reqs : forall s,
  1 <= _max_attempts s ->
  NoDup (map (fun r => _get_client_ip (snd r)) reqs) ->
  Forall (fun r => attempts_of (_get_client_ip (snd r)) s = []) reqs ->
  snd (connect_rate_checks reqs s) = map (fun _ => Some (true, 0)) reqs.
Proof.
  induction reqs as [|[now rq] reqs IH]; intros s Hmax Hnd Hfresh;
    [reflexivity|].
  simpl in Hnd. apply NoDup_cons in Hnd as [Hk Hnd].
  apply Forall_cons in Hfresh as [H0 Hfresh]. simpl in H0.
  simpl. unfold connect_rate_check.
  destruct (is_allowed_spec now (_get_client_ip rq) s)
    as (s' & Es & M & _ & O & H).
  destruct (is_allowed now (_get_client_ip rq) s) as [s1 r] eqn:E.
  simpl in Es, H. subst s'. rewrite H0 in H. simpl in H.
  destruct H as [(_ & -> & _)|(Hfull & _)]; [|lia].
  specialize (IH s1).
  destruct (connect_rate_checks reqs s1) as [s2 rs]. simpl in *.
  f_equal. apply IH; [lia|exact Hnd|].
  rewrite Forall_forall in *. intros r Hr.
  rewrite O; [now apply Hfresh|].
  intros Heq. apply Hk. rewrite <- Heq.
  apply list_elem_of_fmap. now exists r.
Qed.

(** A witness of X21: six requests of one peer within six seconds, each with an
  [X-Forwarded-For] header of its own, against the limiter of the module
  (5 attempts in 60 seconds). *)
Lemma fresh_keys_never_limited_witness :
  snd (connect_rate_checks
         [(0, mkRequest (Some "a1"%string) None (Some "10.0.0.9"%string));
          (1, mkRequest (Some "a2"%string) None (Some "10.0.0.9"%string));
          (2, mkRequest (Some "a3"%string) None (Some "10.0.0.9"%string));
          (3, mkRequest (Some "a4"%string) None (Some "10.0.0.9"%string));
          (4, mkRequest (Some "a5"%string) None (Some "10.0.0.9"%string));
          (5, mkRequest (Some "a6"%string) None (Some "10.0.0.9"%string))]%Q
         connect_rate_limiter)
  = [Some (true, 0); Some (true, 0); Some (true, 0); Some (true, 0);
     Some (true, 0); Some (true, 0)].
Proof.
  apply (fresh_keys_never_limited
           [(0, mkRequest (Some "a1"%string) None (Some "10.0.0.9"%string));
            (1, mkRequest (Some "a2"%string) None (Some "10.0.0.9"%string));
            (2, mkRequest (Some "a3"%string) None (Some "10.0.0.9"%string));
            (3, mkRequest (Some "a4"%string) None (Some "10.0.0.9"%string));
            (4, mkRequest (Some "a5"%string) None (Some "10.0.0.9"%string));
            (5, mkRequest (Some "a6"%string) None (Some "10.0.0.9"%string))]%Q
           connect_rate_limiter).
  - simpl. lia.
  - apply (bool_decide_unpack _). vm_compute. exact I.
  - repeat constructor.
Defined.
End ConnectLimit.

(* ===================================================================== *)
(** * services/system_config.py: what discovery finds *)
(* ===================================================================== *)

Section DiscoveryFacts.
Import system_config.
Variable upper : string -> string.

Lemma has_true {V : Type} (k : string) (d : gmap string V) :
  has k d = true <-> is_Some (d !! k).
Proof.
  unfold has. destruct (d !! k); split; eauto; try discriminate.
  intros [x [=]].
Qed.

(** A row adds nothing but its own location, and only under a known
  entity that its table matches and that was not found before. *)
Lemma add_row_lookup found row k loc :
  add_row upper found row !! k = Some loc ->
  found !! k = Some loc \/
  (found !! k = None /\
   List.find (matches_known (upper (table_name row))) KNOWN_ENTITIES = Some k /\
   loc = mkLocation (table_catalog row) (table_schema row) (table_name row)).
Proof.
  unfold add_row.
  destruct (List.find _ KNOWN_ENTITIES) as [known|] eqn:Hf; [|now left].
  unfold has. destruct (found !! known) eqn:Hk; [now left|].
  destruct (decide (k = known)) as [->|Hne].
  - rewrite lookup_insert_eq. intros [= <-]. right. auto.
  - rewrite lookup_insert_ne by congruence. now left.
Qed.

(** What was found stays as it is. *)
Lemma add_row_keeps found row k loc :
  found !! k = Some loc -> add_row upper found row !! k = Some loc.
Proof.
  intros Hk. unfold add_row.
  destruct (List.find _ KNOWN_ENTITIES) as [known|]; [|exact Hk].
  unfold has. destruct (found !! known) eqn:Hkn; [exact Hk|].
  rewrite lookup_insert_ne; [exact Hk|]. intros ->. congruence.
Qed.

Lemma fold_add_row_keeps rows : forall found k loc,
  found !! k = Some loc -> fold_left (add_row upper) rows found !! k = Some loc.
Proof.
  induction rows as [|row rows IH]; intros found k loc Hk; simpl; [exact Hk|].
  apply IH. now apply add_row_keeps.
Qed.

Lemma add_row_finds found row k :
  List.find (matches_known (upper (table_name row))) KNOWN_ENTITIES = Some k ->
  is_Some (add_row upper found row !! k).
Proof.
  intros Hf. unfold add_row. rewrite Hf. unfold has.
  destruct (found !! k) eqn:Hk; [rewrite Hk; eauto|].
  rewrite lookup_insert_eq. eauto.
Qed.

Lemma fold_add_row_lookup rows : forall found k loc,
  fold_left (add_row upper) rows found !! k = Some loc ->
  found !! k = Some loc \/
  exists row,
    row ∈ rows /\
    List.find (matches_known (upper (table_name row))) KNOWN_ENTITIES = Some k /\
    loc = mkLocation (table_catalog row) (table_schema row) (table_name row).
Proof.
  induction rows as [|row rows IH]; intros found k loc; simpl; [now left|].
  intros H. destruct (IH _ _ _ H) as [H'|(r & Hr & Hf & ->)].
  - destruct (add_row_lookup _ _ _ _ H') as [Hold|(_ & Hf & ->)];
      [now left|].
    right. exists row. split; [left|auto].
  - right. exists r. split; [now right|auto].
Qed.

(** X22: [_discover_entities] is sound: every entity it reports is one of the
  14 known names, its location is that of a row of the result whose table
  name, in upper case, is the known name or the known name without
  [_ENTITY]; there are at most 14 entities; and a query that raised gives
  none. *)
Theorem discover_entities_sound rows :
  (forall known loc,
     _discover_entities upper (Some rows) !! known = Some loc ->
     known ∈ KNOWN_ENTITIES /\
     (upper (loc_table loc) = known \/
      upper (loc_table loc) = str_replace "_ENTITY" "" known) /\
     exists row,
       row ∈ rows /\
       loc = mkLocation (table_catalog row) (table_schema row)
                        (table_name row)) /\
  (size (_discover_entities upper (Some rows)) <= 14)%nat /\
  _discover_entities upper None = ∅.
Proof.
  assert (forall known loc,
     _discover_entities upper (Some rows) !! known = Some loc ->
     known ∈ KNOWN_ENTITIES /\
     (upper (loc_table loc) = known \/
      upper (loc_table loc) = str_replace "_ENTITY" "" known) /\
     exists row,
       row ∈ rows /\
       loc = mkLocation (table_catalog row) (table_schema row)
                        (table_name row)) as Hsound.
  { intros known loc H. unfold _discover_entities in H.
    apply fold_add_row_lookup in H as [H|(row & Hr & Hf & ->)].
    - rewrite lookup_empty in H. discriminate.
    - apply List.find_some in Hf as [Hin Hm]. split; [now apply list_elem_of_In|].
      split; [|eauto]. simpl. unfold matches_known in Hm.
      apply orb_true_iff in Hm as [Hm|Hm]; apply String.eqb_eq in Hm; auto. }
  split; [exact Hsound|]. split; [|reflexivity].
  rewrite <- length_map_to_list.
  rewrite <- (length_fmap fst).
  change 14%nat with (length KNOWN_ENTITIES).
  apply submseteq_length, NoDup_submseteq.
  - apply NoDup_fst_map_to_list.
  - intros k Hk. apply list_elem_of_fmap in Hk as ([k' loc] & -> & Hk).
    apply elem_of_map_to_list in Hk. now apply Hsound in Hk as [Hk _].
Qed.

(** X23: [_discover_entities] keeps the first match and misses none: an entity
  found in the first rows of a result has the same location whatever rows
  follow, and every row whose table matches a known entity has that entity
  reported. *)
Theorem discover_entities_first_wins rows :
  (forall rows' known loc,
     _discover_entities upper (Some rows) !! known = Some loc ->
     _discover_entities upper (Some (rows ++ rows')) !! known = Some loc) /\
  (forall row known,
     row ∈ rows ->
     List.find (matches_known (upper (table_name row))) KNOWN_ENTITIES
     = Some known ->
     is_Some (_discover_entities upper (Some rows) !! known)).
Proof.
  split.
  - intros rows' known loc H. unfold _discover_entities in *.
    rewrite fold_left_app. now apply fold_add_row_keeps.
  - intros row known Hin Hf. unfold _discover_entities.
    apply list_elem_of_split in Hin as (l1 & l2 & ->).
    rewrite fold_left_app. simpl.
    destruct (add_row_finds (fold_left (add_row upper) l1 ∅) row known Hf)
      as [loc Hloc].
    exists loc. now apply fold_add_row_keeps.
Qed.

End DiscoveryFacts.

(** A witness of X23, with the identity as [upper]: two tables that match
  [PROCESS_ENTITY]; the first one is kept. *)
Lemma discover_entities_first_wins_witness :
  system_config._discover_entities (fun s => s)
    (Some [system_config.mkRow "DB1" "S1" "PROCESS_ENTITY";
           system_config.mkRow "DB2" "S2" "PROCESS";
           system_config.mkRow "DB1" "S1" "ORDERS"])
    !! "PROCESS_ENTITY"%string
  = Some (system_config.mkLocation "DB1" "S1" "PROCESS_ENTITY").
Proof.
  assert (system_config._discover_entities (fun s => s)
            (Some [system_config.mkRow "DB1" "S1" "PROCESS_ENTITY"])
            !! "PROCESS_ENTITY"%string
          = Some (system_config.mkLocation "DB1" "S1" "PROCESS_ENTITY")) as H
    by (vm_compute; reflexivity).
  exact (proj1 (discover_entities_first_wins (fun s => s)
                  [system_config.mkRow "DB1" "S1" "PROCESS_ENTITY"])
           [system_config.mkRow "DB2" "S2" "PROCESS";
            system_config.mkRow "DB1" "S1" "ORDERS"]
           "PROCESS_ENTITY"%string _ H).
Defined.

(** A witness of X22, with the identity as [upper]:
  the legacy table name [ATLASGLOSSARY] is reported as
  [ATLASGLOSSARY_ENTITY]. *)
Lemma discover_entities_sound_witness :
  system_config._discover_entities (fun s => s)
    (Some [system_config.mkRow "DB1" "S1" "ATLASGLOSSARY"])
    !! "ATLASGLOSSARY_ENTITY"%string
  = Some (system_config.mkLocation "DB1" "S1" "ATLASGLOSSARY") /\
  "ATLASGLOSSARY_ENTITY"%string ∈ system_config.KNOWN_ENTITIES /\
  str_replace "_ENTITY" "" "ATLASGLOSSARY_ENTITY" = "ATLASGLOSSARY"%string.
Proof.
  assert (system_config._discover_entities (fun s => s)
            (Some [system_config.mkRow "DB1" "S1" "ATLASGLOSSARY"])
            !! "ATLASGLOSSARY_ENTITY"%string
          = Some (system_config.mkLocation "DB1" "S1" "ATLASGLOSSARY")) as H
    by (vm_compute; reflexivity).
  split; [exact H|].
  destruct (discover_entities_sound (fun s => s)
              [system_config.mkRow "DB1" "S1" "ATLASGLOSSARY"]) as (Hs & _).
  destruct (Hs _ _ H) as (Hin & _ & _).
  split; [exact Hin|]. vm_compute. reflexivity.
Defined.

(* ===================================================================== *)
(** * TTLCache: what a call for one key leaves of another key *)
(* ===================================================================== *)

Section OrderedDictOrder.
Context {V : Type}.
Implicit Types (d : list (string * V)).

Lemma od_get_Some_key d k v :
  OrderedDict.get k d = Some v -> k ∈ OrderedDict.keys d.
Proof.
  intros H. destruct (decide (k ∈ OrderedDict.keys d)) as [Hin|Hout];
    [exact Hin|].
  apply od_get_None in Hout. congruence.
Qed.

Lemma od_get_sublist d' d k v :
  sublist d' d -> OrderedDict.wf d ->
  OrderedDict.get k d' = Some v -> OrderedDict.get k d = Some v.
Proof.
  unfold OrderedDict.wf.
  induction 1 as [|[k' v'] l1 l2 Hsub IH|[k' v'] l1 l2 Hsub IH]; simpl;
    intros Hwf Hg.
  - discriminate.
  - apply NoDup_cons in Hwf as [_ Hwf].
    destruct (String.eqb k k'); [exact Hg|now apply IH].
  - apply NoDup_cons in Hwf as [Hk Hwf]. specialize (IH Hwf Hg).
    destruct (String.eqb_spec k k') as [->|Hne]; [|exact IH].
    exfalso. apply Hk. eapply od_get_Some_key. exact IH.
Qed.

Lemma od_get_sublist_None d' d k :
  sublist d' d -> OrderedDict.get k d = None -> OrderedDict.get k d' = None.
Proof.
  rewrite !od_get_None. intros Hsub H Hin. apply H.
  eapply elem_of_sublist; [exact Hin|]. now apply od_keys_sublist.
Qed.

Lemma keys_after_sublist k d :
  sublist (OrderedDict.keys_after k d) (OrderedDict.keys d).
Proof.
  induction d as [|[k' v'] d IH]; simpl; [constructor|].
  destruct (String.eqb k k'); apply sublist_cons; [reflexivity|exact IH].
Qed.

Lemma keys_after_filter (f : string * V -> bool) k v d :
  OrderedDict.get k d = Some v -> f (k, v) = true ->
  OrderedDict.get k (List.filter f d) = Some v /\
  sublist (OrderedDict.keys_after k (List.filter f d))
          (OrderedDict.keys_after k d).
Proof.
  induction d as [|[k' v'] d IH]; simpl; [discriminate|].
  destruct (String.eqb_spec k k') as [->|Hne].
  - intros [= ->] Hf. rewrite Hf. simpl. rewrite String.eqb_refl.
    split; [reflexivity|]. apply od_keys_sublist, filter_sublist.
  - intros Hg Hf. destruct (f (k', v')); simpl;
      [destruct (String.eqb_spec k k'); [contradiction|]|]; now apply IH.
Qed.

Lemma od_get_filter_out (f : string * V -> bool) k v d :
  OrderedDict.wf d -> OrderedDict.get k d = Some v -> f (k, v) = false ->
  OrderedDict.get k (List.filter f d) = None.
Proof.
  unfold OrderedDict.wf.
  induction d as [|[k' v'] d IH]; simpl; [discriminate|].
  intros Hwf. apply NoDup_cons in Hwf as [Hk Hwf].
  destruct (String.eqb_spec k k') as [->|Hne].
  - intros [= ->] Hf. rewrite Hf. apply od_get_None. intros Hin. apply Hk.
    eapply elem_of_sublist; [exact Hin|]. apply od_keys_sublist, filter_sublist.
  - intros Hg Hf. destruct (f (k', v')); simpl;
      [destruct (String.eqb_spec k k'); [contradiction|]|]; now apply IH.
Qed.

Lemma keys_after_remove k k' d :
  k' <> k ->
  sublist (OrderedDict.keys_after k (OrderedDict.remove k' d))
          (OrderedDict.keys_after k d).
Proof.
  intros Hne. induction d as [|[k0 v0] d IH]; simpl; [constructor|].
  destruct (String.eqb_spec k' k0) as [->|Hne0].
  - destruct (String.eqb_spec k k0); [congruence|reflexivity].
  - simpl. destruct (String.eqb_spec k k0).
    + apply od_keys_sublist, od_remove_sublist.
    + exact IH.
Qed.

Lemma keys_after_app k v d d' :
  OrderedDict.get k d = Some v ->
  OrderedDict.keys_after k (d ++ d')
  = OrderedDict.keys_after k d ++ OrderedDict.keys d'.
Proof.
  induction d as [|[k0 v0] d IH]; simpl; [discriminate|].
  destruct (String.eqb k k0); intros Hg; [apply od_keys_app|now apply IH].
Qed.

Lemma keys_after_last k v d :
  OrderedDict.get k d = None -> OrderedDict.keys_after k (d ++ [(k, v)]) = [].
Proof.
  induction d as [|[k0 v0] d IH]; simpl.
  - now rewrite String.eqb_refl.
  - destruct (String.eqb k k0); [discriminate|exact IH].
Qed.

(** Moving [key] to the newest end, or storing it there, as seen from
  another key [sid]. *)
Lemma store_last_frame key sid (e : V) d :
  key <> sid ->
  OrderedDict.get sid (OrderedDict.remove key d ++ [(key, e)])
  = OrderedDict.get sid d /\
  forall x y,
    OrderedDict.get sid d = Some x ->
    y ∈ OrderedDict.keys_after sid (OrderedDict.remove key d ++ [(key, e)]) ->
    y = key \/ y ∈ OrderedDict.keys_after sid d.
Proof.
  intros Hne.
  assert (OrderedDict.get sid (OrderedDict.remove key d ++ [(key, e)])
          = OrderedDict.get sid d) as Hg.
  { rewrite od_get_app, (od_get_remove_other _ key sid Hne).
    destruct (OrderedDict.get sid d); [reflexivity|]. simpl.
    destruct (String.eqb_spec sid key); [congruence|reflexivity]. }
  split; [exact Hg|]. intros x y Hx Hy.
  rewrite (keys_after_app sid x) in Hy
    by now rewrite (od_get_remove_other _ key sid Hne).
  apply elem_of_app in Hy as [Hy|Hy].
  - right. eapply elem_of_sublist; [exact Hy|]. now apply keys_after_remove.
  - left. simpl in Hy. now apply list_elem_of_singleton in Hy.
Qed.

End OrderedDictOrder.

Section TTLCacheFrame.
Context {V : Type}.
Implicit Types (c : TTLCache.t V).

(** A lookup that finds a live item returns it and leaves it last. *)
Lemma ttl_get_hit time key c v e :
  OrderedDict.wf (TTLCache.items c) ->
  OrderedDict.get key (TTLCache.items c) = Some (v, e) -> (time < e)%Q ->
  exists c',
    TTLCache.get time key c = (c', Some v) /\
    TTLCache.maxsize c' = TTLCache.maxsize c /\
    TTLCache.ttl c' = TTLCache.ttl c /\
    OrderedDict.wf (TTLCache.items c') /\
    TTLCache.currsize c' = TTLCache.currsize c /\
    OrderedDict.get key (TTLCache.items c') = Some (v, e) /\
    OrderedDict.keys_after key (TTLCache.items c') = [].
Proof.
  intros Hwf Hg Hlive. unfold TTLCache.get, OrderedDict.move_to_end.
  rewrite Hg. apply Qltb_lt in Hlive. rewrite Hlive.
  eexists. split; [reflexivity|]. simpl.
  split; [reflexivity|]. split; [reflexivity|].
  split; [now apply od_wf_store_last|]. split.
  { unfold TTLCache.currsize. simpl. rewrite length_app. simpl.
    pose proof (od_remove_length _ _ _ Hg). lia. }
  split.
  - rewrite od_get_app, (od_get_remove_same _ _ Hwf). simpl.
    now rewrite String.eqb_refl.
  - apply keys_after_last. now apply od_get_remove_same.
Qed.

(** A lookup for [key], as seen from another key [sid]. *)
Lemma ttl_get_frame time key c sid :
  key <> sid -> OrderedDict.wf (TTLCache.items c) ->
  TTLCache.maxsize (fst (TTLCache.get time key c)) = TTLCache.maxsize c /\
  TTLCache.ttl (fst (TTLCache.get time key c)) = TTLCache.ttl c /\
  OrderedDict.wf (TTLCache.items (fst (TTLCache.get time key c))) /\
  TTLCache.currsize (fst (TTLCache.get time key c)) = TTLCache.currsize c /\
  OrderedDict.get sid (TTLCache.items (fst (TTLCache.get time key c)))
  = OrderedDict.get sid (TTLCache.items c) /\
  forall x y,
    OrderedDict.get sid (TTLCache.items c) = Some x ->
    y ∈ OrderedDict.keys_after sid
          (TTLCache.items (fst (TTLCache.get time key c))) ->
    y = key \/ y ∈ OrderedDict.keys_after sid (TTLCache.items c).
Proof.
  intros Hne Hwf. unfold TTLCache.get, OrderedDict.move_to_end.
  destruct (OrderedDict.get key (TTLCache.items c)) as [[v e]|] eqn:Hg;
    [destruct (Qltb time e)|]; simpl;
    try (repeat split; auto; fail).
  destruct (store_last_frame key sid (v, e) (TTLCache.items c) Hne)
    as [Hsame Hafter].
  split; [reflexivity|]. split; [reflexivity|].
  split; [now apply od_wf_store_last|]. split.
  { unfold TTLCache.currsize. simpl. rewrite length_app. simpl.
    pose proof (od_remove_length _ _ _ Hg). lia. }
  split; [exact Hsame|exact Hafter].
Qed.

(** The eviction loop of [__setitem__] does not reach an item with fewer
  than [maxsize - 1] items behind it. *)
Lemma ttl_popitem_loop_keeps c sid x :
  1 <= TTLCache.maxsize c ->
  OrderedDict.get sid (TTLCache.items c) = Some x ->
  Z.of_nat (length (OrderedDict.keys_after sid (TTLCache.items c))) + 1
  < TTLCache.maxsize c ->
  exists c2,
    while (Datatypes.S (length (TTLCache.items c))) TTLCache.full
          TTLCache.popitem c = Some c2 /\
    OrderedDict.get sid (TTLCache.items c2) = Some x /\
    OrderedDict.keys_after sid (TTLCache.items c2)
    = OrderedDict.keys_after sid (TTLCache.items c).
Proof.
  intros Hmax Hg Hroom.
  destruct (while_ends (fun y => length (TTLCache.items y))
              (fun y => TTLCache.maxsize y = TTLCache.maxsize c /\
                        OrderedDict.get sid (TTLCache.items y) = Some x /\
                        OrderedDict.keys_after sid (TTLCache.items y)
                        = OrderedDict.keys_after sid (TTLCache.items c))
              TTLCache.full TTLCache.popitem) with
      (fuel := Datatypes.S (length (TTLCache.items c))) (s := c)
    as (c2 & W & _ & _ & G2 & K2); auto.
  - intros y (M & G & K) Hfull.
    unfold TTLCache.full, TTLCache.currsize in Hfull.
    rewrite Z.gtb_ltb in Hfull. apply Z.ltb_lt in Hfull.
    destruct (TTLCache.items y) as [|[k0 v0] l] eqn:Hy; [discriminate|].
    simpl in G, K. simpl. rewrite Hy. simpl.
    destruct (String.eqb_spec sid k0) as [->|Hne].
    + exfalso. rewrite <- K in Hroom. unfold OrderedDict.keys in Hroom.
      rewrite length_map in Hroom. simpl in Hfull. lia.
    + repeat split; auto.
  - exists c2. auto.
Qed.

(** The steps of [__setitem__]: expiry, eviction while the cache is full
  (for a new key), and the store at the newest end. *)
Lemma ttl_setitem_shape time key (value : V) c :
  1 <= TTLCache.maxsize c ->
  OrderedDict.wf (TTLCache.items c) ->
  TTLCache.currsize c <= TTLCache.maxsize c ->
  exists c2,
    TTLCache.__setitem__ time key value c
    = Some (TTLCache.set_items
              (OrderedDict.remove key (TTLCache.items c2)
               ++ [(key, (value, (time + inject_Z (TTLCache.ttl c))%Q))]) c2) /\
    TTLCache.maxsize c2 = TTLCache.maxsize c /\
    TTLCache.ttl c2 = TTLCache.ttl c /\
    sublist (TTLCache.items c2) (TTLCache.items (TTLCache.expire time c)) /\
    OrderedDict.wf (TTLCache.items c2) /\
    (length (OrderedDict.remove key (TTLCache.items c2)) + 1
     <= Z.to_nat (TTLCache.maxsize c))%nat /\
    match OrderedDict.get key (TTLCache.items (TTLCache.expire time c)) with
    | Some _ => c2 = TTLCache.expire time c
    | None =>
        while (Datatypes.S (length (TTLCache.items (TTLCache.expire time c))))
              TTLCache.full TTLCache.popitem (TTLCache.expire time c)
        = Some c2
    end.
Proof.
  intros Hmax Hwf Hsize. unfold TTLCache.__setitem__.
  set (c1 := TTLCache.expire time c).
  assert (sublist (TTLCache.items c1) (TTLCache.items c)) as S1
    by apply filter_sublist.
  assert (OrderedDict.wf (TTLCache.items c1)) as Hwf1.
  { eapply sublist_NoDup; [exact Hwf|]. now apply od_keys_sublist. }
  assert ((1 >? TTLCache.maxsize c1) = false) as ->.
  { simpl. rewrite Z.gtb_ltb. apply Z.ltb_ge. exact Hmax. }
  destruct (OrderedDict.get key (TTLCache.items c1)) as [v|] eqn:Hg.
  - exists c1. split; [reflexivity|]. repeat split; auto.
    pose proof (od_remove_length _ _ _ Hg) as Hl.
    pose proof (sublist_length _ _ S1). unfold TTLCache.currsize in Hsize.
    lia.
  - destruct (ttl_popitem_loop c1 Hmax) as (c2 & W & F & M & T & S).
    exists c2. rewrite W. simpl in M, T.
    split; [now rewrite T|]. split; [exact M|]. split; [exact T|].
    split; [exact S|]. split.
    { eapply sublist_NoDup; [exact Hwf1|]. now apply od_keys_sublist. }
    split; [|reflexivity].
    unfold TTLCache.full, TTLCache.currsize in F.
    rewrite Z.gtb_ltb in F. apply Z.ltb_ge in F.
    pose proof (sublist_length _ _
                  (od_remove_sublist (TTLCache.items c2) key)).
    lia.
Qed.

(** Storing under [key]: the call returns, the cache keeps its limits and
  stays within its size, and the new item is the newest. *)
Lemma ttl_setitem_last time key (value : V) c :
  1 <= TTLCache.maxsize c ->
  OrderedDict.wf (TTLCache.items c) ->
  TTLCache.currsize c <= TTLCache.maxsize c ->
  exists c',
    TTLCache.__setitem__ time key value c = Some c' /\
    TTLCache.maxsize c' = TTLCache.maxsize c /\
    TTLCache.ttl c' = TTLCache.ttl c /\
    TTLCache.holds_for key value (time + inject_Z (TTLCache.ttl c))%Q [] c'.
Proof.
  intros Hmax Hwf Hsize.
  destruct (ttl_setitem_shape time key value c Hmax Hwf Hsize)
    as (c2 & E & M & T & S & W & L & _).
  eexists. split; [exact E|]. simpl. split; [exact M|]. split; [exact T|].
  unfold TTLCache.holds_for, TTLCache.currsize. simpl.
  split; [now apply od_wf_store_last|]. split.
  { rewrite length_app. simpl. lia. }
  split.
  - rewrite od_get_app, (od_get_remove_same _ _ W). simpl.
    now rewrite String.eqb_refl.
  - rewrite keys_after_last by now apply od_get_remove_same.
    intros k Hk. exact Hk.
Qed.

(** Storing under [key] after a lookup that missed, as seen from another
  key [sid]: nothing appears under [sid], and a live item under [sid]
  stays when fewer than [maxsize] other keys were used since. *)
Lemma ttl_setitem_frame time key (value : V) c c' sid :
  1 <= TTLCache.maxsize c ->
  OrderedDict.wf (TTLCache.items c) ->
  TTLCache.currsize c <= TTLCache.maxsize c ->
  key <> sid ->
  snd (TTLCache.get time key c) = None ->
  TTLCache.__setitem__ time key value c = Some c' ->
  (forall x,
     OrderedDict.get sid (TTLCache.items c') = Some x ->
     OrderedDict.get sid (TTLCache.items c) = Some x) /\
  (forall x others,
     OrderedDict.get sid (TTLCache.items c) = Some x ->
     (time < snd x)%Q ->
     key ∈ others ->
     (forall y, y ∈ OrderedDict.keys_after sid (TTLCache.items c) ->
                y ∈ others) ->
     Z.of_nat (length others) < TTLCache.maxsize c ->
     OrderedDict.get sid (TTLCache.items c') = Some x /\
     forall y, y ∈ OrderedDict.keys_after sid (TTLCache.items c') ->
               y ∈ others).
Proof.
  intros Hmax Hwf Hsize Hne Hmiss E.
  destruct (ttl_setitem_shape time key value c Hmax Hwf Hsize)
    as (c2 & E2 & M & T & S & W & L & Hloop).
  rewrite E2 in E. injection E as <-. simpl.
  set (c1 := TTLCache.expire time c) in *.
  assert (sublist (TTLCache.items c1) (TTLCache.items c)) as S1
    by apply filter_sublist.
  assert (OrderedDict.wf (TTLCache.items c1)) as Hwf1.
  { eapply sublist_NoDup; [exact Hwf|]. now apply od_keys_sublist. }
  assert (OrderedDict.get key (TTLCache.items c1) = None) as Hkey.
  { unfold TTLCache.get in Hmiss.
    destruct (OrderedDict.get key (TTLCache.items c)) as [[v e]|] eqn:Hg.
    - destruct (Qltb time e) eqn:Hlive; [discriminate|].
      now apply (od_get_filter_out _ key (v, e)).
    - now apply (od_get_sublist_None _ (TTLCache.items c)). }
  rewrite Hkey in Hloop.
  destruct (store_last_frame key sid
              (value, (time + inject_Z (TTLCache.ttl c))%Q)
              (TTLCache.items c2) Hne) as [Hsame Hafter].
  split.
  - intros x Hx. rewrite Hsame in Hx.
    apply (od_get_sublist (TTLCache.items c1)); [exact S1|exact Hwf|].
    now apply (od_get_sublist (TTLCache.items c2)).
  - intros x others Hx Hlive Hin Hothers Hroom.
    destruct (keys_after_filter (TTLCache.live time) sid x (TTLCache.items c) Hx)
      as [Hx1 K1].
    { destruct x as [v e]. unfold TTLCache.live. simpl.
      now apply Qltb_lt. }
    fold (TTLCache.items c1) in Hx1, K1.
    assert (forall y, y ∈ OrderedDict.keys_after sid (TTLCache.items c1) ->
                      y ∈ others) as Hothers1.
    { intros y Hy. apply Hothers. eapply elem_of_sublist; eauto. }
    assert (Z.of_nat (length (OrderedDict.keys_after sid (TTLCache.items c1)))
            + 1 < TTLCache.maxsize c1) as Hroom1.
    { assert (key :: OrderedDict.keys_after sid (TTLCache.items c1)
              ⊆+ others) as Hsub.
      { apply NoDup_submseteq.
        - apply NoDup_cons. split.
          + intros Hk. apply od_get_None in Hkey. apply Hkey.
            eapply elem_of_sublist; [exact Hk|]. apply keys_after_sublist.
          + eapply sublist_NoDup; [exact Hwf1|]. apply keys_after_sublist.
        - intros y Hy. apply elem_of_cons in Hy as [->|Hy]; auto. }
      apply submseteq_length in Hsub. simpl in Hsub. simpl. lia. }
    destruct (ttl_popitem_loop_keeps c1 sid x Hmax Hx1 Hroom1)
      as (c2' & W' & G2 & K2).
    rewrite W' in Hloop. injection Hloop as <-.
    split; [now rewrite Hsame|].
    intros y Hy. destruct (Hafter x y G2 Hy) as [->|Hy']; [exact Hin|].
    apply Hothers1. now rewrite <- K2.
Qed.
End TTLCacheFrame.

Section ConfigFacts.
Import system_config.
Variable upper : string -> string.

(** X24: No feature is lost by finding more: when every entity of [found] is
  also in [found'], every feature that [found] enables is enabled by
  [found'] too.  [queryHistory] is never enabled, and without entities no
  feature is. *)
Theorem features_monotone found found' :
  (forall k, has k found = true -> has k found' = true) ->
  (lineage (_determine_features found) = true ->
   lineage (_determine_features found') = true) /\
  (glossary (_determine_features found) = true ->
   glossary (_determine_features found') = true) /\
  (biUsage (_determine_features found) = true ->
   biUsage (_determine_features found') = true) /\
  (dbt (_determine_features found) = true ->
   dbt (_determine_features found') = true) /\
  (governance (_determine_features found) = true ->
   governance (_determine_features found') = true) /\
  queryHistory (_determine_features found') = false /\
  _determine_features ∅ = mkFeatures false false false false false false.
Proof.
  intros Hsub. simpl.
  repeat split; try reflexivity; intros H;
    repeat (apply andb_true_iff in H as [? H] || apply orb_true_iff in H as [H|H]);
    repeat (apply andb_true_iff; split);
    repeat rewrite orb_true_iff; auto 10.
Qed.

(** Further rows of a result never turn a feature off. *)
Lemma more_rows_more_entities rows rows' k :
  has k (_discover_entities upper (Some rows)) = true ->
  has k (_discover_entities upper (Some (rows ++ rows'))) = true.
Proof.
  rewrite !has_true. intros [loc H]. exists loc.
  unfold _discover_entities in *. rewrite fold_left_app.
  now apply fold_add_row_keeps.
Qed.

(** X25: What the status of a discovery says.  [success] tells that
  [conn.cursor()] did not raise, and nothing more: a query that raised
  leaves [success] true with no entity (or no table) found, and so does a
  [cursor.close()] that raised, which only adds its message to [errors].
  The counts are the sizes of what the config holds, the features are those
  of its entities, and the metadata location is that of [PROCESS_ENTITY]
  when it was found and [FIELD_METADATA.PUBLIC] otherwise. *)
Theorem discovery_status conn :
  (success (discoveryStatus (discover upper conn)) = true
   <-> cursor_error conn = None) /\
  (errors (discoveryStatus (discover upper conn)) = []
   <-> cursor_error conn = None /\ close_error conn = None) /\
  entitiesFound (discoveryStatus (discover upper conn))
  = Z.of_nat (size (entities (discover upper conn))) /\
  tablesFound (discoveryStatus (discover upper conn))
  = Z.of_nat (length (catalog_tables (discover upper conn))) /\
  features (discover upper conn)
  = _determine_features (entities (discover upper conn)) /\
  (cursor_error conn = None -> entity_rows conn = None ->
   success (discoveryStatus (discover upper conn)) = true /\
   entities (discover upper conn) = ∅) /\
  queryDefaults (discover upper conn)
  = match entities (discover upper conn) !! "PROCESS_ENTITY"%string with
    | Some proc => mkQueryDefaults (loc_database proc) (loc_schema proc) 10000 60
    | None => mkQueryDefaults "FIELD_METADATA" "PUBLIC" 10000 60
    end.
Proof.
  unfold discover. destruct (cursor_error conn) as [e|] eqn:Hc; simpl.
  - split; [split; discriminate|]. split; [split; [discriminate|]|].
    { intros [H _]. discriminate. }
    do 3 (split; [reflexivity|]). split; [discriminate|reflexivity].
  - split; [split; reflexivity|]. split.
    { split.
      - destruct (close_error conn); [discriminate|auto].
      - intros [_ ->]. reflexivity. }
    do 3 (split; [reflexivity|]). split; [|reflexivity].
    intros _ ->. split; reflexivity.
Qed.

Lemma ttl_get_miss {V : Type} time key (c : TTLCache.t V) :
  snd (TTLCache.get time key c) = None -> fst (TTLCache.get time key c) = c.
Proof.
  unfold TTLCache.get. destruct (OrderedDict.get key (TTLCache.items c))
    as [[v e]|]; [|reflexivity].
  destruct (Qltb time e); [discriminate|reflexivity].
Qed.

(** A call that finds no live config runs the discovery and stores its
  config as the newest item, to expire [ttl] seconds later. *)
Lemma build_config_miss time conn session_id c :
  1 <= TTLCache.maxsize c ->
  OrderedDict.wf (TTLCache.items c) ->
  TTLCache.currsize c <= TTLCache.maxsize c ->
  snd (TTLCache.get time session_id c) = None ->
  exists c1,
    build_system_config upper time conn session_id c
    = Some (c1, discover upper conn) /\
    TTLCache.maxsize c1 = TTLCache.maxsize c /\
    TTLCache.ttl c1 = TTLCache.ttl c /\
    TTLCache.holds_for session_id (discover upper conn)
      (time + inject_Z (TTLCache.ttl c))%Q [] c1.
Proof.
  intros Hmax Hwf Hsize Hmiss.
  pose proof (ttl_get_miss _ _ _ Hmiss) as Hsame.
  destruct (ttl_setitem_last time session_id (discover upper conn) c
              Hmax Hwf Hsize) as (c1 & E & M1 & T1 & H1).
  exists c1. split; [|auto].
  unfold build_system_config.
  destruct (TTLCache.get time session_id c) as [c' r]. simpl in *.
  subst. now rewrite E.
Qed.

(** A call that finds a live config returns it and runs no discovery. *)
Lemma build_config_hit time conn session_id c cached expires :
  OrderedDict.get session_id (TTLCache.items c) = Some (cached, expires) ->
  (time < expires)%Q ->
  exists c2,
    build_system_config upper time conn session_id c = Some (c2, cached).
Proof.
  intros Hg Hlive. unfold build_system_config, TTLCache.get. rewrite Hg.
  assert (Qltb time expires = true) as -> by now apply Qltb_lt.
  eexists. reflexivity.
Qed.

(** One call, for the session or for one of [others], while the config of
  the session is cached and live: the config stays cached. *)
Lemma build_keeps_served b session_id cached expires others c :
  Z.of_nat (length others) < TTLCache.maxsize c ->
  TTLCache.holds_for session_id cached expires others c ->
  build_session b ∈ session_id :: others ->
  (build_time b < expires)%Q ->
  exists c' cfg,
    build_system_config upper (build_time b) (build_conn b) (build_session b)
                        c = Some (c', cfg) /\
    TTLCache.maxsize c' = TTLCache.maxsize c /\
    TTLCache.ttl c' = TTLCache.ttl c /\
    TTLCache.holds_for session_id cached expires others c'.
Proof.
  intros Hroom (Hwf & Hsize & Hg & Hothers) Hin Hlive.
  destruct (decide (build_session b = session_id)) as [->|Hne].
  - destruct (ttl_get_hit (build_time b) session_id c cached expires
                Hwf Hg Hlive) as (c' & E & M & T & W & S & G & K).
    exists c', cached. unfold build_system_config. rewrite E.
    split; [reflexivity|]. split; [exact M|]. split; [exact T|].
    split; [exact W|]. split; [lia|]. split; [exact G|].
    rewrite K. intros k Hk. now apply not_elem_of_nil in Hk.
  - assert (build_session b ∈ others) as Hin'.
    { apply elem_of_cons in Hin as [?|?]; [contradiction|assumption]. }
    destruct (ttl_get_frame (build_time b) (build_session b) c session_id
                Hne Hwf) as (M & T & W & S & G & K).
    unfold build_system_config.
    destruct (TTLCache.get (build_time b) (build_session b) c)
      as [c1 [cfg|]] eqn:E; simpl in M, T, W, S, G, K.
    + exists c1, cfg. split; [reflexivity|]. split; [exact M|].
      split; [exact T|]. split; [exact W|]. split; [lia|].
      split; [now rewrite G|].
      intros k Hk. destruct (K _ _ Hg Hk) as [->|Hk']; auto.
    + assert (snd (TTLCache.get (build_time b) (build_session b) c) = None)
        as Hmiss by now rewrite E.
      pose proof (ttl_get_miss _ _ _ Hmiss) as Hsame.
      rewrite E in Hsame. simpl in Hsame. subst c1.
      destruct (ttl_setitem_last (build_time b) (build_session b)
                  (discover upper (build_conn b)) c)
        as (c' & E' & M' & T' & (W' & S' & _)); [lia|exact Hwf|exact Hsize|].
      rewrite E'. exists c', (discover upper (build_conn b)).
      split; [reflexivity|]. split; [exact M'|]. split; [exact T'|].
      destruct (ttl_setitem_frame (build_time b) (build_session b)
                  (discover upper (build_conn b)) c c' session_id)
        as [_ Hkeep]; [lia|exact Hwf|exact Hsize|exact Hne|exact Hmiss
                      |exact E'|].
      destruct (Hkeep (cached, expires) others Hg Hlive Hin' Hothers Hroom)
        as [G' K'].
      split; [exact W'|]. split; [exact S'|]. split; [exact G'|exact K'].
Qed.

Lemma builds_keep_served calls : forall session_id cached expires others c,
  Z.of_nat (length others) < TTLCache.maxsize c ->
  TTLCache.holds_for session_id cached expires others c ->
  Forall (fun b => build_session b ∈ session_id :: others /\
                   (build_time b < expires)%Q) calls ->
  exists c',
    builds upper calls c = Some c' /\
    TTLCache.holds_for session_id cached expires others c'.
Proof.
  induction calls as [|b calls IH];
    intros session_id cached expires others c Hroom Hc Hcalls.
  - exists c. split; [reflexivity|exact Hc].
  - apply Forall_cons in Hcalls as [[Hin Hlive] Hcalls]. simpl.
    destruct (build_keeps_served b session_id cached expires others c
                Hroom Hc Hin Hlive) as (c1 & cfg & E & M & _ & Hc1).
    rewrite E. apply IH; [now rewrite M|exact Hc1|exact Hcalls].
Qed.

(** One call for another session: what the cache holds for the session,
  if anything, is what it held before. *)
Lemma build_keeps_stale b session_id expires c :
  1 <= TTLCache.maxsize c ->
  TTLCache.stale_by session_id expires c ->
  build_session b <> session_id ->
  exists c' cfg,
    build_system_config upper (build_time b) (build_conn b) (build_session b)
                        c = Some (c', cfg) /\
    TTLCache.maxsize c' = TTLCache.maxsize c /\
    TTLCache.stale_by session_id expires c'.
Proof.
  intros Hmax (Hwf & Hsize & Hst) Hne.
  destruct (ttl_get_frame (build_time b) (build_session b) c session_id
              Hne Hwf) as (M & T & W & S & G & _).
  unfold build_system_config.
  destruct (TTLCache.get (build_time b) (build_session b) c)
    as [c1 [cfg|]] eqn:E; simpl in M, T, W, S, G.
  - exists c1, cfg. split; [reflexivity|]. split; [exact M|].
    split; [exact W|]. split; [lia|].
    intros v e Hv. rewrite G in Hv. eauto.
  - assert (snd (TTLCache.get (build_time b) (build_session b) c) = None)
      as Hmiss by now rewrite E.
    pose proof (ttl_get_miss _ _ _ Hmiss) as Hsame.
    rewrite E in Hsame. simpl in Hsame. subst c1.
    destruct (ttl_setitem_last (build_time b) (build_session b)
                (discover upper (build_conn b)) c)
      as (c' & E' & M' & T' & (W' & S' & _)); [lia|exact Hwf|exact Hsize|].
    rewrite E'. exists c', (discover upper (build_conn b)).
    split; [reflexivity|]. split; [exact M'|].
    destruct (ttl_setitem_frame (build_time b) (build_session b)
                (discover upper (build_conn b)) c c' session_id)
      as [Hold _]; [lia|exact Hwf|exact Hsize|exact Hne|exact Hmiss
                   |exact E'|].
    split; [exact W'|]. split; [exact S'|].
    intros v e Hv. apply Hold in Hv. eauto.
Qed.

Lemma builds_keep_stale calls : forall session_id expires c,
  1 <= TTLCache.maxsize c ->
  TTLCache.stale_by session_id expires c ->
  Forall (fun b => build_session b <> session_id) calls ->
  exists c',
    builds upper calls c = Some c' /\
    TTLCache.maxsize c' = TTLCache.maxsize c /\
    TTLCache.stale_by session_id expires c'.
Proof.
  induction calls as [|b calls IH]; intros session_id expires c Hmax Hc Hcalls.
  - exists c. split; [reflexivity|]. split; [reflexivity|exact Hc].
  - apply Forall_cons in Hcalls as [Hne Hcalls]. simpl.
    destruct (build_keeps_stale b session_id expires c Hmax Hc Hne)
      as (c1 & cfg & E & M & Hc1).
    rewrite E.
    destruct (IH session_id expires c1) as (c' & E' & M' & Hc');
      [lia|exact Hc1|exact Hcalls|].
    exists c'. split; [exact E'|]. split; [lia|exact Hc'].
Qed.

(** What follows a call that stored a config for the session.  While the
  config is live it is served, whatever calls come in between for the
  session and for fewer than [maxsize] other sessions; once it has expired
  the next call for the session runs the discovery again, whatever calls
  for other sessions came in between. *)
Lemma served_until_expiry session_id cached expires c1 :
  1 <= TTLCache.maxsize c1 ->
  TTLCache.holds_for session_id cached expires [] c1 ->
  (forall others calls time' conn',
     Z.of_nat (length others) < TTLCache.maxsize c1 ->
     Forall (fun b => build_session b ∈ session_id :: others /\
                      (build_time b < expires)%Q) calls ->
     (time' < expires)%Q ->
     exists c2 c3,
       builds upper calls c1 = Some c2 /\
       build_system_config upper time' conn' session_id c2
       = Some (c3, cached)) /\
  (forall calls time' conn',
     Forall (fun b => build_session b <> session_id) calls ->
     (expires <= time')%Q ->
     exists c2 c3,
       builds upper calls c1 = Some c2 /\
       build_system_config upper time' conn' session_id c2
       = Some (c3, discover upper conn')).
Proof.
  intros Hmax (Hwf & Hsize & Hg & Hnone). split.
  - intros others calls time' conn' Hroom Hcalls Hlive.
    destruct (builds_keep_served calls session_id cached expires others c1)
      as (c2 & E & (_ & _ & G2 & _)); [exact Hroom| |exact Hcalls|].
    { split; [exact Hwf|]. split; [exact Hsize|]. split; [exact Hg|].
      intros k Hk. apply Hnone in Hk. now apply not_elem_of_nil in Hk. }
    destruct (build_config_hit time' conn' session_id c2 cached expires
                G2 Hlive) as (c3 & E3).
    exists c2, c3. split; [exact E|exact E3].
  - intros calls time' conn' Hcalls Hdead.
    destruct (builds_keep_stale calls session_id expires c1 Hmax)
      as (c2 & E & M2 & (W2 & S2 & St2)); [|exact Hcalls|].
    { split; [exact Hwf|]. split; [exact Hsize|].
      intros v e Hv. rewrite Hg in Hv. injection Hv as _ <-.
      apply Qle_refl. }
    destruct (build_config_miss time' conn' session_id c2)
      as (c3 & E3 & _); [lia|exact W2|exact S2| |].
    + unfold TTLCache.get.
      destruct (OrderedDict.get session_id (TTLCache.items c2))
        as [[v e]|] eqn:Hv; [|reflexivity].
      assert (Qltb time' e = false) as ->; [|reflexivity].
      apply Qltb_ge. apply Qle_trans with expires; [eauto|exact Hdead].
    + exists c2, c3. split; [exact E|exact E3].
Qed.

(** X26: A config is discovered once and then served from the cache.  When
  the cache has no live config for the session, [build_system_config] runs
  the discovery and returns its config.  From then on, every call for the
  session less than [ttl] seconds later returns that same config, whatever
  the connection would answer by then (a failed discovery is served from
  the cache like a successful one) and whatever calls came in between for
  the session and for fewer than [maxsize] other sessions.  A call [ttl]
  seconds later or after runs the discovery again, whatever calls for other
  sessions came in between. *)
Theorem config_served_from_cache time conn session_id c :
  1 <= TTLCache.maxsize c ->
  OrderedDict.wf (TTLCache.items c) ->
  TTLCache.currsize c <= TTLCache.maxsize c ->
  snd (TTLCache.get time session_id c) = None ->
  exists c1,
    build_system_config upper time conn session_id c
    = Some (c1, discover upper conn) /\
    (forall others calls time' conn',
       Z.of_nat (length others) < TTLCache.maxsize c ->
       Forall (fun b =>
                 build_session b ∈ session_id :: others /\
                 (build_time b < time + inject_Z (TTLCache.ttl c))%Q) calls ->
       (time' < time + inject_Z (TTLCache.ttl c))%Q ->
       exists c2 c3,
         builds upper calls c1 = Some c2 /\
         build_system_config upper time' conn' session_id c2
         = Some (c3, discover upper conn)) /\
    (forall calls time' conn',
       Forall (fun b => build_session b <> session_id) calls ->
       (time + inject_Z (TTLCache.ttl c) <= time')%Q ->
       exists c2 c3,
         builds upper calls c1 = Some c2 /\
         build_system_config upper time' conn' session_id c2
         = Some (c3, discover upper conn')).
Proof.
  intros Hmax Hwf Hsize Hmiss.
  destruct (build_config_miss time conn session_id c Hmax Hwf Hsize Hmiss)
    as (c1 & E & M1 & T1 & H1).
  exists c1. split; [exact E|].
  rewrite <- M1.
  apply (served_until_expiry session_id (discover upper conn)
           (time + inject_Z (TTLCache.ttl c))%Q c1); [lia|exact H1].
Qed.

(** X27: [refresh_config] always runs the discovery: whatever the cache
  holds for the session, the config returned is the one discovered now,
  and it is the config that every call for the session is served in the
  next [ttl] seconds, whatever calls come in between for the session and
  for fewer than [maxsize] other sessions. *)
Theorem refresh_rediscovers time conn session_id c :
  1 <= TTLCache.maxsize c ->
  OrderedDict.wf (TTLCache.items c) ->
  TTLCache.currsize c <= TTLCache.maxsize c ->
  exists c1,
    refresh_config upper time conn session_id c
    = Some (c1, discover upper conn) /\
    forall others calls time' conn',
      Z.of_nat (length others) < TTLCache.maxsize c ->
      Forall (fun b =>
                build_session b ∈ session_id :: others /\
                (build_time b < time + inject_Z (TTLCache.ttl c))%Q) calls ->
      (time' < time + inject_Z (TTLCache.ttl c))%Q ->
      exists c2 c3,
        builds upper calls c1 = Some c2 /\
        build_system_config upper time' conn' session_id c2
        = Some (c3, discover upper conn).
Proof.
  intros Hmax Hwf Hsize. unfold refresh_config.
  set (c0 := invalidate_config time session_id c).
  assert (TTLCache.maxsize c0 = TTLCache.maxsize c /\
          TTLCache.ttl c0 = TTLCache.ttl c /\
          sublist (TTLCache.items c0) (TTLCache.items c) /\
          snd (TTLCache.get time session_id c0) = None) as (M0 & T0 & S0 & G0).
  { unfold c0, invalidate_config, TTLCache.__contains__, TTLCache.get.
    destruct (OrderedDict.get session_id (TTLCache.items c)) as [[v e]|] eqn:Hg.
    - destruct (Qltb time e) eqn:Hlive.
      + simpl. repeat split; [apply od_remove_sublist|].
        now rewrite (od_get_remove_same _ _ Hwf).
      + repeat split; [reflexivity|]. now rewrite Hg, Hlive.
    - repeat split; [reflexivity|]. now rewrite Hg. }
  destruct (build_config_miss time conn session_id c0)
    as (c1 & E & M1 & T1 & H1); try lia; auto.
  - eapply sublist_NoDup; [exact Hwf|]. now apply od_keys_sublist.
  - unfold TTLCache.currsize in *. pose proof (sublist_length _ _ S0). lia.
  - exists c1. split; [exact E|]. rewrite T0 in H1.
    rewrite <- M0, <- M1.
    apply (served_until_expiry session_id (discover upper conn)
             (time + inject_Z (TTLCache.ttl c))%Q c1); [lia|exact H1].
Qed.

End ConfigFacts.

(** A witness of X24: finding [TABLE_ENTITY] next to
  [PROCESS_ENTITY] keeps what was enabled. *)
Lemma features_monotone_witness :
  system_config.dbt
    (system_config._determine_features
       {[ "DBTMODEL_ENTITY"%string := system_config.mkLocation "D" "S" "T" ]})
  = true /\
  system_config.dbt
    (system_config._determine_features
       (<[ "TABLE_ENTITY"%string := system_config.mkLocation "D" "S" "T2" ]>
          {[ "DBTMODEL_ENTITY"%string := system_config.mkLocation "D" "S" "T" ]}))
  = true.
Proof.
  assert (system_config.dbt
            (system_config._determine_features
               {[ "DBTMODEL_ENTITY"%string :=
                    system_config.mkLocation "D" "S" "T" ]}) = true) as H
    by (vm_compute; reflexivity).
  split; [exact H|].
  destruct (features_monotone
              {[ "DBTMODEL_ENTITY"%string := system_config.mkLocation "D" "S" "T" ]}
              (<[ "TABLE_ENTITY"%string := system_config.mkLocation "D" "S" "T2" ]>
                 {[ "DBTMODEL_ENTITY"%string :=
                      system_config.mkLocation "D" "S" "T" ]}))
    as (_ & _ & _ & Hdbt & _).
  - intros k Hk. apply has_true in Hk as [loc Hk]. apply has_true.
    destruct (decide (k = "TABLE_ENTITY"%string)) as [->|Hne].
    + rewrite lookup_insert_eq. eauto.
    + rewrite lookup_insert_ne by congruence. eauto.
  - now apply Hdbt.
Defined.

(** A witness of X25: the cursor opens, the entity query
  raises, [close] raises. *)
Lemma discovery_status_witness :
  system_config.success
    (system_config.discoveryStatus
       (system_config.discover (fun s => s)
          (system_config.mkConnection None None (Some []) (Some "closed"%string))))
  = true /\
  system_config.entities
    (system_config.discover (fun s => s)
       (system_config.mkConnection None None (Some []) (Some "closed"%string)))
  = ∅ /\
  system_config.errors
    (system_config.discoveryStatus
       (system_config.discover (fun s => s)
          (system_config.mkConnection None None (Some []) (Some "closed"%string))))
  = ["closed"%string].
Proof.
  destruct (discovery_status (fun s => s)
              (system_config.mkConnection None None (Some [])
                                          (Some "closed"%string)))
    as (_ & _ & _ & _ & _ & Hq & _).
  destruct Hq as [Hs He]; [reflexivity|reflexivity|].
  split; [exact Hs|]. split; [exact He|reflexivity].
Defined.

(** A witness of X26: the module's cache, a discovery at 0 s for "s1" on a
  connection whose cursor cannot be opened, a call for "s2" at 50 s, and a
  second call for "s1" at 100 s on a connection that works. *)
Lemma config_served_from_cache_witness :
  exists c1 c2 c3,
    system_config.build_system_config (fun s => s) 0
      (system_config.mkConnection (Some "no cursor"%string) None None None)
      "s1" SYSTEM_CONFIG_CACHE
    = Some (c1, system_config.discover (fun s => s)
                  (system_config.mkConnection (Some "no cursor"%string)
                                              None None None)) /\
    system_config.builds (fun s => s)
      [system_config.mkBuild 50
         (system_config.mkConnection None (Some []) (Some []) None) "s2"] c1
    = Some c2 /\
    system_config.build_system_config (fun s => s) 100
      (system_config.mkConnection None (Some []) (Some []) None) "s1" c2
    = Some (c3, system_config.discover (fun s => s)
                  (system_config.mkConnection (Some "no cursor"%string)
                                              None None None)).
Proof.
  destruct (config_served_from_cache (fun s => s) 0
              (system_config.mkConnection (Some "no cursor"%string)
                                          None None None) "s1"
              SYSTEM_CONFIG_CACHE) as (c1 & E & Hhit & _).
  - simpl. lia.
  - constructor.
  - vm_compute. discriminate.
  - reflexivity.
  - destruct (Hhit ["s2"%string]
                [system_config.mkBuild 50
                   (system_config.mkConnection None (Some []) (Some []) None)
                   "s2"]
                100%Q
                (system_config.mkConnection None (Some []) (Some []) None))
      as (c2 & c3 & E2 & E3).
    + simpl. lia.
    + constructor; [|constructor]. split.
      * simpl. right. left.
      * vm_compute. reflexivity.
    + vm_compute. reflexivity.
    + exists c1, c2, c3. split; [exact E|]. split; [exact E2|exact E3].
Defined.

(** A witness of X27: a cache that holds the config of a failed discovery
  for "s1", to expire at 300 s, is refreshed at 10 s; a call for "s2"
  follows at 20 s and a call for "s1" at 30 s. *)
Lemma refresh_rediscovers_witness :
  exists c1 c2 c3,
    system_config.refresh_config (fun s => s) 10
      (system_config.mkConnection None (Some []) (Some []) None) "s1"
      (TTLCache.mk 100 300
         [("s1"%string,
           (system_config.discover (fun s => s)
              (system_config.mkConnection (Some "no cursor"%string)
                                          None None None),
            300%Q))])
    = Some (c1, system_config.discover (fun s => s)
                  (system_config.mkConnection None (Some []) (Some []) None)) /\
    system_config.builds (fun s => s)
      [system_config.mkBuild 20
         (system_config.mkConnection None (Some []) (Some []) None) "s2"] c1
    = Some c2 /\
    system_config.build_system_config (fun s => s) 30
      (system_config.mkConnection (Some "no cursor"%string) None None None)
      "s1" c2
    = Some (c3, system_config.discover (fun s => s)
                  (system_config.mkConnection None (Some []) (Some []) None)).
Proof.
  destruct (refresh_rediscovers (fun s => s) 10
              (system_config.mkConnection None (Some []) (Some []) None) "s1"
              (TTLCache.mk 100 300
                 [("s1"%string,
                   (system_config.discover (fun s => s)
                      (system_config.mkConnection (Some "no cursor"%string)
                                                  None None None),
                    300%Q))]))
    as (c1 & E & Hhit).
  - simpl. lia.
  - apply (bool_decide_unpack _). vm_compute. exact I.
  - vm_compute. discriminate.
  - destruct (Hhit ["s2"%string]
                [system_config.mkBuild 20
                   (system_config.mkConnection None (Some []) (Some []) None)
                   "s2"]
                30%Q
                (system_config.mkConnection (Some "no cursor"%string)
                                            None None None))
      as (c2 & c3 & E2 & E3).
    + simpl. lia.
    + constructor; [|constructor]. split.
      * simpl. right. left.
      * vm_compute. reflexivity.
    + vm_compute. reflexivity.
    + exists c1, c2, c3. split; [exact E|]. split; [exact E2|exact E3].
Defined.

(* ===================================================================== *)
(** * routers/system.py: the cache of the config endpoint *)
(* ===================================================================== *)

Section RouterCacheFacts.
Context {Config : Type}.
Implicit Types (c : SystemConfigCache.t Config).

(** X28: A config that was put is returned by [get] up to and including
  [_ttl_seconds] later, and the cache stays as it is; after that, [get]
  returns [None] and deletes the entry. *)
Theorem router_put_then_get now now' session_id (cfg : Config) c :
  ((now' - now <= inject_Z (SystemConfigCache._ttl_seconds c))%Q ->
   SystemConfigCache.get now' session_id
     (SystemConfigCache.put now session_id cfg c)
   = (SystemConfigCache.put now session_id cfg c, Some cfg)) /\
  ((inject_Z (SystemConfigCache._ttl_seconds c) < now' - now)%Q ->
   exists c',
     SystemConfigCache.get now' session_id
       (SystemConfigCache.put now session_id cfg c) = (c', None) /\
     SystemConfigCache._cache c' !! session_id = None /\
     forall other, other <> session_id ->
       SystemConfigCache._cache c' !! other
       = SystemConfigCache._cache c !! other).
Proof.
  unfold SystemConfigCache.get, SystemConfigCache.put. simpl.
  rewrite lookup_insert_eq. unfold SystemConfigCache.entry_is_expired. simpl.
  split.
  - intros Hlive.
    assert (Qltb (inject_Z (SystemConfigCache._ttl_seconds c)) (now' - now)
            = false) as -> by now apply Qltb_ge.
    reflexivity.
  - intros Hdead.
    assert (Qltb (inject_Z (SystemConfigCache._ttl_seconds c)) (now' - now)
            = true) as -> by now apply Qltb_lt.
    eexists. split; [reflexivity|]. simpl.
    split; [apply lookup_delete_eq|].
    intros other Hne. rewrite lookup_delete_ne by congruence.
    now rewrite lookup_insert_ne by congruence.
Qed.

(** X29: [invalidate] tells whether the session had an entry, expired or not,
  and leaves none: a second [invalidate] returns [False], a [get] returns
  [None], and the entries of other sessions stay. *)
Theorem router_invalidate session_id c :
  snd (SystemConfigCache.invalidate session_id c)
  = bool_decide (is_Some (SystemConfigCache._cache c !! session_id)) /\
  SystemConfigCache._cache (fst (SystemConfigCache.invalidate session_id c))
    !! session_id = None /\
  SystemConfigCache.invalidate session_id
    (fst (SystemConfigCache.invalidate session_id c))
  = (fst (SystemConfigCache.invalidate session_id c), false) /\
  (forall now,
     snd (SystemConfigCache.get now session_id
            (fst (SystemConfigCache.invalidate session_id c))) = None) /\
  (forall other, other <> session_id ->
     SystemConfigCache._cache (fst (SystemConfigCache.invalidate session_id c))
       !! other = SystemConfigCache._cache c !! other).
Proof.
  unfold SystemConfigCache.invalidate.
  destruct (SystemConfigCache._cache c !! session_id) as [e|] eqn:Hin; simpl.
  - split.
    { first [reflexivity|symmetry; apply bool_decide_eq_true; eauto]. }
    rewrite lookup_delete_eq. split; [reflexivity|]. split; [reflexivity|].
    split.
    + intros now. unfold SystemConfigCache.get. simpl.
      now rewrite lookup_delete_eq.
    + intros other Hne. now rewrite lookup_delete_ne by congruence.
  - split.
    { first [reflexivity
            |symmetry; apply bool_decide_eq_false; intros [x Hx]; congruence]. }
    rewrite Hin. split; [reflexivity|]. split; [reflexivity|].
    split; [|reflexivity].
    intros now. unfold SystemConfigCache.get. now rewrite Hin.
Qed.

Lemma fold_delete_lookup (ks : list string) : forall (m : gmap string
    (SystemConfigCache.CachedConfig Config)) k,
  fold_left (fun m sid => delete sid m) ks m !! k
  = if decide (k ∈ ks) then None else m !! k.
Proof.
  induction ks as [|k0 ks IH]; intros m k; simpl.
  - destruct (decide (k ∈ [])) as [H|_]; [|reflexivity].
    now apply not_elem_of_nil in H.
  - rewrite IH.
    destruct (decide (k ∈ ks)) as [H1|H1];
      destruct (decide (k ∈ k0 :: ks)) as [H2|H2]; auto.
    + exfalso. apply H2. now right.
    + apply elem_of_cons in H2 as [->|H2]; [|contradiction].
      apply lookup_delete_eq.
    + apply lookup_delete_ne. intros ->. apply H2. left.
Qed.

(** X30: [clear_expired] deletes the entries that are older than
  [_ttl_seconds] and no other, and returns how many there were. *)
Theorem router_clear_expired now c :
  (forall sid,
     SystemConfigCache._cache (fst (SystemConfigCache.clear_expired now c))
       !! sid
     = match SystemConfigCache._cache c !! sid with
       | Some e =>
           if SystemConfigCache.entry_is_expired
                now (SystemConfigCache._ttl_seconds c) e
           then None else Some e
       | None => None
       end) /\
  snd (SystemConfigCache.clear_expired now c)
  = Z.of_nat (size (SystemConfigCache._cache c))
    - Z.of_nat
        (size (SystemConfigCache._cache
                 (fst (SystemConfigCache.clear_expired now c)))) /\
  SystemConfigCache._ttl_seconds (fst (SystemConfigCache.clear_expired now c))
  = SystemConfigCache._ttl_seconds c.
Proof.
  set (f := fun p : string * SystemConfigCache.CachedConfig Config =>
              SystemConfigCache.entry_is_expired
                now (SystemConfigCache._ttl_seconds c) (snd p)).
  assert (forall sid,
     SystemConfigCache._cache (fst (SystemConfigCache.clear_expired now c))
       !! sid
     = match SystemConfigCache._cache c !! sid with
       | Some e =>
           if SystemConfigCache.entry_is_expired
                now (SystemConfigCache._ttl_seconds c) e
           then None else Some e
       | None => None
       end) as Hlook.
  { intros sid. unfold SystemConfigCache.clear_expired. simpl. fold f.
    rewrite fold_delete_lookup.
    destruct (decide (sid ∈ map fst (List.filter f
                (map_to_list (SystemConfigCache._cache c))))) as [Hin|Hout].
    - apply list_elem_of_fmap in Hin as ([sid' e] & -> & Hp).
      apply list_elem_of_In, List.filter_In in Hp as [Hp He].
      apply list_elem_of_In, elem_of_map_to_list in Hp. simpl.
      rewrite Hp. unfold f in He. simpl in He. now rewrite He.
    - destruct (SystemConfigCache._cache c !! sid) as [e|] eqn:Hsid;
        [|reflexivity].
      destruct (SystemConfigCache.entry_is_expired now
                  (SystemConfigCache._ttl_seconds c) e) eqn:He; [|reflexivity].
      exfalso. apply Hout. apply list_elem_of_fmap. exists (sid, e).
      split; [reflexivity|]. apply list_elem_of_In, List.filter_In.
      split; [|exact He]. now apply list_elem_of_In, elem_of_map_to_list. }
  split; [exact Hlook|]. split; [|reflexivity].
  (* the entries split into the expired ones and the ones that stay *)
  assert (map_to_list
            (SystemConfigCache._cache
               (fst (SystemConfigCache.clear_expired now c)))
          ≡ₚ List.filter (fun p => negb (f p))
               (map_to_list (SystemConfigCache._cache c))) as Hperm.
  { apply NoDup_Permutation.
    - apply NoDup_map_to_list.
    - apply NoDup_ListNoDup, List.NoDup_filter, NoDup_ListNoDup,
        NoDup_map_to_list.
    - intros [sid e]. rewrite elem_of_map_to_list, Hlook.
      rewrite list_elem_of_In, List.filter_In, <- list_elem_of_In,
        elem_of_map_to_list. unfold f. simpl.
      destruct (SystemConfigCache._cache c !! sid) as [e'|];
        [|split; [discriminate|intros [[=] _]]].
      destruct (SystemConfigCache.entry_is_expired now
                  (SystemConfigCache._ttl_seconds c) e') eqn:He'.
      + split; [discriminate|]. intros [[= ->] H]. rewrite He' in H.
        discriminate.
      + split.
        * intros [= ->]. rewrite He'. auto.
        * intros [[= ->] _]. reflexivity. }
  assert (snd (SystemConfigCache.clear_expired now c)
          = Z.of_nat
              (length (List.filter f
                         (map_to_list (SystemConfigCache._cache c))))) as ->.
  { unfold SystemConfigCache.clear_expired. simpl. fold f.
    now rewrite length_map. }
  rewrite <- !length_map_to_list, Hperm.
  assert (forall l : list (string * SystemConfigCache.CachedConfig Config),
            length l
            = (length (List.filter f l)
               + length (List.filter (fun p => negb (f p)) l))%nat) as Hsplit.
  { induction l as [|p l IH]; simpl; [reflexivity|].
    destruct (f p); simpl; lia. }
  rewrite (Hsplit (map_to_list (SystemConfigCache._cache c))). lia.
Qed.
End RouterCacheFacts.

(** A witness of X28: a config put at 0 s is read at
  900 s and gone at 900.5 s. *)
Lemma router_put_then_get_witness :
  snd (SystemConfigCache.get 900 "s1"
         (SystemConfigCache.put 0 "s1" "config"%string
            SystemConfigCache.SYSTEM_CONFIG_CACHE))
  = Some "config"%string /\
  snd (SystemConfigCache.get (9005 # 10) "s1"
         (SystemConfigCache.put 0 "s1" "config"%string
            SystemConfigCache.SYSTEM_CONFIG_CACHE))
  = None.
Proof.
  destruct (router_put_then_get 0 900 "s1" "config"%string
              SystemConfigCache.SYSTEM_CONFIG_CACHE) as [H _].
  destruct (router_put_then_get 0 (9005 # 10) "s1" "config"%string
              SystemConfigCache.SYSTEM_CONFIG_CACHE) as [_ H'].
  split.
  - rewrite H; [reflexivity|]. vm_compute. discriminate.
  - destruct H' as (c' & E & _); [vm_compute; reflexivity|].
    now rewrite E.
Defined.

(* ===================================================================== *)
(** * QueryResultStore: what holds after any series of operations *)
(* ===================================================================== *)

Section StoreRuns.
Import QueryResultStore.
Implicit Types (s : QueryResultStore.t).

Lemma sizes_ok_bytes_le (l1 l2 : list (string * QueryResult.t)) s :
  sublist l1 l2 ->
  Forall (fun kr => 0 <= QueryResult.size_bytes (snd kr)) l2 ->
  stored_bytes (set_results l1 0 s) <= stored_bytes (set_results l2 0 s).
Proof. apply bytes_sublist. Qed.

Lemma put_keeps_ok now k d s s' :
  1 <= _max_results s -> 0 <= _max_size_bytes s -> store_ok s ->
  put now k d s = Some s' -> same_params s s' /\ store_ok s'.
Proof.
  intros Hmax Hb (Hlen & Hwf & Hs & Htot & _) E.
  destruct (put_unfold now k d s Hmax) as (s3 & H3 & C3 & B3 & E').
  rewrite E in E'. injection E' as ->.
  pose proof (shrinks_wf _ _ H3 Hwf) as Hwf3.
  pose proof (shrinks_Forall _ _ _ H3 Hs) as Hs3.
  pose proof H3 as ((P1 & P2 & P3) & _ & Hdiff).
  set (new := QueryResult.__init__ now d).
  set (rs := OrderedDict.remove k (_results s3)).
  assert (sublist rs (_results s3)) as Hsub by apply od_remove_sublist.
  assert (Forall (fun kr => 0 <= QueryResult.size_bytes (snd kr)) rs) as Hsrs.
  { rewrite Forall_forall in *. intros x Hx. apply Hs3.
    eapply elem_of_sublist; eauto. }
  assert (0 <= QueryResult._estimate_size d) as Hnew
    by (unfold QueryResult._estimate_size; lia).
  assert (stored_bytes (set_results rs 0 s3) <= stored_bytes s3) as Hle.
  { apply (sizes_ok_bytes_le rs (_results s3) s3 Hsub Hs3). }
  assert (stored_bytes
            (set_results (rs ++ [(k, new)])
               (_total_size_bytes s3 + QueryResult._estimate_size d) s3)
          = stored_bytes (set_results rs 0 s3) + QueryResult._estimate_size d)
    as Hsum.
  { rewrite stored_bytes_set, stored_bytes_app.
    unfold stored_bytes at 2. simpl. unfold QueryResult.size_bytes. simpl.
    lia. }
  split; [repeat split; simpl; assumption|].
  unfold store_ok. rewrite Hsum. unfold sizes_ok, __len__, set_results.
  unfold set_results in Hle. simpl.
  split; [|split; [|split; [|split]]].
  - unfold at_capacity, __len__ in *. rewrite Z.geb_leb, Z.leb_gt in C3.
    rewrite length_app. simpl. pose proof (sublist_length _ _ Hsub). lia.
  - now apply od_wf_store_last.
  - unfold sizes_ok. simpl. apply Forall_app. split; [exact Hsrs|].
    constructor; [|constructor]. simpl. unfold QueryResult.size_bytes. simpl.
    exact Hnew.
  - lia.
  - unfold over_budget in B3. apply andb_false_iff in B3 as [B3|B3].
    + left. rewrite Z.gtb_ltb, Z.ltb_ge in B3. lia.
    + apply negb_false_iff, Nat.eqb_eq in B3. right. exists k, new.
      unfold rs. destruct (_results s3); [reflexivity|discriminate].
Qed.

Lemma get_keeps_ok now k s :
  0 <= _max_size_bytes s -> store_ok s ->
  same_params s (fst (get now k s)) /\ store_ok (fst (get now k s)).
Proof.
  intros Hb (Hlen & Hwf & Hs & Htot & Hbud). unfold get.
  destruct (OrderedDict.get k (_results s)) as [r|] eqn:Hg;
    [|split; [repeat split|repeat split; assumption]].
  assert (0 <= QueryResult.size_bytes r) as Hr.
  { unfold sizes_ok in Hs. rewrite Forall_forall in Hs.
    apply (Hs (k, r)). clear -Hg. induction (_results s) as [|[k' r'] l IH];
      simpl in Hg; [discriminate|].
    destruct (String.eqb_spec k k') as [->|Hne].
    - injection Hg as ->. left.
    - right. now apply IH. }
  destruct (QueryResult.is_expired now (_ttl_minutes s) r).
  - simpl. pose proof (remove_shrinks k s) as H3.
    pose proof H3 as ((P1 & P2 & P3) & Hsub & Hdiff).
    split; [repeat split; assumption|].
    assert (stored_bytes (_remove k s) = stored_bytes s - QueryResult.size_bytes r)
      as Hst.
    { unfold _remove, OrderedDict.pop. rewrite Hg.
      apply (stored_bytes_remove _ k r _ s Hg). }
    unfold store_ok. split; [|split; [|split; [|split]]].
    + unfold __len__ in *. pose proof (sublist_length _ _ Hsub). lia.
    + eapply shrinks_wf; eauto.
    + eapply shrinks_Forall; eauto.
    + lia.
    + destruct Hbud as [Hbud|(k0 & r0 & Hone)]; [left; lia|].
      left. rewrite Hst. unfold stored_bytes. rewrite Hone. simpl.
      rewrite Hone in Hg. simpl in Hg.
      destruct (String.eqb k k0); [|discriminate]. injection Hg as ->. lia.
  - simpl. rewrite od_store_last.
    assert (stored_bytes
              (set_results
                 (OrderedDict.remove k (_results s)
                  ++ [(k, QueryResult.touch now r)])
                 (_total_size_bytes s) s) = stored_bytes s) as Hst.
    { rewrite stored_bytes_set, stored_bytes_app.
      rewrite (stored_bytes_remove _ k r 0 s Hg).
      unfold stored_bytes at 2. simpl.
      change (stored_bytes (set_results (_results s) 0 s))
        with (stored_bytes s).
      unfold QueryResult.size_bytes, QueryResult.touch. simpl.
      unfold QueryResult.size_bytes in *. lia. }
    split; [repeat split|].
    unfold store_ok. rewrite Hst. simpl. split; [|split; [|split; [|split]]].
    + unfold __len__ in *. simpl. rewrite length_app. simpl.
      pose proof (od_remove_length _ _ _ Hg). lia.
    + now apply od_wf_store_last.
    + unfold sizes_ok in *. simpl. apply Forall_app. split.
      * rewrite Forall_forall in *. intros x Hx. apply Hs.
        eapply elem_of_sublist; [exact Hx|apply od_remove_sublist].
      * constructor; [|constructor]. exact Hr.
    + exact Htot.
    + destruct Hbud as [Hbud|(k0 & r0 & Hone)]; [now left|]. right.
      rewrite Hone in *. simpl in Hg.
      destruct (String.eqb_spec k k0) as [->|]; [|discriminate].
      simpl. rewrite String.eqb_refl. simpl. eauto.
Qed.

(** X7: Whatever series of [put], [get] and [clear] runs on a store built with
  [max_results >= 1] and [max_size_bytes >= 0], every call returns, the
  store never holds more than [max_results] entries, its keys are pairwise
  different, the tracked total is never below the bytes stored, and the
  bytes stored are within [max_size_bytes] unless the store holds a single
  entry. *)
Theorem store_invariant (max_results ttl_minutes max_size_bytes : Z)
    (os : list op) :
  1 <= max_results -> 0 <= max_size_bytes ->
  exists s',
    run os (__init__ max_results ttl_minutes max_size_bytes) = Some s' /\
    _max_results s' = max_results /\
    _max_size_bytes s' = max_size_bytes /\
    store_ok s'.
Proof.
  intros Hmax Hb.
  assert (forall os s,
            1 <= _max_results s -> 0 <= _max_size_bytes s -> store_ok s ->
            exists s', run os s = Some s' /\ same_params s s' /\ store_ok s')
    as Hrun.
  { clear. induction os as [|o os IH]; intros s Hmax Hb Hok; simpl.
    - exists s. repeat split; auto; apply Hok.
    - assert (exists s1, step o s = Some s1 /\ same_params s s1 /\ store_ok s1)
        as (s1 & E & (P1 & P2 & P3) & Hok1).
      { destruct o as [now k d|now k|]; simpl.
        - destruct (put_count now k d s Hmax) as (s1 & E & _).
          exists s1. split; [exact E|]. eapply put_keeps_ok; eauto.
        - eexists. split; [reflexivity|]. now apply get_keeps_ok.
        - eexists. split; [reflexivity|]. split; [repeat split|].
          unfold store_ok, clear, __len__, sizes_ok, stored_bytes. simpl.
          split; [lia|]. split; [constructor|]. split; [constructor|].
          split; [lia|]. left. lia. }
      rewrite E. destruct (IH s1) as (s' & E' & (Q1 & Q2 & Q3) & Hok');
        try lia; auto.
      exists s'. split; [exact E'|]. split; [|exact Hok'].
      unfold same_params. repeat split; congruence. }
  destruct (Hrun os (__init__ max_results ttl_minutes max_size_bytes))
    as (s' & E & (P1 & _ & P3) & Hok); auto.
  { unfold store_ok, __len__, sizes_ok, stored_bytes. simpl.
    split; [lia|]. split; [constructor|]. split; [constructor|].
    split; [lia|]. left. exact Hb. }
  exists s'. auto.
Qed.

(** A witness of X7: the two [put]s under one id that make the tracked total
  wrong: the total is 110, the bytes stored are 60, the budget is 1000. *)
Lemma store_invariant_witness :
  exists s',
    run [Put 0 "q1" (mkData "running" 50); Put 1 "q1" (mkData "cancelled" 60);
         Get 2 "q1"]
        (__init__ 50 5 1000) = Some s' /\
    store_ok s' /\ _total_size_bytes s' = 110 /\ stored_bytes s' = 60.
Proof.
  destruct (store_invariant 50 5 1000
              [Put 0 "q1" (mkData "running" 50);
               Put 1 "q1" (mkData "cancelled" 60); Get 2 "q1"])
    as (s' & E & _ & _ & Hok); [lia|lia|].
  exists s'. split; [exact E|]. split; [exact Hok|].
  vm_compute in E. injection E as <-. split; reflexivity.
Defined.
End StoreRuns.
